(** * nrt: near-real-time break detection on raster time series

    A shallow embedding of the monitoring engine of the [nrt] package
    ([nrt/monitor/__init__.py], [nrt/monitor/cusum.py], [nrt/stats.py]) and
    the properties of its specification.

    Numbers are modelled as the code has them.  A [numpy.float64] is a
    primitive binary64 float of Rocq ([PrimFloat.float]), with the IEEE-754
    operations of the kernel; a [numpy.float32] value is carried as the
    binary64 float of the same value and its arithmetic is rounded to 24 bits
    with the operations of [SpecFloat]; [uint8] and [uint16] cells are
    integers with their wrap-around written out.  Arrays are flat row-major
    lists with their shape next to them, and the elementwise operations of
    numpy check the shapes and raise [ValueError] as numpy does.  What numpy
    and Python leave to the libraries they are linked against, whose results
    are not fixed to the last bit ([np.log], the [pow] behind [**], the inner
    product of the BLAS behind [np.dot]), is a parameter of the functions
    that call it. *)

From Stdlib Require Import ZArith Uint63 Floats Reals Lia Lra.
From stdpp Require Import base option list strings gmap.

#[local] Set Warnings "-inexact-float".
#[local] Open Scope Z_scope.

(** ** Exceptions

    A call either returns a value or raises; [result] is the error monad the
    embedding threads through every function that can raise. *)

Inductive exn :=
| ValueError (msg : string)
| IndexError (msg : string)
| AttributeError (msg : string)
| NotImplementedError (msg : string).

Inductive result (A : Type) :=
| Ok (a : A)
| Raise (e : exn).
Arguments Ok {A} a.
Arguments Raise {A} e.

#[global] Instance result_ret : MRet result := @Ok.
#[global] Instance result_bind : MBind result :=
  fun A B f m => match m with Ok a => f a | Raise e => Raise e end.
#[global] Instance result_fmap : FMap result :=
  fun A B f m => match m with Ok a => Ok (f a) | Raise e => Raise e end.

Definition is_ok {A} (r : result A) : bool :=
  match r with Ok _ => true | Raise _ => false end.

(** ** The numeric interface of the boundary formula

    The boundary of the CUSUM monitor is one arithmetic expression; it is
    written once over this interface and read at binary64 (what the code
    computes) and at the real numbers (what the formula denotes). *)

Class Arith (T : Type) := {
  a_add : T -> T -> T;
  a_sub : T -> T -> T;
  a_mul : T -> T -> T;
  a_div : T -> T -> T;
  a_sqrt : T -> T;
  a_log : T -> T;
  a_pow2 : T -> T;
  a_of_int : Z -> T
}.

#[global] Instance Arith_R : Arith R := {
  a_add := Rplus; a_sub := Rminus; a_mul := Rmult; a_div := Rdiv;
  a_sqrt := R_sqrt.sqrt; a_log := ln; a_pow2 := fun v => (v * v)%R;
  a_of_int := IZR
}.

(** ** Scalars and arrays of numpy *)

Module np.

(** [bool] promoted to [float64] in mixed arithmetic: [False] is [0.0] and
    [True] is [1.0]. *)
Definition of_bool (b : bool) : float := if b then 1%float else 0%float.

(** [x ** 2], the product of [x] with itself. *)
Definition square (x : float) : float := (x * x)%float.

Definition isnan (x : float) : bool := PrimFloat.is_nan x.
Definition isfinite (x : float) : bool := PrimFloat.is_finite x.

(** [a < b] and [a > b] on floats: false as soon as one side is NaN. *)
Definition less (a b : float) : bool := (a <? b)%float.
Definition greater (a b : float) : bool := (b <? a)%float.

(** An unsigned integer ([uint16] here) converted to [float64]. *)
Definition of_int (z : Z) : float := PrimFloat.of_uint63 (Uint63.of_Z z).

(** [uint16] arithmetic wraps modulo [2^16]. *)
Definition wrap16 (z : Z) : Z := z mod 65536.

(** [float32] arithmetic, on binary64 carriers: the operation of
    [SpecFloat] at precision 24 and maximal exponent 128. *)
Definition mul32 (a b : float) : float :=
  SF2Prim (SFmul 24 128 (Prim2SF a) (Prim2SF b)).
Definition sqrt32 (a : float) : float :=
  SF2Prim (SFsqrt 24 128 (Prim2SF a)).
Definition div32 (a b : float) : float :=
  SF2Prim (SFdiv 24 128 (Prim2SF a) (Prim2SF b)).
Definition add32 (a b : float) : float :=
  SF2Prim (SFadd 24 128 (Prim2SF a) (Prim2SF b)).

(** The signed mantissa of a finite float. *)
Definition signed (s : bool) (m : positive) : Z := if s then Zneg m else Zpos m.

(** The float nearest to an integer ([SpecFloat]'s rounding to nearest
    even at binary64). *)
Definition of_Z (z : Z) : float := SF2Prim (binary_normalize prec emax z 0 false).

(** [astype(np.float32)]: a finite value is rounded to 24 bits. *)
Definition float32 (x : float) : float :=
  match Prim2SF x with
  | S754_finite s m e => SF2Prim (binary_normalize 24 128 (signed s m) e false)
  | _ => x
  end.

(** The integer part of a float, rounded toward zero; [None] for NaN and
    the infinities. *)
Definition trunc (x : float) : option Z :=
  match Prim2SF x with
  | S754_zero _ => Some 0
  | S754_finite s m e =>
      Some (if 0 <=? e then signed s m * 2 ^ e
            else Z.quot (signed s m) (2 ^ (- e)))
  | _ => None
  end.

(** A [float64] converted to an unsigned integer of [bits] bits, as the C
    cast numpy performs behaves on x86-64: the value is truncated toward
    zero to a signed 32-bit integer whose low bits are kept; NaN, the
    infinities and values outside the 32-bit range give the "integer
    indefinite" [0x80000000], whose low bits are zero. *)
Definition astype_unsigned (bits : Z) (x : float) : Z :=
  match trunc x with
  | Some t => if (- 2 ^ 31 <=? t) && (t <? 2 ^ 31) then t mod 2 ^ bits else 0
  | None => 0
  end.
Definition astype_uint8 : float -> Z := astype_unsigned 8.
Definition astype_uint16 : float -> Z := astype_unsigned 16.

(** The floor of the exact quotient [(m1 * 2^e1) / (m2 * 2^e2)]. *)
Definition floor_quotient (m1 e1 m2 e2 : Z) : Z :=
  if e2 <=? e1 then (m1 * 2 ^ (e1 - e2)) / m2
  else m1 / (m2 * 2 ^ (e2 - e1)).

(** [np.floor_divide] on [float64], the floor division of Python: for
    finite operands the floor of the exact quotient, as a float; a zero
    divisor gives [a / b]; an infinite dividend gives NaN; a zero dividend
    gives the signed zero [a / b]; and a finite dividend over an infinite
    divisor gives [-1] when the signs differ and [0] otherwise. *)
Definition floor_divide (a b : float) : float :=
  match Prim2SF a, Prim2SF b with
  | S754_nan, _ | _, S754_nan => nan
  | _, S754_zero _ => (a / b)%float
  | S754_infinity _, _ => nan
  | S754_zero _, _ => (a / b)%float
  | S754_finite sa _ _, S754_infinity sb =>
      if xorb sa sb then (-1)%float else 0%float
  | S754_finite sa ma ea, S754_finite sb mb eb =>
      of_Z (floor_quotient (signed sa ma) ea (signed sb mb) eb)
  end.

(** A 2-D array: its shape [(rows, columns)] and its cells in row-major
    order. *)
Record grid (A : Type) := Grid { shape : nat * nat; cells : list A }.
Arguments Grid {A} shape cells.
Arguments shape {A} g.
Arguments cells {A} g.

(** A 3-D array [(k, rows, columns)]: [k] frames over one 2-D shape. *)
Record cube (A : Type) := Cube { cshape : nat * nat; frames : list (list A) }.
Arguments Cube {A} cshape frames.
Arguments cshape {A} c.
Arguments frames {A} c.

Definition size (sh : nat * nat) : nat := (sh.1 * sh.2)%nat.

Definition wf_grid {A} (g : grid A) : Prop := length (cells g) = size (shape g).
Definition wf_cube {A} (c : cube A) : Prop :=
  Forall (fun f => length f = size (cshape c)) (frames c).

Definition broadcast_error : exn :=
  ValueError "operands could not be broadcast together".

(** Elementwise operations.  Two operands must have the same shape, as
    the arrays of an instance have; numpy's broadcasting between different
    shapes is not modelled and such operands raise. *)
Definition map1 {A B} (f : A -> B) (a : grid A) : grid B :=
  Grid (shape a) (f <$> cells a).

Definition map2 {A B C} (f : A -> B -> C) (a : grid A) (b : grid B)
  : result (grid C) :=
  if decide (shape a = shape b)
  then Ok (Grid (shape a) (zip_with f (cells a) (cells b)))
  else Raise broadcast_error.

(** [np.where(c, a, b)]. *)
Definition where_ {A} (c : grid bool) (a b : grid A) : result (grid A) :=
  ab ← map2 pair a b;
  map2 (fun (ci : bool) (xy : A * A) => if ci then xy.1 else xy.2) c ab.

(** [np.full_like(a, v)] and a scalar broadcast against [a]. *)
Definition full_like {A B} (a : grid A) (v : B) : grid B :=
  Grid (shape a) (replicate (length (cells a)) v).

(** [a.reshape(sh)]. *)
Definition reshape {A} (l : list A) (sh : nat * nat) : result (grid A) :=
  if decide (length l = size sh) then Ok (Grid sh l)
  else Raise (ValueError "cannot reshape array").

(** [l] cut into [m] rows of [k] cells. *)
Fixpoint chunks {A} (m k : nat) (l : list A) : list (list A) :=
  match m with
  | O => []
  | S m' => take k l :: chunks m' k (drop k l)
  end.

(** Column [j] of a matrix given by its rows. *)
Definition column {A} (b : list (list A)) (j : nat) : list A :=
  omap (fun row : list A => row !! j) b.

(** The inner product as the BLAS behind [np.dot] computes it: numpy hands
    a matrix product to the library it is linked against, and the order in
    which that library adds the products of a cell, and whether it fuses
    them, is its own.  The kernel is given the shape [(M, N, P)] of the
    product and the position [(i, j)] of the cell, then row [i] of the left
    operand and column [j] of the right one. *)
Definition dot_kernel : Type :=
  nat * nat * nat -> nat * nat -> list float -> list float -> float.

(** [np.dot(X, B)] of an [(M, N)] matrix and the [N] rows of [B], each of
    [P] cells: cell [(i, j)] of the product is the inner product of row [i]
    of [X] and column [j] of [B]. *)
Definition dot (inner : dot_kernel) (X : grid float) (p : nat)
  (b : list (list float)) : result (grid float) :=
  if decide ((shape X).2 = length b)
  then Ok (Grid ((shape X).1, p)
                (mjoin (imap (fun (i : nat) (xrow : list float) =>
                                (fun j : nat =>
                                   inner ((shape X).1, (shape X).2, p) (i, j)
                                         xrow (column b j)) <$> seq 0 p)
                             (chunks (shape X).1 (shape X).2 (cells X)))))
  else Raise (ValueError "shapes not aligned").

(** [c[:, m]] with a boolean mask [m] over the last two axes: per frame,
    the cells where the mask is true, in row-major order. *)
Definition count_true (m : list bool) : nat := length (filter (fun b => b = true) m).

Definition masked {A} (m : list bool) (frame : list A) : list A :=
  snd <$> filter (fun bx : bool * A => bx.1 = true) (zip m frame).

Definition select {A} (c : cube A) (m : grid bool) : result (grid A) :=
  if decide (cshape c = shape m)
  then Ok (Grid (length (frames c), count_true (cells m))
                (mjoin (masked (cells m) <$> frames c)))
  else Raise (IndexError "boolean index did not match indexed array").

(** [c[:, m] = v]: the cells of each frame where the mask is true take the
    successive values of the matching row of [v]. *)
Fixpoint scatter {A} (m : list bool) (frame vals : list A) : list A :=
  match m, frame with
  | b :: m', x :: frame' =>
      if b then
        match vals with
        | v :: vals' => v :: scatter m' frame' vals'
        | [] => x :: scatter m' frame' []
        end
      else x :: scatter m' frame' vals
  | _, _ => frame
  end.

Definition assign_masked {A} (c : cube A) (m : grid bool) (v : grid A)
  : result (cube A) :=
  if decide (cshape c = shape m) then
    if decide (shape v = (length (frames c), count_true (cells m)))
    then Ok (Cube (cshape c)
               (zip_with (scatter (cells m)) (frames c)
                  (chunks (length (frames c)) (count_true (cells m)) (cells v))))
    else Raise (ValueError "shape mismatch: value array could not be broadcast to indexing result")
  else Raise (IndexError "boolean index did not match indexed array").

Definition cube_map {A B} (f : A -> B) (c : cube A) : cube B :=
  Cube (cshape c) ((fun frame : list A => f <$> frame) <$> frames c).

(** [np.zeros((k, rows, columns))]. *)
Definition zeros (k : nat) (sh : nat * nat) : cube float :=
  Cube sh (replicate k (replicate (size sh) 0%float)).

(** [a[i]] on a 1-D array: [IndexError] out of bounds (the message of
    numpy also gives the index and the size). *)
Definition item (l : list float) (i : nat) : result float :=
  match l !! i with
  | Some v => Ok v
  | None => Raise (IndexError "index out of bounds for axis 0")
  end.

(** [np.maximum] and [np.minimum] of two scalars, which propagate NaN, and
    their reductions [np.max] and [np.min] over a 1-D array, from its first
    element on. *)
Definition maximum (a b : float) : float :=
  if (b <=? a)%float || isnan a then a else b.
Definition minimum (a b : float) : float :=
  if (a <=? b)%float || isnan a then a else b.

Definition amax (l : list float) : result float :=
  match l with
  | [] => Raise (ValueError "zero-size array to reduction operation maximum which has no identity")
  | v :: l' => Ok (foldl maximum v l')
  end.
Definition amin (l : list float) : result float :=
  match l with
  | [] => Raise (ValueError "zero-size array to reduction operation minimum which has no identity")
  | v :: l' => Ok (foldl minimum v l')
  end.

End np.

Abbreviation grid := np.grid.
Abbreviation cube := np.cube.

#[global] Instance grid_lookup {A} : Lookup nat A (grid A) :=
  fun p g => np.cells g !! p.

(** ** nrt/stats.py *)

Module stats.

(** [bisquare(resid, c)]:
    [(np.abs(resid) < c) * (1 - (resid / c) ** 2) ** 2], elementwise over the
    array of residuals. *)
Definition bisquare_cell (c : float) (r : float) : float :=
  (np.of_bool (np.less (PrimFloat.abs r) c)
   * np.square (1 - np.square (r / c)))%float.

Definition bisquare (resid : list float) (c : float) : list float :=
  bisquare_cell c <$> resid.

(** The default tuning constant of the signature, [c=4.685]. *)
Definition bisquare_c : float := 4.685%float.

Section erf.

(** [np.exp], which the primitive floats do not provide. *)
Variable np_exp : float -> float.

(** [erfcc(x)], the complementary error function: a rational
    approximation in [z = |x|], reflected for a negative argument. *)
Definition erfcc (x : float) : float :=
  let z := PrimFloat.abs x in
  let t := (1 / (1 + 0.5 * z))%float in
  let r := (t * np_exp (- z * z - 1.26551223 + t * (1.00002368 + t * (0.37409196 +
        t * (0.09678418 + t * (-0.18628806 + t * (0.27886807 +
        t * (-1.13520398 + t * (1.48851587 + t * (-0.82215223 +
        t * 0.17087277))))))))))%float in
  if (0 <=? x)%float then r else (2 - r)%float.

End erf.

End stats.

(** ** nrt/monitor/__init__.py: the base engine *)

(** The boundary array changes dtype over the life of an instance: [uint16]
    as [CuSum.fit] leaves it, [float64] from the first monitoring step on. *)
Inductive boundary_t :=
| BoundaryU16 (g : grid Z)
| BoundaryF64 (g : grid float).

(** The array promoted to [float64], as numpy does where it meets a
    [float64] operand; a [uint16] converts exactly. *)
Definition as_float64 (b : boundary_t) : grid float :=
  match b with
  | BoundaryU16 g => np.map1 np.of_int g
  | BoundaryF64 g => g
  end.

(** The attributes of [BaseNrt.__init__], of a fitted instance. *)
Record BaseNrt := mkBaseNrt {
  mask : grid Z;
  trend : bool;
  harmonic_order : Z;
  x : list float;
  y : list float;
  beta : cube float;
  process : grid float;
  boundary : boundary_t
}.

Definition set_mask (m : grid Z) (b : BaseNrt) : BaseNrt :=
  mkBaseNrt m (trend b) (harmonic_order b) (x b) (y b) (beta b) (process b)
            (boundary b).
Definition set_process (p : grid float) (b : BaseNrt) : BaseNrt :=
  mkBaseNrt (mask b) (trend b) (harmonic_order b) (x b) (y b) (beta b) p
            (boundary b).
Definition set_boundary (bd : boundary_t) (b : BaseNrt) : BaseNrt :=
  mkBaseNrt (mask b) (trend b) (harmonic_order b) (x b) (y b) (beta b)
            (process b) bd.

(** The truth value [np.logical_and] reads in a cell of [is_break]. *)
Class Truthy (A : Type) := truth : A -> bool.
#[global] Instance truthy_bool : Truthy bool := fun b => b.
#[global] Instance truthy_uint8 : Truthy Z := fun z => negb (z =? 0).

(** What a monitoring class supplies: the abstract [_update_process], and
    [_detect_break] and [_detect_extreme_outliers], which it may override. *)
Class NrtClass (S : Type) := {
  super : S -> BaseNrt;
  with_super : BaseNrt -> S -> S;
  break_cell : Type;
  break_truthy :: Truthy break_cell;
  _update_process : S -> grid float -> grid bool -> result S;
  _detect_break : S -> result (grid break_cell);
  _detect_extreme_outliers : S -> grid float -> grid bool -> grid bool
}.

(** The default [BaseNrt._detect_break]:
    [np.floor_divide(self.process, self.boundary).astype(np.uint8)]. *)
Definition BaseNrt_detect_break (self : BaseNrt) : result (grid Z) :=
  q ← np.map2 np.floor_divide (process self) (as_float64 (boundary self));
  Ok (np.map1 np.astype_uint8 q).

(** The floor of the exact quotient [process / boundary] of two finite
    floats, the divisor not zero: the integer the default detector reduces
    to 8 bits. *)
Definition exact_floor_quotient (p b : float) : option Z :=
  match Prim2SF p, Prim2SF b with
  | S754_zero _, S754_finite _ _ _ => Some 0
  | S754_finite sp mp ep, S754_finite sb mb eb =>
      Some (np.floor_quotient (np.signed sp mp) ep (np.signed sb mb) eb)
  | _, _ => None
  end.

(** The specification's reading of the default detector: "the truncated
    integer quotient" of the process value divided by the boundary value,
    the exact quotient rounded toward zero. *)
Definition spec_truncated_quotient (p b : float) : option Z :=
  match Prim2SF p, Prim2SF b with
  | S754_zero _, S754_finite _ _ _ => Some 0
  | S754_finite sp mp ep, S754_finite sb mb eb =>
      Some (if eb <=? ep
            then Z.quot (np.signed sp mp * 2 ^ (ep - eb)) (np.signed sb mb)
            else Z.quot (np.signed sp mp) (np.signed sb mb * 2 ^ (eb - ep)))
  | _, _ => None
  end.

(** The mantissa and exponent binary64 gives a positive integer below
    [2^53]. *)
Definition canon (m : positive) : positive * Z :=
  let d := 53 - Zpos (digits2_pos m) in
  match d with
  | Zpos p => (Pos.iter xO m p, - d)
  | _ => (m, 0)
  end.

Section base_engine.

(** [nrt.utils.build_regressors(dates, trend, harmonic_order)], defined
    outside the modules embedded here: the design matrix, one row per
    date. *)
Variable build_regressors : list Z -> bool -> Z -> grid float.

(** The inner product of the BLAS behind [np.dot]. *)
Variable inner : np.dot_kernel.

(** [BaseNrt._regressors]. *)
Definition _regressors (self : BaseNrt) (date : Z) : grid float :=
  build_regressors [date] (trend self) (harmonic_order self).

(** [BaseNrt.predict]. *)
Definition predict (self : BaseNrt) (date : Z) : result (grid float) :=
  let shape_y := np.cshape (beta self) in
  let X := _regressors self date in
  y_pred ← np.dot inner X (np.size shape_y) (np.frames (beta self));
  np.reshape (np.cells y_pred) shape_y.

(** The fallback [BaseNrt._detect_extreme_outliers]. *)
Definition default_detect_extreme_outliers
  (residuals : grid float) (is_valid : grid bool) : grid bool := is_valid.

(** [BaseNrt.monitor]. *)
Definition monitor {S} `{NrtClass S} (self : S) (array : grid float) (date : Z)
  : result S :=
  y_pred ← predict (super self) date;
  residuals ← np.map2 PrimFloat.sub array y_pred;
  is_valid ← np.map2 andb (np.map1 (Z.eqb 1) (mask (super self)))
                          (np.map1 np.isfinite array);
  let is_valid := _detect_extreme_outliers self residuals is_valid in
  self ← _update_process self residuals is_valid;
  is_break ← _detect_break self;
  confirmed ← np.map2 (fun v b => v && truth b) is_valid is_break;
  mask' ← np.where_ confirmed (np.full_like (mask (super self)) 3)
                    (mask (super self));
  Ok (with_super (set_mask mask' (super self)) self).

End base_engine.

(** ** nrt/monitor/__init__.py: the shared fitting pipeline *)

(** A call that may warn before it returns or raises: the warnings emitted,
    in order, and the outcome. *)
Record py (A : Type) := Py { warnings : list string; outcome : result A }.
Arguments Py {A} warnings outcome.
Arguments warnings {A} p.
Arguments outcome {A} p.

#[global] Instance py_ret : MRet py := fun A a => Py [] (Ok a).
#[global] Instance py_bind : MBind py :=
  fun A B f m =>
    match outcome m with
    | Ok a => Py (warnings m ++ warnings (f a)) (outcome (f a))
    | Raise e => Py (warnings m) (Raise e)
    end.

Definition raise {A} (e : exn) : py A := Py [] (Raise e).
Definition warn (msg : string) : py unit := Py [msg] (Ok tt).
Definition lift {A} (r : result A) : py A := Py [] r.

(** An [xarray.DataArray] of dimensions [(time, y, x)]; the times are
    [datetime64[ns]] values. *)
Record DataArray := mkDataArray {
  values : cube float;
  time : list Z;
  da_x : list float;
  da_y : list float
}.

(** The values a keyword argument of [_fit] may hold. *)
Inductive value :=
| VFloat (f : float)
| VInt (z : Z)
| VStr (s : string)
| VDataArray (d : DataArray).

Abbreviation kwargs_t := (gmap string value).

(** What a fit method returns: the coefficients [(R, K)], the residuals
    [(T, K)] and, for the stability-aware methods, the flags of the [K]
    fitted pixels. *)
Definition fit_out : Type := grid float * grid float.
Definition stable_fit_out : Type := grid float * grid float * list bool.

Definition ccdc_params_missing : exn :=
  ValueError "Parameters `green` and `swir` need to be passed for CCDC_RIRLS.".
Definition alpha_warning : string :=
  "Parameter `alpha` needs to be passed for ROC fit. Using alpha of 0.05.".

(** [da.values.astype(np.float32)[:, mask_bool]] of a keyword argument. *)
Definition band_flat (v : value) (mask_bool : grid bool) : result (grid float) :=
  match v with
  | VDataArray d => np.select (np.cube_map np.float32 (values d)) mask_bool
  | _ => Raise (AttributeError "object has no attribute 'values'")
  end.

(** [datetime64[ns]] to [datetime64[D]], as an integer number of days. *)
Definition to_days (t : Z) : Z := t / 86400000000000.

Section fitting.

(** The fit methods of [nrt.fit_methods], the screening methods of
    [nrt.outliers] and the critical value of [nrt.utils_efp], all defined
    outside the modules embedded here. *)
Variable shewhart : grid float -> grid float -> kwargs_t -> grid float.
Variable ccdc_rirls :
  grid float -> grid float -> grid float -> grid float -> kwargs_t -> grid float.
Variable ols : grid float -> grid float -> fit_out.
Variable rirls : grid float -> grid float -> kwargs_t -> fit_out.
Variable roc_stable_fit :
  grid float -> grid float -> list Z -> value -> float -> stable_fit_out.
Variable ccdc_stable_fit :
  grid float -> grid float -> list Z -> kwargs_t -> stable_fit_out.
Variable _cusum_rec_test_crit : value -> float.

(** Step 1 of [_fit]: the optional screening of outliers, which updates
    [y_flat] and pops the keyword arguments it consumes. *)
Definition _fit_screen (X y_flat : grid float) (mask_bool : grid bool)
  (screen_outliers : option string) (kwargs : kwargs_t)
  : py (grid float * kwargs_t) :=
  match screen_outliers with
  | None => mret (y_flat, kwargs)
  | Some name =>
      if String.eqb name "Shewhart" then
        mret (shewhart X y_flat kwargs, kwargs)
      else if String.eqb name "CCDC_RIRLS" then
        match kwargs !! "green" with
        | None => raise ccdc_params_missing
        | Some green =>
            let kwargs := delete "green" kwargs in
            green_flat ← lift (band_flat green mask_bool);
            match kwargs !! "swir" with
            | None => raise ccdc_params_missing
            | Some swir =>
                let kwargs := delete "swir" kwargs in
                swir_flat ← lift (band_flat swir mask_bool);
                mret (ccdc_rirls X y_flat green_flat swir_flat kwargs, kwargs)
            end
        end
      else if String.eqb name EmptyString then mret (y_flat, kwargs)
      else raise (ValueError "Unknown screen_outliers")
  end.

(** The two lines shared by the stability-aware methods:
    [is_stable.reshape(y.shape[1], y.shape[2])] and
    [self.mask[~is_stable_2d] = 2]. *)
Definition mark_unstable (y_shape : nat * nat) (mask : grid Z)
  (is_stable : list bool) : result (grid Z) :=
  is_stable_2d ← np.reshape is_stable y_shape;
  np.where_ (np.map1 negb is_stable_2d) (np.full_like mask 2) mask.

(** Step 2 of [_fit]: the fit with the method asked for.  It returns the
    mask, updated where a stability-aware method found the history
    unstable, and the flat coefficients and residuals.  (The message of the
    'CCDC-stable' error has its inner double quotes written as single
    ones.) *)
Definition _fit_method (trend : bool) (X y_flat : grid float)
  (dataarray : DataArray) (mask : grid Z) (method : string)
  (kwargs : kwargs_t) : py (grid Z * fit_out) :=
  if String.eqb method "ROC" then
    alpha ← match kwargs !! "alpha" with
            | Some a => mret a
            | None => _ ← warn alpha_warning; mret (VFloat 0.05%float)
            end;
    let dates := to_days <$> time dataarray in
    let crit := _cusum_rec_test_crit alpha in
    let '(beta_flat, residuals_flat, is_stable) :=
      roc_stable_fit X y_flat dates alpha crit in
    mask ← lift (mark_unstable (np.cshape (values dataarray)) mask is_stable);
    mret (mask, (beta_flat, residuals_flat))
  else if String.eqb method "CCDC-stable" then
    if negb trend then
      raise (ValueError "Method 'CCDC' requires 'trend' to be true.")
    else
      let dates := time dataarray in
      let '(beta_flat, residuals_flat, is_stable) :=
        ccdc_stable_fit X y_flat dates kwargs in
      mask ← lift (mark_unstable (np.cshape (values dataarray)) mask is_stable);
      mret (mask, (beta_flat, residuals_flat))
  else if String.eqb method "OLS" then mret (mask, ols X y_flat)
  else if String.eqb method "LASSO" then
    raise (NotImplementedError "Method not yet implemented")
  else if String.eqb method "RIRLS" then mret (mask, rirls X y_flat kwargs)
  else raise (ValueError "Unknown method").

(** [np.ones_like(y[0,:,:], dtype=np.uint8)]. *)
Definition ones_like_first (y : cube float) : result (grid Z) :=
  match np.frames y with
  | frame :: _ => Ok (np.Grid (np.cshape y) (replicate (length frame) 1))
  | [] => Raise (IndexError "index 0 is out of bounds for axis 0 with size 0")
  end.

(** [BaseNrt._fit].  [self_mask] and [trend] are the attributes of [self]
    it reads; the mask it leaves in [self.mask] is returned with the
    coefficients and the residuals.  An empty [screen_outliers] is falsy
    in Python and passes the [elif screen_outliers:] test like [None]. *)
Definition _fit (self_mask : option (grid Z)) (trend : bool)
  (X : grid float) (dataarray : DataArray) (method : string)
  (screen_outliers : option string) (kwargs : kwargs_t)
  : py (grid Z * cube float * cube float) :=
  let y := np.cube_map np.float32 (values dataarray) in
  let X := np.map1 np.float32 X in
  mask ← match self_mask with
         | Some m => mret m
         | None => lift (ones_like_first y)
         end;
  let mask_bool := np.map1 (Z.eqb 1) mask in
  let beta := np.zeros (np.shape X).2 (np.cshape y) in
  let residuals := np.zeros (length (np.frames y)) (np.cshape y) in
  y_flat ← lift (np.select y mask_bool);
  '(y_flat, kwargs) ← _fit_screen X y_flat mask_bool screen_outliers kwargs;
  '(mask, (beta_flat, residuals_flat)) ←
    _fit_method trend X y_flat dataarray mask method kwargs;
  beta ← lift (np.assign_masked beta mask_bool (np.map1 np.float32 beta_flat));
  residuals ← lift (np.assign_masked residuals mask_bool
                                     (np.map1 np.float32 residuals_flat));
  mret (mask, beta, residuals).

End fitting.

(** The method names [_fit] knows. *)
Definition known_methods : list string :=
  ["OLS"; "RIRLS"; "ROC"; "CCDC-stable"; "LASSO"].

(** The configurations the specification calls invalid. *)
Inductive invalid_config (trend : bool) (method : string)
  (screen_outliers : option string) (kwargs : kwargs_t) : Prop :=
| invalid_lasso : method = "LASSO" -> invalid_config trend method screen_outliers kwargs
| invalid_method :
    method ∉ known_methods -> invalid_config trend method screen_outliers kwargs
| invalid_screening name :
    screen_outliers = Some name -> name <> EmptyString ->
    name <> "Shewhart" -> name <> "CCDC_RIRLS" ->
    invalid_config trend method screen_outliers kwargs
| invalid_ccdc_without_trend :
    method = "CCDC-stable" -> trend = false ->
    invalid_config trend method screen_outliers kwargs
| invalid_ccdc_rirls_bands :
    screen_outliers = Some "CCDC_RIRLS" ->
    kwargs !! "green" = None \/ kwargs !! "swir" = None ->
    invalid_config trend method screen_outliers kwargs.

(** ** nrt/monitor/__init__.py: the transform of the report *)

(** [affine.Affine(a, b, c, d, e, f)]: the map from pixel [(col, row)] to
    [(a * col + b * row + c, d * col + e * row + f)]. *)
Record Affine := mkAffine {
  aff_a : float; aff_b : float; aff_c : float;
  aff_d : float; aff_e : float; aff_f : float
}.

(** [Affine.identity()]. *)
Definition Affine_identity : Affine := mkAffine 1 0 0 0 1 0.

Definition transform_warning : string :=
  "x and y coordinate arrays not set, returning identity transform".

(** The property [BaseNrt.transform].  [self_x] and [self_y] are the
    attributes [self.x] and [self.y], [None] until an instance is fitted or
    is built with coordinates. *)
Definition transform (self_x self_y : option (list float)) : py Affine :=
  match self_x, self_y with
  | Some x, Some y =>
      y0 ← lift (np.item y 0);
      y1 ← lift (np.item y 1);
      let y_res := PrimFloat.abs (y0 - y1) in
      x0 ← lift (np.item x 0);
      x1 ← lift (np.item x 1);
      let x_res := PrimFloat.abs (x0 - x1) in
      y_max ← lift (np.amax y);
      let y_0 := (y_max + y_res / 2)%float in
      x_min ← lift (np.amin x);
      let x_0 := (x_min - x_res / 2)%float in
      mret (mkAffine x_res 0 x_0 0 (- y_res) y_0)
  | _, _ => _ ← warn transform_warning; mret Affine_identity
  end.

(** ** nrt/monitor/cusum.py: the CUSUM monitor *)

(** The attributes [CuSum.__init__] adds to those of the base class. *)
Record CuSum := mkCuSum {
  base : BaseNrt;
  sensitivity : float;
  critval : float;
  sigma : grid float;
  histsize : grid Z;
  n : grid Z
}.

(** The boundary of [CuSum._update_process] in one cell:
    [np.sqrt(x * (x - 1) * (critval**2 + np.log(x / (x - 1))))] with
    [x = n / histsize]; [critval**2] is the power operator, [a_pow2]. *)
Definition cusum_boundary {T} `{Arith T} (critval : T) (n histsize : Z) : T :=
  let one := a_of_int 1 in
  let x := a_div (a_of_int n) (a_of_int histsize) in
  a_sqrt (a_mul (a_mul x (a_sub x one))
                (a_add (a_pow2 critval)
                       (a_log (a_div x (a_sub x one))))).

Section cusum.

(** [np.log] and the power function [pow] of the C library, which [**]
    calls on two floats: the primitive floats provide neither, and [pow]
    is not correctly rounded, so that [critval**2] need not be the
    rounded product [critval * critval]. *)
Variable np_log : float -> float.
Variable float_pow : float -> float -> float.

#[local] Instance Arith_float64 : Arith float := {
  a_add := PrimFloat.add; a_sub := PrimFloat.sub; a_mul := PrimFloat.mul;
  a_div := PrimFloat.div; a_sqrt := PrimFloat.sqrt; a_log := np_log;
  a_pow2 := fun v => float_pow v 2; a_of_int := np.of_int
}.

(** [CuSum._update_process]. *)
Definition CuSum_update_process
  (self : CuSum) (residuals : grid float) (is_valid : grid bool)
  : result CuSum :=
  n' ← np.map2 (fun ni (v : bool) => np.wrap16 (ni + Z.b2z v)) (n self) is_valid;
  bnd ← np.map2 (cusum_boundary (critval self)) n' (histsize self);
  boundary' ← np.where_ is_valid bnd (as_float64 (boundary (base self)));
  scale ← np.map2 (fun s h => np.mul32 s (np.sqrt32 (np.of_int h)))
                  (sigma self) (histsize self);
  residuals_norm ← np.map2 PrimFloat.div residuals scale;
  updated ← np.map2 PrimFloat.add (process (base self)) residuals_norm;
  process' ← np.where_ is_valid updated (process (base self));
  Ok (mkCuSum (set_process process'
                 (set_boundary (BoundaryF64 boundary') (base self)))
              (sensitivity self) (critval self) (sigma self)
              (histsize self) n').

(** [CuSum._detect_break]: [np.abs(self.process) > self.boundary]. *)
Definition CuSum_detect_break (self : CuSum) : result (grid bool) :=
  np.map2 np.greater (np.map1 PrimFloat.abs (process (base self)))
          (as_float64 (boundary (base self))).

#[local] Instance CuSum_class : NrtClass CuSum := {
  super := base;
  with_super := fun b self =>
    mkCuSum b (sensitivity self) (critval self) (sigma self) (histsize self)
            (n self);
  break_cell := bool;
  _update_process := CuSum_update_process;
  _detect_break := CuSum_detect_break;
  _detect_extreme_outliers := fun _ => default_detect_extreme_outliers
}.

End cusum.

Section cusum_monitor.
Variable np_log : float -> float.
Variable float_pow : float -> float -> float.
Variable build_regressors : list Z -> bool -> Z -> grid float.
Variable inner : np.dot_kernel.

(** [CuSum.monitor], inherited from [BaseNrt]. *)
Definition CuSum_monitor (self : CuSum) (array : grid float) (date : Z)
  : result CuSum :=
  @monitor build_regressors inner CuSum (CuSum_class np_log float_pow)
           self array date.

(** A sequence of monitoring steps, one acquisition after another. *)
Fixpoint CuSum_monitor_all (self : CuSum) (acquisitions : list (grid float * Z))
  : result CuSum :=
  match acquisitions with
  | [] => Ok self
  | (array, date) :: rest =>
      self' ← CuSum_monitor self array date; CuSum_monitor_all self' rest
  end.
End cusum_monitor.

(** *** The state of one pixel *)

Record pixel := Pixel {
  px_mask : Z;
  px_process : float;
  px_boundary : float;
  px_sigma : float;
  px_histsize : Z;
  px_n : Z
}.

Definition pixel_at (self : CuSum) (p : nat) : option pixel :=
  m ← mask (base self) !! p;
  pr ← process (base self) !! p;
  bd ← as_float64 (boundary (base self)) !! p;
  sg ← sigma self !! p;
  h ← histsize self !! p;
  ni ← n self !! p;
  Some (Pixel m pr bd sg h ni).

(** What one monitoring step does to one pixel, given the acquisition [obs]
    and the prediction [pred] in that pixel: the scalar kernel of the
    vectorised [monitor], to which [monitor_pixelwise] below relates it. *)
Definition CuSum_pixel_step (np_log : float -> float)
  (float_pow : float -> float -> float) (critval : float)
  (px : pixel) (obs pred : float) : pixel :=
  let residual := (obs - pred)%float in
  let is_valid := (1 =? px_mask px) && np.isfinite obs in
  let n' := np.wrap16 (px_n px + Z.b2z is_valid) in
  let boundary' :=
    if is_valid
    then cusum_boundary (H := Arith_float64 np_log float_pow) critval n'
                        (px_histsize px)
    else px_boundary px in
  let scale := np.mul32 (px_sigma px) (np.sqrt32 (np.of_int (px_histsize px))) in
  let process' :=
    if is_valid then (px_process px + residual / scale)%float
    else px_process px in
  let is_break := np.greater (PrimFloat.abs process') boundary' in
  let mask' := if is_valid && is_break then 3 else px_mask px in
  Pixel mask' process' boundary' (px_sigma px) (px_histsize px) n'.

(** *** Well-formed instances *)

Definition has_shape {A} (sh : nat * nat) (g : grid A) : Prop :=
  np.shape g = sh /\ length (np.cells g) = np.size sh.

Definition is_uint16 (z : Z) : Prop := 0 <= z < 65536.

(** The invariants of the data model: every per-pixel array has the shape
    of the mask, the coefficient cube has one frame per regressor, and the
    observation counts are [uint16]. *)
Record wf_CuSum (build_regressors : list Z -> bool -> Z -> grid float)
  (sh : nat * nat) (self : CuSum) : Prop := {
  wf_mask : has_shape sh (mask (base self));
  wf_process : has_shape sh (process (base self));
  wf_boundary : has_shape sh (as_float64 (boundary (base self)));
  wf_beta_shape : np.cshape (beta (base self)) = sh;
  wf_beta : np.wf_cube (beta (base self));
  wf_regressors : forall date,
    np.shape (_regressors build_regressors (base self) date)
    = (1%nat, length (np.frames (beta (base self))));
  wf_sigma : has_shape sh (sigma self);
  wf_histsize : has_shape sh (histsize self);
  wf_n : has_shape sh (n self);
  wf_n_uint16 : Forall is_uint16 (np.cells (n self))
}.

(** *** The boundary over the real numbers *)

(** The square of the boundary as a function of the ratio [t = n / histsize],
    and its derivative. *)
Definition G (c t : R) : R := (t * (t - 1) * (c * c + (ln t - ln (t - 1))))%R.
Definition G' (c t : R) : R :=
  ((1 * (t - 1) + t * (1 - 0)) * (c * c + (ln t - ln (t - 1)))
   + t * (t - 1) * (0 + (/ t - / (t - 1) * (1 - 0))))%R.

(** *** [CuSum.fit] *)

(** The arguments of [CuSum.__init__] that are set before the fit. *)
Record CuSum_init := mkCuSum_init {
  init_mask : option (grid Z);
  init_trend : bool;
  init_harmonic_order : Z;
  init_sensitivity : float
}.

Section cusum_fit.

Variable build_regressors : list Z -> bool -> Z -> grid float.
Variable shewhart : grid float -> grid float -> kwargs_t -> grid float.
Variable ccdc_rirls :
  grid float -> grid float -> grid float -> grid float -> kwargs_t -> grid float.
Variable ols : grid float -> grid float -> fit_out.
Variable rirls : grid float -> grid float -> kwargs_t -> fit_out.
Variable roc_stable_fit :
  grid float -> grid float -> list Z -> value -> float -> stable_fit_out.
Variable ccdc_stable_fit :
  grid float -> grid float -> list Z -> kwargs_t -> stable_fit_out.
Variable _cusum_rec_test_crit : value -> float.

(** [nrt.utils_cusum._cusum_ols_test_crit] and [np.nanstd(a, axis=0, ddof)],
    taken as given. *)
Variable _cusum_ols_test_crit : float -> float.
Variable np_nanstd : cube float -> nat -> grid float.

(** [np.count_nonzero(~np.isnan(residuals), axis=0)]. *)
Definition count_not_nan (residuals : cube float) : grid Z :=
  np.Grid (np.cshape residuals)
    (foldl (fun acc frame =>
              zip_with (fun c r => c + Z.b2z (negb (np.isnan r))) acc frame)
           (replicate (np.size (np.cshape residuals)) 0)
           (np.frames residuals)).

(** [np.nancumsum(a, axis=0)[-1]] in [float32]: NaN counts as zero and
    the frames are added one after the other. *)
Definition nan_to_zero (v : float) : float := if np.isnan v then 0%float else v.

Definition nancumsum_last (sh : nat * nat) (frames : list (list float))
  : result (grid float) :=
  match frames with
  | [] => Raise (IndexError "index -1 is out of bounds for axis 0 with size 0")
  | first :: rest =>
      Ok (np.Grid sh
            (foldl (fun acc frame =>
                      zip_with (fun a v => np.add32 a (nan_to_zero v)) acc frame)
                   (nan_to_zero <$> first) rest))
  end.

(** [CuSum.fit].  [screen_outliers] reaches [_fit] through [**kwargs]. *)
Definition CuSum_fit (self : CuSum_init) (dataarray : DataArray)
  (method : string) (alpha : value) (screen_outliers : option string)
  (kwargs : kwargs_t) : py CuSum :=
  let X := build_regressors (time dataarray) (init_trend self)
                            (init_harmonic_order self) in
  '(mask, beta, residuals) ←
    _fit shewhart ccdc_rirls ols rirls roc_stable_fit ccdc_stable_fit
         _cusum_rec_test_crit (init_mask self) (init_trend self) X dataarray
         method screen_outliers (<["alpha" := alpha]> kwargs);
  let histsize := np.map1 np.wrap16 (count_not_nan residuals) in
  let n := histsize in
  let boundary := np.full_like histsize (np.astype_uint16 nan) in
  let sigma := np_nanstd residuals (np.shape X).2 in
  scale ← lift (np.map2 (fun s h => np.mul32 s (np.sqrt32 (np.of_int h)))
                        sigma histsize);
  residuals_ ← lift (mapM (fun frame =>
                             np.cells <$> np.map2 np.div32
                               (np.Grid (np.cshape residuals) frame) scale)
                          (np.frames residuals));
  process ← lift (nancumsum_last (np.cshape residuals) residuals_);
  mret (mkCuSum
          (mkBaseNrt mask (init_trend self) (init_harmonic_order self)
                     (da_x dataarray) (da_y dataarray) beta process
                     (BoundaryU16 boundary))
          (init_sensitivity self)
          (_cusum_ols_test_crit (init_sensitivity self))
          sigma histsize n).

End cusum_fit.

(** ** A small instance

    A grid of one row and three pixels, two regression coefficients, and
    stand-ins for the functions the engine takes from other modules; the
    examples below run the code on them. *)

Module example.

(** A design matrix with an intercept and a linear trend in days. *)
Definition regressors (dates : list Z) (trend : bool) (harmonic_order : Z)
  : grid float :=
  np.Grid (length dates, 2%nat)
          (mjoin ((fun d => [1%float; np.of_Z (to_days d)]) <$> dates)).

(** A stand-in for [np.log]. *)
Definition log (v : float) : float := (v - 1)%float.

(** Stand-ins for [pow], exact at the exponent 2, and for the inner
    product of the BLAS, the products added in order and not fused. *)
Definition pow (v e : float) : float := (v * v)%float.
Definition inner : np.dot_kernel :=
  fun _ _ xrow col =>
    foldl (fun acc xb => (acc + xb.1 * xb.2)%float) 0%float (zip xrow col).

Definition sh : nat * nat := (1%nat, 3%nat).

(** A monitored pixel, a pixel out of the mask and a pixel with a confirmed
    break. *)
Definition instance : CuSum :=
  mkCuSum
    (mkBaseNrt (np.Grid sh [1; 0; 3]) true 0 [0; 1; 2]%float [0%float]
       (np.Cube sh [[1; 2; 3]; [0.5; 0.5; 0.5]]%float)
       (np.Grid sh [0.125; 0.25; 9]%float)
       (BoundaryU16 (np.Grid sh [0; 0; 0])))
    0.05%float 0.9479%float
    (np.Grid sh [0.5; 0.5; 0.5]%float)
    (np.Grid sh [10; 10; 10])
    (np.Grid sh [10; 10; 12]).

(** The same instance late in its life: the first pixel has counted 65535
    observations and has a boundary of 2.5. *)
Definition long_run : CuSum :=
  mkCuSum
    (mkBaseNrt (np.Grid sh [1; 0; 3]) true 0 [0; 1; 2]%float [0%float]
       (np.Cube sh [[1; 2; 3]; [0.5; 0.5; 0.5]]%float)
       (np.Grid sh [0.125; 0.25; 9]%float)
       (BoundaryF64 (np.Grid sh [2.5; 0; 0]%float)))
    0.05%float 0.9479%float
    (np.Grid sh [0.5; 0.5; 0.5]%float)
    (np.Grid sh [10; 10; 10])
    (np.Grid sh [65535; 10; 12]).

Definition acquisition1 : grid float := np.Grid sh [100; 2; 7]%float.
Definition acquisition2 : grid float := np.Grid sh [nan; 4; infinity]%float.

(** An instance of the base class alone, of one pixel. *)
Definition base_pixel (process boundary : float) : BaseNrt :=
  mkBaseNrt (np.Grid (1%nat, 1%nat) [1]) true 0 [] []
            (np.Cube (1%nat, 1%nat) [])
            (np.Grid (1%nat, 1%nat) [process])
            (BoundaryF64 (np.Grid (1%nat, 1%nat) [boundary])).

(** Stand-ins for the fit and screening methods: they keep the residuals
    equal to the data, give zero coefficients and call every pixel
    stable. *)
Definition zero_beta (X y_flat : grid float) : grid float :=
  np.Grid ((np.shape X).2, (np.shape y_flat).2)
          (replicate ((np.shape X).2 * (np.shape y_flat).2) 0%float).

Definition shewhart (X y_flat : grid float) (kwargs : kwargs_t) : grid float :=
  y_flat.
Definition ccdc_rirls (X y_flat green swir : grid float) (kwargs : kwargs_t)
  : grid float := y_flat.
Definition ols (X y_flat : grid float) : fit_out := (zero_beta X y_flat, y_flat).
Definition rirls (X y_flat : grid float) (kwargs : kwargs_t) : fit_out :=
  (zero_beta X y_flat, y_flat).
Definition roc_stable_fit (X y_flat : grid float) (dates : list Z)
  (alpha : value) (crit : float) : stable_fit_out :=
  (zero_beta X y_flat, y_flat, replicate (np.shape y_flat).2 true).
Definition ccdc_stable_fit (X y_flat : grid float) (dates : list Z)
  (kwargs : kwargs_t) : stable_fit_out :=
  (zero_beta X y_flat, y_flat, replicate (np.shape y_flat).2 true).
Definition rec_test_crit (alpha : value) : float := 0.9479%float.
Definition ols_test_crit (alpha : float) : float := 0.9479%float.
Definition nanstd (c : cube float) (ddof : nat) : grid float :=
  np.Grid (np.cshape c) (replicate (np.size (np.cshape c)) 1%float).

(** Three acquisitions of a grid of one row and two pixels. *)
Definition history : DataArray :=
  mkDataArray
    (np.Cube (1%nat, 2%nat) [[1; 2]; [1.5; nan]; [2; 2.5]]%float)
    [0; 86400000000000; 172800000000000] [0; 1]%float [0%float].

Definition fit (self_mask : option (grid Z)) (trend : bool) (method : string)
  (screen_outliers : option string) (kwargs : kwargs_t)
  : py (grid Z * cube float * cube float) :=
  _fit shewhart ccdc_rirls ols rirls roc_stable_fit ccdc_stable_fit
       rec_test_crit self_mask trend (regressors (time history) trend 0)
       history method screen_outliers kwargs.

Definition cusum_fit (self : CuSum_init) (method : string) (alpha : value)
  (screen_outliers : option string) (kwargs : kwargs_t) : py CuSum :=
  CuSum_fit regressors shewhart ccdc_rirls ols rirls roc_stable_fit
            ccdc_stable_fit rec_test_crit ols_test_crit nanstd self history
            method alpha screen_outliers kwargs.

(** A stand-in for [np.exp]. *)
Definition exp (v : float) : float := (1 + v)%float.

(** A third acquisition, equal to the first at the first pixel only. *)
Definition acquisition3 : grid float := np.Grid sh [100; nan; 0]%float.

(** A history with no acquisition, and a mask that excludes the second
    pixel of the history. *)
Definition empty_history : DataArray :=
  mkDataArray (np.Cube (1%nat, 2%nat) []) [] [0; 1]%float [0%float].
Definition partial_mask : grid Z := np.Grid (1%nat, 2%nat) [1; 0].

End example.

(** ** Properties of the bisquare weights *)

Section bisquare_properties.
Import stats.

Example bisquare_at_zero : bisquare [0%float] bisquare_c = [1%float].
Proof. reflexivity. Qed.

Example bisquare_at_c : bisquare [4.685%float; 5%float; (-7.25)%float] bisquare_c
                        = [0%float; 0%float; 0%float].
Proof. reflexivity. Qed.

Lemma is_finite_Prim2SF (v : float) :
  np.isfinite v = true ->
  match Prim2SF v with
  | S754_zero _ | S754_finite _ _ _ => True
  | _ => False
  end.
Proof.
  unfold np.isfinite, is_finite, is_nan, is_infinity.
  rewrite !FloatAxioms.eqb_spec, abs_spec.
  change (Prim2SF infinity) with (S754_infinity false).
  destruct (Prim2SF v) as [s|s| |s m e]; simpl; try done.
  by destruct s.
Qed.

Lemma binary_round_aux_sign (m : Z) (e : Z) (l : location) :
  match binary_round_aux prec emax false m e l with
  | S754_zero s | S754_infinity s | S754_finite s _ _ => s = false
  | S754_nan => True
  end.
Proof.
  unfold binary_round_aux.
  destruct (shr_fexp prec emax m e l) as [mrs e'].
  destruct (shr_fexp prec emax _ e' loc_Exact) as [mrs' e''].
  destruct (shr_m mrs'); try done.
  by destruct (_ <=? _).
Qed.

Lemma square_sign (t : float) :
  match Prim2SF (np.square t) with
  | S754_zero s | S754_infinity s | S754_finite s _ _ => s = false
  | S754_nan => True
  end.
Proof.
  unfold np.square. rewrite mul_spec. unfold SF64mul.
  destruct (Prim2SF t) as [s|s| |s m e]; simpl;
    [by destruct s | by destruct s | done |].
  replace (xorb s s) with false by (by destruct s).
  apply binary_round_aux_sign.
Qed.

Lemma zero_times_square (t : float) :
  np.isfinite (np.square t) = true -> (0 * np.square t)%float = 0%float.
Proof.
  intros Hf. apply Prim2SF_inj. rewrite mul_spec. unfold SF64mul.
  pose proof (is_finite_Prim2SF _ Hf) as Hc.
  pose proof (square_sign t) as Hs.
  destruct (Prim2SF (np.square t)) as [s|s| |s m e]; try done;
    rewrite Hs; reflexivity.
Qed.

Lemma SFcompare_antisym (a b : spec_float) :
  SFcompare b a = CompOpp <$> SFcompare a b.
Proof.
  destruct a as [sa|sa| |sa ma ea], b as [sb|sb| |sb mb eb]; simpl;
    try reflexivity; try (by destruct sa); try (by destruct sb);
    try (by destruct sa, sb).
  pose proof (Pos.compare_cont_antisym ma mb Eq) as Hm. simpl in Hm.
  destruct sa, sb; simpl; try reflexivity;
    rewrite (Z.compare_antisym ea eb); destruct (ea ?= eb); simpl;
    try reflexivity; f_equal.
  - f_equal. symmetry. exact Hm.
  - symmetry. exact Hm.
Qed.

Lemma leb_not_ltb (a b : float) :
  (a <=? b)%float = true -> (b <? a)%float = false.
Proof.
  rewrite FloatAxioms.leb_spec, FloatAxioms.ltb_spec. unfold SFleb, SFltb.
  rewrite (SFcompare_antisym (Prim2SF a) (Prim2SF b)).
  by destruct (SFcompare (Prim2SF a) (Prim2SF b)) as [[]|].
Qed.

(** X14: where the bisquare weight is exactly 0: at and beyond the tuning
    constant, [c <= |r|], as long as the polynomial factor
    [(1 - (r / c) ** 2) ** 2] stays finite. *)
Lemma bisquare_zero_beyond_c (r c : float) :
  (c <=? PrimFloat.abs r)%float = true ->
  np.isfinite (np.square (1 - np.square (r / c))) = true ->
  bisquare_cell c r = 0%float.
Proof.
  intros Hc Hf. unfold bisquare_cell, np.less.
  rewrite (leb_not_ltb _ _ Hc). simpl. by apply zero_times_square.
Qed.

(** C9: the bisquare weight of a residual far beyond the tuning constant.
    [(r / c) ** 2] is finite for [r = 1e100], but one minus it, squared,
    overflows to infinity, and [False * inf] is NaN: the weight is NaN where
    the comment in the code and the specification say 0. *)
Theorem bisquare_large_residual_is_nan :
  np.isfinite 1e100%float = true /\
  (bisquare_c <=? PrimFloat.abs 1e100)%float = true /\
  bisquare [1e100%float] bisquare_c = [nan] /\
  bisquare [infinity] bisquare_c = [nan].
Proof. repeat split; reflexivity. Qed.

End bisquare_properties.

(** ** Lemmas on the array operations *)

Lemma bind_Ok {X Y} (m : result X) (f : X -> result Y) (r : Y) :
  m ≫= f = Ok r <-> exists a, m = Ok a /\ f a = Ok r.
Proof.
  destruct m as [a|e]; simpl; split.
  - intros H. exists a. split; [reflexivity | exact H].
  - intros (a' & [= <-] & H). exact H.
  - discriminate.
  - intros (a' & H & _). discriminate.
Qed.

Lemma grid_lookup_cells {A} (g : grid A) (p : nat) : g !! p = np.cells g !! p.
Proof. reflexivity. Qed.

Lemma map2_Ok {A B C} (f : A -> B -> C) a b g :
  np.map2 f a b = Ok g ->
  np.shape a = np.shape b /\
  g = np.Grid (np.shape a) (zip_with f (np.cells a) (np.cells b)).
Proof.
  unfold np.map2. destruct (decide _) as [E|E]; [|discriminate].
  intros [= <-]. split; [exact E | reflexivity].
Qed.

Lemma map2_same_shape {A B C} (f : A -> B -> C) a b :
  np.shape a = np.shape b ->
  np.map2 f a b = Ok (np.Grid (np.shape a) (zip_with f (np.cells a) (np.cells b))).
Proof. intros E. unfold np.map2. rewrite decide_True by exact E. reflexivity. Qed.

Lemma map2_has_shape {A B C} (f : A -> B -> C) sh a b :
  has_shape sh a -> has_shape sh b ->
  exists g, np.map2 f a b = Ok g /\ has_shape sh g /\
            np.cells g = zip_with f (np.cells a) (np.cells b).
Proof.
  intros [Ea La] [Eb Lb]. eexists. split; [apply map2_same_shape; congruence|].
  split; [|reflexivity]. split; simpl; [exact Ea|].
  rewrite length_zip_with. lia.
Qed.

Lemma map1_has_shape {A B} (f : A -> B) sh a :
  has_shape sh a -> has_shape sh (np.map1 f a).
Proof. intros [E L]. split; simpl; [exact E | by rewrite length_fmap]. Qed.

Lemma full_like_has_shape {A B} sh (a : grid A) (v : B) :
  has_shape sh a -> has_shape sh (np.full_like a v).
Proof. intros [E L]. split; simpl; [exact E | by rewrite length_replicate]. Qed.

Lemma where_has_shape {A} sh (c : grid bool) (a b : grid A) :
  has_shape sh c -> has_shape sh a -> has_shape sh b ->
  exists g, np.where_ c a b = Ok g /\ has_shape sh g /\
    forall (p : nat) (ci : bool) (x y : A), c !! p = Some ci -> a !! p = Some x -> b !! p = Some y ->
                     g !! p = Some (if ci then x else y).
Proof.
  intros Hc Ha Hb. unfold np.where_.
  destruct (map2_has_shape pair sh a b Ha Hb) as (ab & -> & Hab & Eab). simpl.
  destruct (map2_has_shape (fun (ci : bool) (xy : A * A) => if ci then xy.1 else xy.2)
              sh c ab Hc Hab) as (g & -> & Hg & Eg).
  exists g. split; [reflexivity|]. split; [exact Hg|].
  intros p ci x y Hp Hx Hy. unfold lookup, grid_lookup in *.
  rewrite Eg, Eab, !lookup_zip_with, Hx, Hy. simpl. rewrite Hp. reflexivity.
Qed.

Lemma chunks_length {A} (m k : nat) (l : list A) : length (np.chunks m k l) = m.
Proof. revert l. induction m as [|m IH]; intros l; simpl; [reflexivity | by rewrite IH]. Qed.

Lemma join_const_length {A} (p : nat) (ls : list (list A)) :
  Forall (fun l => length l = p) ls -> length (mjoin ls) = (length ls * p)%nat.
Proof.
  induction 1 as [|l ls Hl Hls IH]; simpl; [reflexivity|].
  rewrite length_app, IH, Hl. reflexivity.
Qed.

Lemma dot_has_shape inner (X : grid float) m p b :
  np.shape X = (m, length b) ->
  exists g, np.dot inner X p b = Ok g /\ has_shape (m, p) g.
Proof.
  intros EX. unfold np.dot. rewrite EX. simpl.
  rewrite decide_True by reflexivity. eexists. split; [reflexivity|].
  split; [reflexivity|]. simpl. unfold np.size. simpl.
  rewrite (join_const_length p).
  - by rewrite length_imap, chunks_length.
  - apply Forall_lookup. intros i row Hrow.
    rewrite list_lookup_imap in Hrow.
    destruct (np.chunks m (length b) (np.cells X) !! i); [|discriminate].
    injection Hrow as <-. by rewrite length_fmap, length_seq.
Qed.

Lemma cells_zip_lookup {A B C} (f : A -> B -> C) (g : grid C) (a : grid A) (b : grid B)
  (p : nat) (x : A) (y : B) :
  np.cells g = zip_with f (np.cells a) (np.cells b) ->
  a !! p = Some x -> b !! p = Some y -> g !! p = Some (f x y).
Proof.
  intros E Ha Hb. unfold lookup, grid_lookup in *.
  rewrite E, lookup_zip_with, Ha. simpl. rewrite Hb. reflexivity.
Qed.

Lemma map1_lookup {A B} (f : A -> B) (a : grid A) (p : nat) (x : A) :
  a !! p = Some x -> np.map1 f a !! p = Some (f x).
Proof.
  intros Ha. unfold lookup, grid_lookup in *. simpl.
  rewrite list_lookup_fmap, Ha. reflexivity.
Qed.

Lemma full_like_lookup {A B} (a : grid A) (v : B) (p : nat) (x : A) :
  a !! p = Some x -> np.full_like a v !! p = Some v.
Proof.
  intros Ha. unfold lookup, grid_lookup in *. simpl.
  apply lookup_replicate. split; [reflexivity|]. by eapply lookup_lt_Some.
Qed.

(** ** One monitoring step, pixel by pixel *)

Section monitor_proofs.
Variable np_log : float -> float.
Variable float_pow : float -> float -> float.
Variable build_regressors : list Z -> bool -> Z -> grid float.
Variable inner : np.dot_kernel.

Abbreviation wf := (wf_CuSum build_regressors).
Abbreviation CuSum_monitor :=
  (CuSum_monitor np_log float_pow build_regressors inner).
Abbreviation predict := (predict build_regressors inner).
Abbreviation pixel_step := (CuSum_pixel_step np_log float_pow).

Lemma predict_Ok sh self date :
  wf sh self ->
  exists y_pred, predict (base self) date = Ok y_pred /\
                 has_shape sh y_pred.
Proof.
  intros W. unfold predict.
  destruct (dot_has_shape inner (_regressors build_regressors (base self) date) 1
              (np.size (np.cshape (beta (base self)))) (np.frames (beta (base self))))
    as (g & -> & Hs & Hl).
  - apply (wf_regressors _ _ _ W).
  - simpl. unfold np.reshape.
    assert (El : length (np.cells g) = np.size (np.cshape (beta (base self)))).
    { rewrite Hl. unfold np.size. simpl. lia. }
    rewrite decide_True by exact El.
    eexists. split; [reflexivity|]. rewrite <- (wf_beta_shape _ _ _ W).
    split; simpl; [reflexivity | exact El].
Qed.

Lemma monitor_pixelwise sh self array date :
  wf sh self -> has_shape sh array ->
  exists y_pred self',
    predict (base self) date = Ok y_pred /\
    has_shape sh y_pred /\
    CuSum_monitor self array date = Ok self' /\
    wf sh self' /\
    (beta (base self') = beta (base self) /\ sigma self' = sigma self /\
     histsize self' = histsize self /\ critval self' = critval self) /\
    forall (p : nat) px (obs pred : float),
      pixel_at self p = Some px -> array !! p = Some obs ->
      y_pred !! p = Some pred ->
      pixel_at self' p
      = Some (pixel_step (critval self) px obs pred).
Proof.
  intros W Harr.
  destruct (predict_Ok sh self date W) as (y_pred & Hpred & Hy).
  exists y_pred. unfold CuSum_monitor, monitor.
  cbn [super with_super _update_process _detect_break _detect_extreme_outliers
       break_cell break_truthy CuSum_class].
  rewrite Hpred. cbn [mbind result_bind].
  destruct (map2_has_shape PrimFloat.sub sh array y_pred Harr Hy)
    as (res & -> & Hres & Eres). cbn [mbind result_bind].
  destruct (map2_has_shape andb sh (np.map1 (Z.eqb 1) (mask (base self)))
              (np.map1 np.isfinite array)) as (valid & -> & Hvalid & Evalid).
  { apply map1_has_shape, W. } { by apply map1_has_shape. }
  cbn [mbind result_bind]. unfold default_detect_extreme_outliers, CuSum_update_process.
  destruct (map2_has_shape (fun ni (v : bool) => np.wrap16 (ni + Z.b2z v)) sh
              (n self) valid) as (n' & -> & Hn' & En'); [apply W | exact Hvalid |].
  cbn [mbind result_bind].
  destruct (map2_has_shape (cusum_boundary (H := Arith_float64 np_log float_pow) (critval self))
              sh n' (histsize self)) as (bnd & -> & Hbnd & Ebnd);
    [exact Hn' | apply W |].
  cbn [mbind result_bind].
  destruct (where_has_shape sh valid bnd (as_float64 (boundary (base self))))
    as (boundary' & -> & Hboundary' & Eboundary'); [exact Hvalid | exact Hbnd | apply W |].
  cbn [mbind result_bind].
  destruct (map2_has_shape (fun s h => np.mul32 s (np.sqrt32 (np.of_int h))) sh
              (sigma self) (histsize self)) as (scale & -> & Hscale & Escale);
    [apply W | apply W |].
  cbn [mbind result_bind].
  destruct (map2_has_shape PrimFloat.div sh res scale) as (rn & -> & Hrn & Ern);
    [exact Hres | exact Hscale |].
  cbn [mbind result_bind].
  destruct (map2_has_shape PrimFloat.add sh (process (base self)) rn)
    as (upd & -> & Hupd & Eupd); [apply W | exact Hrn |].
  cbn [mbind result_bind].
  destruct (where_has_shape sh valid upd (process (base self)))
    as (process' & -> & Hprocess' & Eprocess'); [exact Hvalid | exact Hupd | apply W |].
  cbn [mbind result_bind]. unfold CuSum_detect_break.
  cbn [base set_process set_boundary process boundary as_float64 mask].
  destruct (map2_has_shape np.greater sh (np.map1 PrimFloat.abs process') boundary')
    as (brk & -> & Hbrk & Ebrk); [by apply map1_has_shape | exact Hboundary' |].
  cbn [mbind result_bind].
  destruct (map2_has_shape (fun v b : bool => v && truth b) sh valid brk)
    as (conf & -> & Hconf & Econf); [exact Hvalid | exact Hbrk |].
  cbn [mbind result_bind].
  destruct (where_has_shape sh conf (np.full_like (mask (base self)) 3)
              (mask (base self)))
    as (mask' & -> & Hmask' & Emask');
    [exact Hconf | apply full_like_has_shape, W | apply W |].
  cbn [mbind result_bind].
  eexists. split; [reflexivity|]. split; [exact Hy|]. split; [reflexivity|].
  split; [|split; [by repeat split|]].
  - destruct W. constructor; simpl; try assumption.
    rewrite En'. apply Forall_forall. intros z Hz.
    apply list_elem_of_lookup in Hz as [i Hi].
    apply lookup_zip_with_Some in Hi as (ni & v & -> & _ & _).
    unfold is_uint16, np.wrap16. apply Z.mod_pos_bound. lia.
  - intros p px obs pred Hpx Hobs Hp. unfold pixel_at in Hpx.
    destruct (mask (base self) !! p) as [m|] eqn:Hm; [|discriminate].
    destruct (process (base self) !! p) as [pr|] eqn:Hpr; [|discriminate].
    destruct (as_float64 (boundary (base self)) !! p) as [bd|] eqn:Hbd; [|discriminate].
    destruct (sigma self !! p) as [sg|] eqn:Hsg; [|discriminate].
    destruct (histsize self !! p) as [h|] eqn:Hh; [|discriminate].
    destruct (n self !! p) as [ni|] eqn:Hni; [|discriminate].
    simpl in Hpx. injection Hpx as <-.
    pose proof (cells_zip_lookup _ _ _ _ _ _ _ Eres Hobs Hp) as Lres.
    pose proof (cells_zip_lookup _ _ _ _ _ _ _ Evalid
                  (map1_lookup (Z.eqb 1) _ _ _ Hm)
                  (map1_lookup np.isfinite _ _ _ Hobs)) as Lvalid.
    pose proof (cells_zip_lookup _ _ _ _ _ _ _ En' Hni Lvalid) as Ln'.
    pose proof (cells_zip_lookup _ _ _ _ _ _ _ Ebnd Ln' Hh) as Lbnd.
    pose proof (Eboundary' _ _ _ _ Lvalid Lbnd Hbd) as Lboundary'.
    pose proof (cells_zip_lookup _ _ _ _ _ _ _ Escale Hsg Hh) as Lscale.
    pose proof (cells_zip_lookup _ _ _ _ _ _ _ Ern Lres Lscale) as Lrn.
    pose proof (cells_zip_lookup _ _ _ _ _ _ _ Eupd Hpr Lrn) as Lupd.
    pose proof (Eprocess' _ _ _ _ Lvalid Lupd Hpr) as Lprocess'.
    pose proof (cells_zip_lookup _ _ _ _ _ _ _ Ebrk
                  (map1_lookup PrimFloat.abs _ _ _ Lprocess') Lboundary') as Lbrk.
    pose proof (cells_zip_lookup _ _ _ _ _ _ _ Econf Lvalid Lbrk) as Lconf.
    pose proof (Emask' _ _ _ _ Lconf (full_like_lookup _ 3 _ _ Hm) Hm) as Lmask'.
    unfold pixel_at. simpl.
    rewrite Lmask', Lprocess', Lboundary', Hsg, Hh, Ln'. reflexivity.
Qed.

Lemma has_shape_lookup {A} sh (g : grid A) (p : nat) :
  has_shape sh g -> (p < np.size sh)%nat -> is_Some (g !! p).
Proof.
  intros [_ L] Hp. unfold lookup, grid_lookup. apply lookup_lt_is_Some. lia.
Qed.

Lemma has_shape_lookup_lt {A} sh (g : grid A) (p : nat) (v : A) :
  has_shape sh g -> g !! p = Some v -> (p < np.size sh)%nat.
Proof.
  intros [_ L] Hp. unfold lookup, grid_lookup in Hp.
  apply lookup_lt_Some in Hp. lia.
Qed.

Lemma pixel_at_is_Some sh self (p : nat) :
  wf sh self -> (p < np.size sh)%nat -> is_Some (pixel_at self p).
Proof.
  intros W Hp. unfold pixel_at.
  destruct (has_shape_lookup sh _ p (wf_mask _ _ _ W) Hp) as [? ->].
  destruct (has_shape_lookup sh _ p (wf_process _ _ _ W) Hp) as [? ->].
  destruct (has_shape_lookup sh _ p (wf_boundary _ _ _ W) Hp) as [? ->].
  destruct (has_shape_lookup sh _ p (wf_sigma _ _ _ W) Hp) as [? ->].
  destruct (has_shape_lookup sh _ p (wf_histsize _ _ _ W) Hp) as [? ->].
  destruct (has_shape_lookup sh _ p (wf_n _ _ _ W) Hp) as [? ->].
  simpl. eauto.
Qed.

Lemma pixel_at_fields self (p : nat) px :
  pixel_at self p = Some px ->
  mask (base self) !! p = Some (px_mask px) /\
  process (base self) !! p = Some (px_process px) /\
  as_float64 (boundary (base self)) !! p = Some (px_boundary px) /\
  sigma self !! p = Some (px_sigma px) /\
  histsize self !! p = Some (px_histsize px) /\
  n self !! p = Some (px_n px).
Proof.
  unfold pixel_at.
  destruct (mask (base self) !! p); [|discriminate].
  destruct (process (base self) !! p); [|discriminate].
  destruct (as_float64 (boundary (base self)) !! p); [|discriminate].
  destruct (sigma self !! p); [|discriminate].
  destruct (histsize self !! p); [|discriminate].
  destruct (n self !! p); [|discriminate].
  simpl. intros [= <-]. simpl. by repeat split.
Qed.

Lemma wf_n_lookup sh self (p : nat) ni :
  wf sh self -> n self !! p = Some ni -> is_uint16 ni.
Proof.
  intros W Hn. pose proof (wf_n_uint16 _ _ _ W) as HF.
  rewrite Forall_forall in HF. apply HF.
  apply list_elem_of_lookup. exists p. exact Hn.
Qed.

Lemma wrap16_id z : is_uint16 z -> np.wrap16 (z + 0) = z.
Proof. intros Hz. unfold np.wrap16. rewrite Z.add_0_r. apply Z.mod_small, Hz. Qed.

(** A pixel that is not valid keeps its state through a step. *)
Lemma CuSum_pixel_step_invalid cv px obs pred :
  is_uint16 (px_n px) ->
  (1 =? px_mask px) && np.isfinite obs = false ->
  pixel_step cv px obs pred = px.
Proof.
  intros Hn Hv. unfold CuSum_pixel_step. rewrite Hv. simpl.
  rewrite wrap16_id by exact Hn. by destruct px.
Qed.

Lemma ltb_compare (a b : float) :
  (a <? b)%float = true <-> (a ?= b)%float = FLt.
Proof.
  rewrite FloatAxioms.ltb_spec, FloatAxioms.compare_spec. unfold SFltb.
  destruct (SFcompare (Prim2SF a) (Prim2SF b)) as [[]|]; simpl;
    split; congruence.
Qed.

(** C6: in a monitoring step of the CuSum monitor the process update
    changes [process], [boundary] and the observation count [n] only at
    valid pixels (mask code 1 and a finite new observation); at every
    other pixel the three arrays keep the value they had. *)
Theorem update_process_frame sh self array date :
  wf sh self -> has_shape sh array ->
  exists self',
    CuSum_monitor self array date = Ok self' /\
    forall (p : nat) (m : Z) (obs : float),
      mask (base self) !! p = Some m -> array !! p = Some obs ->
      m <> 1 \/ np.isfinite obs = false ->
      process (base self') !! p = process (base self) !! p /\
      as_float64 (boundary (base self')) !! p
      = as_float64 (boundary (base self)) !! p /\
      n self' !! p = n self !! p.
Proof.
  intros W Harr.
  destruct (monitor_pixelwise sh self array date W Harr)
    as (y_pred & self' & _ & Hy & Hmon & _ & _ & Hpix).
  exists self'. split; [exact Hmon|].
  intros p m obs Hm Hobs Hinv.
  pose proof (has_shape_lookup_lt sh _ p m (wf_mask _ _ _ W) Hm) as Hp.
  destruct (pixel_at_is_Some sh self p W Hp) as [px Hpx].
  destruct (has_shape_lookup sh y_pred p Hy Hp) as [pred Hpred].
  pose proof (Hpix p px obs pred Hpx Hobs Hpred) as Hpx'.
  destruct (pixel_at_fields _ _ _ Hpx) as (Fm & Fpr & Fbd & _ & _ & Fn).
  rewrite CuSum_pixel_step_invalid in Hpx'.
  - destruct (pixel_at_fields _ _ _ Hpx') as (_ & Fpr' & Fbd' & _ & _ & Fn').
    rewrite Fpr, Fbd, Fn. auto.
  - eapply wf_n_lookup; eassumption.
  - rewrite Fm in Hm. injection Hm as ->.
    destruct Hinv as [Hne | ->]; [|apply andb_false_r].
    apply andb_false_intro1, Z.eqb_neq. congruence.
Qed.

(** C1: in every monitoring step of the CuSum monitor the break detector
    flags a pixel exactly when the absolute value of its process statistic
    is strictly above its boundary, [|process| > boundary] in IEEE
    arithmetic (so never when either is NaN).  The step returns, every
    pixel of the grid has a process value, a boundary value and a flag
    after it, the flag is that comparison, and a valid pixel so flagged,
    and no other, gets mask code 3.  The detector reads the process and
    the boundary only, which the mask update that ends the step leaves as
    they are: its output on the instance the step returns is its output
    within the step. *)
Theorem break_iff_process_exceeds_boundary sh self array date :
  wf sh self -> has_shape sh array ->
  exists self' is_break,
    CuSum_monitor self array date = Ok self' /\
    CuSum_detect_break self' = Ok is_break /\
    has_shape sh is_break /\
    forall (p : nat), (p < np.size sh)%nat ->
      exists (m : Z) (obs pr bd : float),
        mask (base self) !! p = Some m /\ array !! p = Some obs /\
        process (base self') !! p = Some pr /\
        as_float64 (boundary (base self')) !! p = Some bd /\
        is_break !! p = Some (np.greater (PrimFloat.abs pr) bd) /\
        (np.greater (PrimFloat.abs pr) bd = true
         <-> (bd ?= PrimFloat.abs pr)%float = FLt) /\
        mask (base self') !! p
        = Some (if (1 =? m) && np.isfinite obs
                   && np.greater (PrimFloat.abs pr) bd
                then 3 else m).
Proof.
  intros W Harr.
  destruct (monitor_pixelwise sh self array date W Harr)
    as (y_pred & self' & _ & Hy & Hmon & W' & _ & Hpix).
  destruct (map2_has_shape np.greater sh
              (np.map1 PrimFloat.abs (process (base self')))
              (as_float64 (boundary (base self'))))
    as (is_break & Hbrk & Sbrk & Ebrk).
  { apply map1_has_shape, W'. } { apply W'. }
  exists self', is_break. split; [exact Hmon|]. split; [exact Hbrk|].
  split; [exact Sbrk|].
  intros p Hp.
  destruct (pixel_at_is_Some sh self p W Hp) as [px Hpx].
  destruct (has_shape_lookup sh y_pred p Hy Hp) as [pred Hpred].
  destruct (has_shape_lookup sh array p Harr Hp) as [obs Hobs].
  pose proof (Hpix p px obs pred Hpx Hobs Hpred) as Hpx'.
  destruct (pixel_at_fields _ _ _ Hpx) as (Fm & _).
  destruct (pixel_at_fields _ _ _ Hpx') as (Fm' & Fpr' & Fbd' & _).
  exists (px_mask px), obs, (px_process (pixel_step (critval self) px obs pred)),
    (px_boundary (pixel_step (critval self) px obs pred)).
  split; [exact Fm|]. split; [exact Hobs|]. split; [exact Fpr'|].
  split; [exact Fbd'|]. split; [|split; [apply ltb_compare|]].
  - exact (cells_zip_lookup _ _ _ _ _ _ _ Ebrk
             (map1_lookup PrimFloat.abs _ _ _ Fpr') Fbd').
  - rewrite Fm'. reflexivity.
Qed.

(** C2: a pixel whose mask code is 3 (confirmed break) keeps mask code 3
    and its whole per-pixel state through every further call of [monitor],
    whatever the observation grids and the dates. *)
Theorem confirmed_break_is_terminal sh acquisitions : forall self (p : nat),
  wf sh self ->
  Forall (fun a : grid float * Z => has_shape sh a.1) acquisitions ->
  mask (base self) !! p = Some 3 ->
  exists self',
    CuSum_monitor_all np_log float_pow build_regressors inner self acquisitions
    = Ok self' /\
    mask (base self') !! p = Some 3 /\
    pixel_at self' p = pixel_at self p /\
    beta (base self') = beta (base self).
Proof.
  induction acquisitions as [|[array date] rest IH]; intros self p W Hacq Hm.
  - exists self. simpl. auto.
  - apply Forall_cons in Hacq as [Harr Hrest]. simpl in Harr.
    destruct (monitor_pixelwise sh self array date W Harr)
      as (y_pred & self1 & _ & Hy & Hmon & W1 & (Ebeta & _) & Hpix).
    pose proof (has_shape_lookup_lt sh _ p 3 (wf_mask _ _ _ W) Hm) as Hp.
    destruct (pixel_at_is_Some sh self p W Hp) as [px Hpx].
    destruct (has_shape_lookup sh y_pred p Hy Hp) as [pred Hpred].
    destruct (has_shape_lookup sh array p Harr Hp) as [obs Hobs].
    pose proof (Hpix p px obs pred Hpx Hobs Hpred) as Hpx1.
    destruct (pixel_at_fields _ _ _ Hpx) as (Fm & _ & _ & _ & _ & Fn).
    rewrite Hm in Fm. injection Fm as Fm.
    assert (Hstep : pixel_step (critval self) px obs pred = px).
    { apply CuSum_pixel_step_invalid; [exact (wf_n_lookup sh self p _ W Fn)|].
      rewrite <- Fm. reflexivity. }
    rewrite Hstep in Hpx1.
    destruct (pixel_at_fields _ _ _ Hpx1) as (Fm1 & _).
    rewrite <- Fm in Fm1.
    destruct (IH self1 p W1 Hrest Fm1) as (self' & Hall & Hm' & Hpx' & Hbeta').
    exists self'. simpl.
    change (monitor build_regressors inner self array date)
      with (CuSum_monitor self array date).
    rewrite Hmon. simpl. split; [exact Hall|]. split; [exact Hm'|].
    split; congruence.
Qed.

End monitor_proofs.
(** ** The boundary when the count of observations wraps *)

Lemma zero_or_nan_mul (a b : float) :
  match Prim2SF a with S754_zero _ | S754_nan => True | _ => False end ->
  match Prim2SF (a * b) with S754_zero _ | S754_nan => True | _ => False end.
Proof.
  rewrite mul_spec. unfold SF64mul.
  destruct (Prim2SF a) as [sa|sa| |sa ma ea]; try done;
    by destruct (Prim2SF b) as [sb|sb| |sb mb eb].
Qed.

Lemma zero_or_nan_sqrt (a : float) :
  match Prim2SF a with S754_zero _ | S754_nan => True | _ => False end ->
  match Prim2SF (PrimFloat.sqrt a) with
  | S754_zero _ | S754_nan => True
  | _ => False
  end.
Proof.
  rewrite sqrt_spec. unfold SF64sqrt.
  by destruct (Prim2SF a) as [sa|sa| |sa ma ea].
Qed.

Lemma zero_over (v : float) :
  match Prim2SF (np.of_int 0 / v) with
  | S754_zero _ | S754_nan => True
  | _ => False
  end.
Proof.
  rewrite div_spec. unfold SF64div.
  change (Prim2SF (np.of_int 0)) with (S754_zero false).
  by destruct (Prim2SF v) as [sv|sv| |sv mv ev].
Qed.

Lemma zero_or_nan_pred (a : float) :
  match Prim2SF a with S754_zero _ | S754_nan => True | _ => False end ->
  match Prim2SF (a * (a - np.of_int 1)) with
  | S754_zero _ | S754_nan => True
  | _ => False
  end.
Proof. apply zero_or_nan_mul. Qed.

(** At a count of zero the boundary is a zero or NaN, whatever the
    critical value, the history size, [np.log] and [pow]. *)
Lemma cusum_boundary_at_zero np_log float_pow (critval : float) (h : Z) :
  match Prim2SF (cusum_boundary (H := Arith_float64 np_log float_pow)
                   critval 0 h) with
  | S754_zero _ | S754_nan => True
  | _ => False
  end.
Proof.
  unfold cusum_boundary. cbn [a_sqrt a_mul a_sub a_div a_add a_log a_pow2 a_of_int
                               Arith_float64].
  apply zero_or_nan_sqrt, zero_or_nan_mul, zero_or_nan_pred, zero_over.
Qed.

Lemma not_above_zero_or_nan (a b : float) :
  match Prim2SF b with S754_zero _ | S754_nan => True | _ => False end ->
  (0 <? b)%float = false /\ ((0 <? a)%float = true -> (a <=? b)%float = false).
Proof.
  rewrite !FloatAxioms.ltb_spec, FloatAxioms.leb_spec.
  change (Prim2SF 0) with (S754_zero false).
  destruct (Prim2SF b) as [sb|sb| |sb mb eb]; try done; intros _.
  - split; [reflexivity|].
    destruct (Prim2SF a) as [sa|sa| |sa ma ea]; try done; by destruct sa.
  - split; [reflexivity|]. by destruct (Prim2SF a) as [sa|[]| |[] ma ea].
Qed.

Section counter_wrap.
Variable np_log : float -> float.
Variable float_pow : float -> float -> float.
Variable build_regressors : list Z -> bool -> Z -> grid float.
Variable inner : np.dot_kernel.

Abbreviation wf := (wf_CuSum build_regressors).
Abbreviation CuSum_monitor :=
  (CuSum_monitor np_log float_pow build_regressors inner).


End counter_wrap.
(** ** The shared fitting pipeline *)

Lemma py_bind_Ok {A B} (m : py A) (f : A -> py B) (b : B) :
  outcome (m ≫= f) = Ok b <->
  exists a, outcome m = Ok a /\ outcome (f a) = Ok b.
Proof.
  unfold mbind, py_bind. destruct (outcome m) as [a|e]; simpl; split.
  - intros H. exists a. auto.
  - intros (a' & [= <-] & H). exact H.
  - discriminate.
  - intros (a' & H & _). discriminate.
Qed.

Lemma py_bind_Raise_l {A B} (m : py A) (f : A -> py B) e :
  outcome m = Raise e -> outcome (m ≫= f) = Raise e.
Proof. intros H. unfold mbind, py_bind. rewrite H. reflexivity. Qed.

Lemma py_bind_outcome {A B} (m : py A) (f : A -> py B) a :
  outcome m = Ok a -> outcome (m ≫= f) = outcome (f a).
Proof. intros H. unfold mbind, py_bind. rewrite H. reflexivity. Qed.

Lemma py_bind_warnings {A B} (m : py A) (f : A -> py B) a :
  outcome m = Ok a -> warnings (m ≫= f) = warnings m ++ warnings (f a).
Proof. intros H. unfold mbind, py_bind. rewrite H. reflexivity. Qed.

Lemma py_ret_bind {A B} (a : A) (f : A -> py B) : Py [] (Ok a) ≫= f = f a.
Proof. unfold mbind, py_bind. simpl. by destruct (f a). Qed.

Lemma py_bind_warnings_Raise {A B} (m : py A) (f : A -> py B) e :
  outcome m = Raise e -> warnings (m ≫= f) = warnings m.
Proof. intros H. unfold mbind, py_bind. rewrite H. reflexivity. Qed.

Lemma py_bind_raises_l {A B} (m : py A) (f : A -> py B) :
  (exists e, outcome m = Raise e) -> exists e, outcome (m ≫= f) = Raise e.
Proof. intros [e H]. exists e. by apply py_bind_Raise_l. Qed.

(** Either a call raises, or all of what follows it decides the outcome. *)
Lemma py_bind_raises {A B} (m : py A) (f : A -> py B) :
  (forall a, exists e, outcome (f a) = Raise e) ->
  exists e, outcome (m ≫= f) = Raise e.
Proof.
  intros Hf. unfold mbind, py_bind. destruct (outcome m) as [a|e]; simpl.
  - apply Hf.
  - eauto.
Qed.

Lemma py_bind_outcome_ext {A B} (m : py A) (f g : A -> py B) :
  (forall a, outcome (f a) = outcome (g a)) ->
  outcome (m ≫= f) = outcome (m ≫= g).
Proof.
  intros H. unfold mbind, py_bind. destruct (outcome m); simpl; auto.
Qed.

Lemma py_bind_outcome_l {A B} (m1 m2 : py A) (f : A -> py B) :
  outcome m1 = outcome m2 -> outcome (m1 ≫= f) = outcome (m2 ≫= f).
Proof. intros H. unfold mbind, py_bind. rewrite H. by destruct (outcome m2). Qed.

Section fit_proofs.

Variable shewhart : grid float -> grid float -> kwargs_t -> grid float.
Variable ccdc_rirls :
  grid float -> grid float -> grid float -> grid float -> kwargs_t -> grid float.
Variable ols : grid float -> grid float -> fit_out.
Variable rirls : grid float -> grid float -> kwargs_t -> fit_out.
Variable roc_stable_fit :
  grid float -> grid float -> list Z -> value -> float -> stable_fit_out.
Variable ccdc_stable_fit :
  grid float -> grid float -> list Z -> kwargs_t -> stable_fit_out.
Variable _cusum_rec_test_crit : value -> float.

Abbreviation fit_screen := (_fit_screen shewhart ccdc_rirls).
Abbreviation fit_method :=
  (_fit_method ols rirls roc_stable_fit ccdc_stable_fit _cusum_rec_test_crit).
Abbreviation fit :=
  (_fit shewhart ccdc_rirls ols rirls roc_stable_fit ccdc_stable_fit
        _cusum_rec_test_crit).

Lemma eqb_neq_false (s t : string) : s <> t -> String.eqb s t = false.
Proof. intros H. by apply String.eqb_neq. Qed.

Lemma fit_screen_unknown X y_flat mask_bool name kwargs :
  name <> EmptyString -> name <> "Shewhart" -> name <> "CCDC_RIRLS" ->
  fit_screen X y_flat mask_bool (Some name) kwargs
  = raise (ValueError "Unknown screen_outliers").
Proof.
  intros H0 H1 H2. unfold _fit_screen.
  by rewrite !eqb_neq_false.
Qed.

Lemma fit_screen_empty X y_flat mask_bool kwargs :
  fit_screen X y_flat mask_bool (Some EmptyString) kwargs = mret (y_flat, kwargs).
Proof. reflexivity. Qed.

Lemma fit_screen_ccdc_missing X y_flat mask_bool kwargs :
  kwargs !! "green" = None \/ kwargs !! "swir" = None ->
  exists e, outcome (fit_screen X y_flat mask_bool (Some "CCDC_RIRLS") kwargs)
            = Raise e.
Proof.
  intros H. unfold _fit_screen. simpl.
  destruct (kwargs !! "green") as [green|] eqn:Eg; [|by eexists].
  destruct H as [H|H]; [discriminate|].
  apply py_bind_raises. intros green_flat.
  rewrite lookup_delete_ne by discriminate. rewrite H. by eexists.
Qed.

Lemma fit_method_lasso trend X y_flat da mask kwargs :
  fit_method trend X y_flat da mask "LASSO" kwargs
  = raise (NotImplementedError "Method not yet implemented").
Proof. reflexivity. Qed.

Lemma fit_method_unknown trend X y_flat da mask method kwargs :
  method ∉ known_methods ->
  fit_method trend X y_flat da mask method kwargs
  = raise (ValueError "Unknown method").
Proof.
  intros H. unfold known_methods in H.
  rewrite !not_elem_of_cons in H. destruct H as (H1 & H2 & H3 & H4 & H5 & _).
  unfold _fit_method. by rewrite !eqb_neq_false.
Qed.

Lemma fit_method_ccdc_without_trend X y_flat da mask kwargs :
  fit_method false X y_flat da mask "CCDC-stable" kwargs
  = raise (ValueError "Method 'CCDC' requires 'trend' to be true.").
Proof. reflexivity. Qed.

Lemma fit_screen_ccdc_no_green X y_flat mask_bool kwargs :
  kwargs !! "green" = None ->
  fit_screen X y_flat mask_bool (Some "CCDC_RIRLS") kwargs
  = raise ccdc_params_missing.
Proof. intros H. unfold _fit_screen. simpl. by rewrite H. Qed.

Lemma fit_screen_ccdc_no_swir X y_flat mask_bool kwargs green green_flat :
  kwargs !! "green" = Some green -> band_flat green mask_bool = Ok green_flat ->
  kwargs !! "swir" = None ->
  outcome (fit_screen X y_flat mask_bool (Some "CCDC_RIRLS") kwargs)
  = Raise ccdc_params_missing.
Proof.
  intros Hg Hb Hs. unfold _fit_screen. simpl. rewrite Hg.
  rewrite (py_bind_outcome _ _ green_flat) by exact Hb.
  rewrite lookup_delete_ne by discriminate. by rewrite Hs.
Qed.

Lemma fit_method_invalid trend X y_flat da mask method kwargs :
  method = "LASSO" \/ method ∉ known_methods \/
  (method = "CCDC-stable" /\ trend = false) ->
  exists e, outcome (fit_method trend X y_flat da mask method kwargs) = Raise e.
Proof.
  intros [-> | [H | [-> ->]]].
  - rewrite fit_method_lasso. by eexists.
  - rewrite fit_method_unknown by exact H. by eexists.
  - rewrite fit_method_ccdc_without_trend. by eexists.
Qed.

Lemma fit_raises_of_method self_mask trend X da method screen_outliers kwargs :
  (forall X y_flat mask kwargs,
      exists e, outcome (fit_method trend X y_flat da mask method kwargs) = Raise e) ->
  exists e, outcome (fit self_mask trend X da method screen_outliers kwargs)
            = Raise e.
Proof.
  intros Hm. unfold _fit.
  apply py_bind_raises. intros mask.
  apply py_bind_raises. intros y_flat.
  apply py_bind_raises. intros [y_flat' kwargs'].
  apply py_bind_raises_l, Hm.
Qed.

Lemma fit_raises_of_screen self_mask trend X da method screen_outliers kwargs :
  (forall X y_flat mask_bool,
      exists e, outcome (fit_screen X y_flat mask_bool screen_outliers kwargs)
                = Raise e) ->
  exists e, outcome (fit self_mask trend X da method screen_outliers kwargs)
            = Raise e.
Proof.
  intros Hs. unfold _fit.
  apply py_bind_raises. intros mask.
  apply py_bind_raises. intros y_flat.
  apply py_bind_raises_l, Hs.
Qed.

(** The first two steps of [_fit]: the mask it starts from and the pixels
    it selects. *)
Lemma fit_after_selection self_mask trend X da method screen_outliers kwargs
  (mask : grid Z) (y_flat : grid float) :
  match self_mask with
  | Some m => m = mask
  | None => ones_like_first (np.cube_map np.float32 (values da)) = Ok mask
  end ->
  np.select (np.cube_map np.float32 (values da)) (np.map1 (Z.eqb 1) mask)
  = Ok y_flat ->
  fit self_mask trend X da method screen_outliers kwargs
  = ('(y_flat, kwargs) ← fit_screen (np.map1 np.float32 X) y_flat
                           (np.map1 (Z.eqb 1) mask) screen_outliers kwargs;
     '(mask', (beta_flat, residuals_flat)) ←
       fit_method trend (np.map1 np.float32 X) y_flat da mask method kwargs;
     beta ← lift (np.assign_masked
                    (np.zeros (np.shape (np.map1 np.float32 X)).2
                              (np.cshape (np.cube_map np.float32 (values da))))
                    (np.map1 (Z.eqb 1) mask) (np.map1 np.float32 beta_flat));
     residuals ← lift (np.assign_masked
                         (np.zeros (length (np.frames
                                      (np.cube_map np.float32 (values da))))
                                   (np.cshape (np.cube_map np.float32 (values da))))
                         (np.map1 (Z.eqb 1) mask)
                         (np.map1 np.float32 residuals_flat));
     mret (mask', beta, residuals)).
Proof.
  intros Hmask Hsel. unfold _fit.
  assert (E : match self_mask with
              | Some m => mret m
              | None => lift (ones_like_first (np.cube_map np.float32 (values da)))
              end = Py [] (Ok mask)).
  { destruct self_mask as [m|]; [by subst | by rewrite Hmask]. }
  rewrite E, py_ret_bind. cbn zeta. rewrite Hsel.
  change (lift (Ok y_flat)) with (Py [] (Ok y_flat)).
  by rewrite py_ret_bind.
Qed.

(** C7 (as amended): [_fit] raises for every invalid configuration and
    never falls back to another method.  Where the mask and the selection
    of the pixels to fit raised nothing, the exception [_fit] raises is the
    one of the configuration.  The screening is checked first: a non-empty
    name other than 'Shewhart' and 'CCDC_RIRLS' raises [ValueError], and so
    does 'CCDC_RIRLS' without 'green' or without 'swir'.  The method is
    checked once the screening has returned: 'LASSO' raises
    [NotImplementedError], a name outside the five known ones raises
    [ValueError], and so does 'CCDC-stable' when [trend] is false. *)
Theorem invalid_configuration_raises trend method screen_outliers kwargs :
  invalid_config trend method screen_outliers kwargs ->
  forall self_mask X da,
    (exists e, outcome (fit self_mask trend X da method screen_outliers kwargs)
               = Raise e) /\
    forall (mask : grid Z) (y_flat : grid float),
      match self_mask with
      | Some m => m = mask
      | None => ones_like_first (np.cube_map np.float32 (values da)) = Ok mask
      end ->
      np.select (np.cube_map np.float32 (values da)) (np.map1 (Z.eqb 1) mask)
      = Ok y_flat ->
      (forall name, screen_outliers = Some name -> name <> EmptyString ->
                    name <> "Shewhart" -> name <> "CCDC_RIRLS" ->
         outcome (fit self_mask trend X da method screen_outliers kwargs)
         = Raise (ValueError "Unknown screen_outliers")) /\
      (screen_outliers = Some "CCDC_RIRLS" -> kwargs !! "green" = None ->
         outcome (fit self_mask trend X da method screen_outliers kwargs)
         = Raise ccdc_params_missing) /\
      (forall green green_flat,
         screen_outliers = Some "CCDC_RIRLS" ->
         kwargs !! "green" = Some green ->
         band_flat green (np.map1 (Z.eqb 1) mask) = Ok green_flat ->
         kwargs !! "swir" = None ->
         outcome (fit self_mask trend X da method screen_outliers kwargs)
         = Raise ccdc_params_missing) /\
      (forall y' kwargs',
         outcome (fit_screen (np.map1 np.float32 X) y_flat
                    (np.map1 (Z.eqb 1) mask) screen_outliers kwargs)
         = Ok (y', kwargs') ->
         (method = "LASSO" ->
            outcome (fit self_mask trend X da method screen_outliers kwargs)
            = Raise (NotImplementedError "Method not yet implemented")) /\
         (method ∉ known_methods ->
            outcome (fit self_mask trend X da method screen_outliers kwargs)
            = Raise (ValueError "Unknown method")) /\
         (method = "CCDC-stable" -> trend = false ->
            outcome (fit self_mask trend X da method screen_outliers kwargs)
            = Raise (ValueError "Method 'CCDC' requires 'trend' to be true."))).
Proof.
  intros Hinv self_mask X da. split.
  - destruct Hinv as [Hl | Hm | name Hs H0 H1 H2 | Hc Ht | Hs Hb].
    + apply fit_raises_of_method. intros. apply fit_method_invalid. auto.
    + apply fit_raises_of_method. intros. apply fit_method_invalid. auto.
    + apply fit_raises_of_screen. intros. subst screen_outliers.
      rewrite fit_screen_unknown by assumption. by eexists.
    + apply fit_raises_of_method. intros. apply fit_method_invalid. auto.
    + apply fit_raises_of_screen. intros. subst screen_outliers.
      by apply fit_screen_ccdc_missing.
  - intros mask y_flat Hmask Hsel.
    rewrite (fit_after_selection _ _ _ _ _ _ _ _ _ Hmask Hsel).
    split; [|split; [|split]].
    + intros name -> H0 H1 H2. apply py_bind_Raise_l.
      by rewrite fit_screen_unknown.
    + intros -> Hg. apply py_bind_Raise_l.
      by rewrite fit_screen_ccdc_no_green.
    + intros green green_flat -> Hg Hb Hs. apply py_bind_Raise_l.
      by eapply fit_screen_ccdc_no_swir.
    + intros y' kwargs' Hscreen.
      rewrite (py_bind_outcome _ _ (y', kwargs')) by exact Hscreen.
      split; [|split].
      * intros ->. apply py_bind_Raise_l. by rewrite fit_method_lasso.
      * intros Hm. apply py_bind_Raise_l. by rewrite fit_method_unknown.
      * intros -> ->. apply py_bind_Raise_l.
        by rewrite fit_method_ccdc_without_trend.
Qed.

(** The fit step of 'ROC' without [alpha]: one warning, then the step
    with [alpha = 0.05]. *)
Lemma fit_method_roc_no_alpha trend X y_flat da mask kwargs :
  kwargs !! "alpha" = None ->
  fit_method trend X y_flat da mask "ROC" kwargs
  = Py (alpha_warning
          :: warnings (fit_method trend X y_flat da mask "ROC"
                         (<["alpha" := VFloat 0.05%float]> kwargs)))
       (outcome (fit_method trend X y_flat da mask "ROC"
                   (<["alpha" := VFloat 0.05%float]> kwargs))) /\
  warnings (fit_method trend X y_flat da mask "ROC"
              (<["alpha" := VFloat 0.05%float]> kwargs)) = [].
Proof.
  intros Hk. unfold _fit_method.
  cbn [String.eqb Ascii.eqb Bool.eqb]. rewrite Hk, lookup_insert_eq.
  unfold mbind, py_bind, lift, warn, mret, py_ret. cbn [outcome warnings app].
  split; [reflexivity|].
  destruct (roc_stable_fit X y_flat (to_days <$> time da) (VFloat 0.05%float)
              (_cusum_rec_test_crit (VFloat 0.05%float)))
    as [[beta_flat residuals_flat] is_stable].
  destruct (mark_unstable (np.cshape (values da)) mask is_stable);
    reflexivity.
Qed.

(** With [alpha] among the keyword arguments the fit step of 'ROC' does
    not warn. *)
Lemma fit_method_roc_alpha trend X y_flat da mask kwargs a :
  kwargs !! "alpha" = Some a ->
  warnings (fit_method trend X y_flat da mask "ROC" kwargs) = [].
Proof.
  intros Hk. unfold _fit_method.
  cbn [String.eqb Ascii.eqb Bool.eqb]. rewrite Hk.
  unfold mbind, py_bind, lift, warn, mret, py_ret. cbn [outcome warnings app].
  destruct (roc_stable_fit X y_flat (to_days <$> time da) a
              (_cusum_rec_test_crit a))
    as [[beta_flat residuals_flat] is_stable].
  destruct (mark_unstable (np.cshape (values da)) mask is_stable);
    reflexivity.
Qed.

(** The screening never warns, and pops 'green' and 'swir' only. *)
Lemma fit_screen_warnings X y_flat mask_bool screen_outliers kwargs :
  warnings (fit_screen X y_flat mask_bool screen_outliers kwargs) = [].
Proof.
  unfold _fit_screen. destruct screen_outliers as [name|]; [|reflexivity].
  destruct (String.eqb name "Shewhart"); [reflexivity|].
  destruct (String.eqb name "CCDC_RIRLS");
    [|by destruct (String.eqb name EmptyString)].
  destruct (kwargs !! "green") as [green|]; [|reflexivity].
  unfold mbind, py_bind, lift. cbn [outcome warnings app].
  destruct (band_flat green mask_bool); [|reflexivity]. cbn [outcome warnings app].
  destruct (delete "green" kwargs !! "swir") as [swir|]; [|reflexivity].
  cbn [outcome warnings app].
  by destruct (band_flat swir mask_bool).
Qed.

Lemma fit_screen_alpha X y_flat mask_bool screen_outliers kwargs y' kwargs' :
  outcome (fit_screen X y_flat mask_bool screen_outliers kwargs) = Ok (y', kwargs') ->
  kwargs' !! "alpha" = kwargs !! "alpha".
Proof.
  unfold _fit_screen. destruct screen_outliers as [name|]; [|by intros [= _ <-]].
  destruct (String.eqb name "Shewhart"); [by intros [= _ <-]|].
  destruct (String.eqb name "CCDC_RIRLS").
  - destruct (kwargs !! "green") as [green|]; [|discriminate].
    intros H. apply py_bind_Ok in H as (green_flat & _ & H).
    destruct (delete "green" kwargs !! "swir") as [swir|]; [|discriminate].
    apply py_bind_Ok in H as (swir_flat & _ & H).
    injection H as _ <-. by rewrite !lookup_delete_ne.
  - destruct (String.eqb name EmptyString); [by intros [= _ <-] | discriminate].
Qed.

(** What follows the fit step in [_fit] never warns. *)
Lemma fit_after_method_warnings (m : py (grid Z * fit_out))
  (b r : cube float) (mask_bool : grid bool) :
  warnings ('(mask, (beta_flat, residuals_flat)) ← m;
            beta ← lift (np.assign_masked b mask_bool
                           (np.map1 np.float32 beta_flat));
            residuals ← lift (np.assign_masked r mask_bool
                                (np.map1 np.float32 residuals_flat));
            mret (mask, beta, residuals))
  = warnings m.
Proof.
  destruct m as [w [[mask [beta_flat residuals_flat]]|e]];
    unfold mbind, py_bind, lift, mret, py_ret; cbn [outcome warnings];
    [|reflexivity].
  destruct (np.assign_masked b _ _); cbn [outcome warnings app];
    [destruct (np.assign_masked r _ _)|]; cbn [outcome warnings app];
    by rewrite app_nil_r.
Qed.


(** *** The stability-aware methods and the mask *)

Lemma count_true_le (m : list bool) : (np.count_true m <= length m)%nat.
Proof. unfold np.count_true. apply length_filter. Qed.

Lemma count_true_full (cells : list Z) :
  np.count_true (Z.eqb 1 <$> cells) = length cells <-> Forall (fun m => m = 1) cells.
Proof.
  unfold np.count_true. induction cells as [|m cells IH].
  - split; [constructor | reflexivity].
  - rewrite fmap_cons, filter_cons, Forall_cons.
    destruct (decide ((1 =? m) = true)) as [E|E]; cbn [length].
    + apply Z.eqb_eq in E. rewrite <- IH. split.
      * intros [= H]. split; [by subst | exact H].
      * intros [_ H]. by rewrite H.
    + pose proof (length_filter (fun b => b = true) (Z.eqb 1 <$> cells)) as L.
      rewrite length_fmap in L. split; [lia|].
      intros [-> _]. done.
Qed.

Lemma Forall_lookup_grid (mask : grid Z) :
  Forall (fun m => m = 1) (np.cells mask)
  <-> forall (p : nat) (m : Z), mask !! p = Some m -> m = 1.
Proof. unfold lookup, grid_lookup. apply Forall_lookup. Qed.

Lemma select_Ok {A} (c : cube A) (m : grid bool) :
  np.cshape c = np.shape m ->
  exists g, np.select c m = Ok g /\
            np.shape g = (length (np.frames c), np.count_true (np.cells m)).
Proof.
  intros E. unfold np.select. rewrite decide_True by exact E.
  eexists. split; reflexivity.
Qed.

(** The stability-aware fit methods return one flag per fitted pixel, and
    the screening methods keep the shape of what they screen
    (specification, 4.4 and 4.5). *)
Hypothesis roc_flags : forall X y_flat dates alpha crit,
  length (roc_stable_fit X y_flat dates alpha crit).2 = (np.shape y_flat).2.
Hypothesis ccdc_flags : forall X y_flat dates kwargs,
  length (ccdc_stable_fit X y_flat dates kwargs).2 = (np.shape y_flat).2.
Hypothesis shewhart_shape : forall X y_flat kwargs,
  np.shape (shewhart X y_flat kwargs) = np.shape y_flat.
Hypothesis ccdc_rirls_shape : forall X y_flat green swir kwargs,
  np.shape (ccdc_rirls X y_flat green swir kwargs) = np.shape y_flat.

Lemma fit_screen_shape X y_flat mask_bool screen_outliers kwargs y' kwargs' :
  outcome (fit_screen X y_flat mask_bool screen_outliers kwargs) = Ok (y', kwargs') ->
  np.shape y' = np.shape y_flat.
Proof.
  unfold _fit_screen. destruct screen_outliers as [name|]; [|by intros [= <- _]].
  destruct (String.eqb name "Shewhart"); [intros [= <- _]; apply shewhart_shape|].
  destruct (String.eqb name "CCDC_RIRLS").
  - destruct (kwargs !! "green") as [green|]; [|discriminate].
    intros H. apply py_bind_Ok in H as (green_flat & _ & H).
    destruct (delete "green" kwargs !! "swir") as [swir|]; [|discriminate].
    apply py_bind_Ok in H as (swir_flat & _ & H).
    injection H as <- _. apply ccdc_rirls_shape.
  - destruct (String.eqb name EmptyString); [by intros [= <- _] | discriminate].
Qed.

Lemma reshape_flags sh (is_stable : list bool) (mask : grid Z) :
  has_shape sh mask ->
  length is_stable = np.count_true (np.cells (np.map1 (Z.eqb 1) mask)) ->
  (is_ok (np.reshape is_stable sh) = true
   <-> forall (p : nat) (m : Z), mask !! p = Some m -> m = 1) /\
  (~ (forall (p : nat) (m : Z), mask !! p = Some m -> m = 1) ->
   np.reshape is_stable sh = Raise (ValueError "cannot reshape array")).
Proof.
  intros [Es Ls] Hl. simpl in Hl.
  rewrite <- Forall_lookup_grid, <- count_true_full.
  unfold np.reshape. rewrite Hl, <- Ls.
  destruct (decide _) as [E|E]; simpl; split; done.
Qed.

Lemma mark_unstable_partial sh (is_stable : list bool) (mask : grid Z) :
  has_shape sh mask ->
  length is_stable = np.count_true (np.cells (np.map1 (Z.eqb 1) mask)) ->
  ~ (forall (p : nat) (m : Z), mask !! p = Some m -> m = 1) ->
  mark_unstable sh mask is_stable = Raise (ValueError "cannot reshape array").
Proof.
  intros Hm Hl Hp. unfold mark_unstable.
  destruct (reshape_flags sh is_stable mask Hm Hl) as [_ ->]; done.
Qed.

Lemma fit_method_partial_mask trend X y_flat da mask method kwargs :
  has_shape (np.cshape (values da)) mask ->
  (np.shape y_flat).2 = np.count_true (np.cells (np.map1 (Z.eqb 1) mask)) ->
  ~ (forall (p : nat) (m : Z), mask !! p = Some m -> m = 1) ->
  method = "ROC" \/ method = "CCDC-stable" ->
  (exists e, outcome (fit_method trend X y_flat da mask method kwargs) = Raise e) /\
  ((method = "CCDC-stable" -> trend = true) ->
   outcome (fit_method trend X y_flat da mask method kwargs)
   = Raise (ValueError "cannot reshape array")).
Proof.
  intros Hm Hy Hp [-> | ->]; unfold _fit_method;
    cbn [String.eqb Ascii.eqb Bool.eqb].
  - assert (H : outcome
      (alpha ← match kwargs !! "alpha" with
               | Some a => mret a
               | None => _ ← warn alpha_warning; mret (VFloat 0.05%float)
               end;
       let dates := to_days <$> time da in
       let crit := _cusum_rec_test_crit alpha in
       let '(beta_flat, residuals_flat, is_stable) :=
         roc_stable_fit X y_flat dates alpha crit in
       mask0 ← lift (mark_unstable (np.cshape (values da)) mask is_stable);
       mret (mask0, (beta_flat, residuals_flat)))
      = Raise (ValueError "cannot reshape array")).
    { assert (Hk : forall alpha, outcome
        (let dates := to_days <$> time da in
         let crit := _cusum_rec_test_crit alpha in
         let '(beta_flat, residuals_flat, is_stable) :=
           roc_stable_fit X y_flat dates alpha crit in
         mask0 ← lift (mark_unstable (np.cshape (values da)) mask is_stable);
         mret (mask0, (beta_flat, residuals_flat)))
        = Raise (ValueError "cannot reshape array")).
      { intros alpha. simpl.
        pose proof (roc_flags X y_flat (to_days <$> time da) alpha
                      (_cusum_rec_test_crit alpha)) as Hf.
        destruct (roc_stable_fit _ _ _ _ _) as [[bf rf] is_stable].
        simpl in Hf. apply py_bind_Raise_l. simpl.
        apply mark_unstable_partial; [exact Hm | congruence | exact Hp]. }
      destruct (kwargs !! "alpha") as [a|].
      - rewrite (py_bind_outcome _ _ a) by reflexivity. apply Hk.
      - rewrite (py_bind_outcome _ _ (VFloat 0.05%float)) by reflexivity.
        apply Hk. }
    split; [eexists; exact H | intros _; exact H].
  - destruct trend; simpl.
    + assert (H : outcome
        (let dates := time da in
         let '(beta_flat, residuals_flat, is_stable) :=
           ccdc_stable_fit X y_flat dates kwargs in
         mask0 ← lift (mark_unstable (np.cshape (values da)) mask is_stable);
         mret (mask0, (beta_flat, residuals_flat)))
        = Raise (ValueError "cannot reshape array")).
      { simpl. pose proof (ccdc_flags X y_flat (time da) kwargs) as Hf.
        destruct (ccdc_stable_fit _ _ _ _) as [[bf rf] is_stable].
        simpl in Hf. apply py_bind_Raise_l. simpl.
        apply mark_unstable_partial; [exact Hm | congruence | exact Hp]. }
      split; [eexists; exact H | intros _; exact H].
    + split; [by eexists | intros H; by specialize (H eq_refl)].
Qed.

(** C10: a stability-aware method ('ROC', 'CCDC-stable') gets its
    stability flags for the pixels of mask code 1 only and reshapes them to
    the whole grid; the reshape is defined exactly when every pixel has
    mask code 1, and with any pixel excluded [_fit] fails, on that reshape
    when nothing raised before it. *)
Theorem stable_fit_requires_full_mask
  trend X da method screen_outliers kwargs (mask : grid Z) :
  has_shape (np.cshape (values da)) mask ->
  method = "ROC" \/ method = "CCDC-stable" ->
  (forall is_stable : list bool,
      length is_stable = np.count_true (np.cells (np.map1 (Z.eqb 1) mask)) ->
      (is_ok (np.reshape is_stable (np.cshape (values da))) = true
       <-> forall (p : nat) (m : Z), mask !! p = Some m -> m = 1)) /\
  ((exists (p : nat) (m : Z), mask !! p = Some m /\ m <> 1) ->
   (exists e, outcome (fit (Some mask) trend X da method screen_outliers kwargs)
              = Raise e) /\
   (screen_outliers = None -> (method = "CCDC-stable" -> trend = true) ->
    outcome (fit (Some mask) trend X da method screen_outliers kwargs)
    = Raise (ValueError "cannot reshape array"))).
Proof.
  intros Hm Hmethod. split.
  - intros is_stable Hl. by apply reshape_flags.
  - intros (p & m & Hp & Hne).
    assert (Hpartial : ~ (forall (p : nat) (m : Z), mask !! p = Some m -> m = 1)).
    { intros H. apply Hne. by eapply H. }
    unfold _fit.
    rewrite (py_bind_outcome _ _ mask) by reflexivity.
    destruct (select_Ok (np.cube_map np.float32 (values da))
                (np.map1 (Z.eqb 1) mask)) as (y_flat & Hsel & Hshape).
    { simpl. symmetry. apply Hm. }
    rewrite (py_bind_outcome _ _ y_flat) by exact Hsel.
    split.
    + destruct (outcome (fit_screen (np.map1 np.float32 X) y_flat
                           (np.map1 (Z.eqb 1) mask) screen_outliers kwargs))
        as [[y' kwargs']|e] eqn:Hscreen.
      * rewrite (py_bind_outcome _ _ (y', kwargs')) by exact Hscreen.
        apply py_bind_raises_l.
        apply fit_method_partial_mask; try assumption.
        rewrite (fit_screen_shape _ _ _ _ _ _ _ Hscreen), Hshape. reflexivity.
      * exists e. by apply py_bind_Raise_l.
    + intros -> Htrend.
      rewrite (py_bind_outcome _ _ (y_flat, kwargs)) by reflexivity.
      apply py_bind_Raise_l.
      apply fit_method_partial_mask; try assumption.
      rewrite Hshape. reflexivity.
Qed.

End fit_proofs.
(** ** The state [CuSum.fit] leaves *)

Section cusum_fit_proofs.

Variable build_regressors : list Z -> bool -> Z -> grid float.
Variable shewhart : grid float -> grid float -> kwargs_t -> grid float.
Variable ccdc_rirls :
  grid float -> grid float -> grid float -> grid float -> kwargs_t -> grid float.
Variable ols : grid float -> grid float -> fit_out.
Variable rirls : grid float -> grid float -> kwargs_t -> fit_out.
Variable roc_stable_fit :
  grid float -> grid float -> list Z -> value -> float -> stable_fit_out.
Variable ccdc_stable_fit :
  grid float -> grid float -> list Z -> kwargs_t -> stable_fit_out.
Variable _cusum_rec_test_crit : value -> float.
Variable _cusum_ols_test_crit : float -> float.
Variable np_nanstd : cube float -> nat -> grid float.

Abbreviation cusum_fit :=
  (CuSum_fit build_regressors shewhart ccdc_rirls ols rirls roc_stable_fit
             ccdc_stable_fit _cusum_rec_test_crit _cusum_ols_test_crit
             np_nanstd).

(** NaN has no [uint16] representation: the cast gives 0. *)
Lemma nan_as_uint16 : np.astype_uint16 nan = 0.
Proof. reflexivity. Qed.

(** C3: the boundary [CuSum.fit] leaves, read before any monitoring step.
    The code fills it with [np.nan] but at dtype [uint16], which holds no
    NaN: every cell is the integer 0, and converts to the float 0.0. *)
Theorem fit_boundary_is_zero_not_nan
  self da method alpha screen_outliers kwargs fitted :
  outcome (cusum_fit self da method alpha screen_outliers kwargs) = Ok fitted ->
  exists g,
    boundary (base fitted) = BoundaryU16 g /\
    np.shape g = np.shape (histsize fitted) /\
    length (np.cells g) = length (np.cells (histsize fitted)) /\
    forall (p : nat),
      (p < length (np.cells g))%nat ->
      g !! p = Some 0 /\
      as_float64 (boundary (base fitted)) !! p = Some 0%float /\
      np.isnan 0%float = false.
Proof.
  unfold CuSum_fit. intros H.
  apply py_bind_Ok in H as ([[mask beta] residuals] & _ & H).
  apply py_bind_Ok in H as (scale & _ & H).
  apply py_bind_Ok in H as (residuals_ & _ & H).
  apply py_bind_Ok in H as (process & _ & H).
  injection H as <-. simpl.
  eexists. split; [reflexivity|]. split; [reflexivity|].
  split; [simpl; by rewrite length_replicate|].
  intros p Hp. simpl in Hp. rewrite length_replicate in Hp.
  assert (Hg : np.full_like (np.map1 np.wrap16 (count_not_nan residuals))
                 (np.astype_uint16 nan) !! p = Some 0).
  { unfold lookup, grid_lookup. simpl. rewrite nan_as_uint16.
    apply lookup_replicate. split; [reflexivity | exact Hp]. }
  split; [exact Hg|]. split; [|reflexivity].
  exact (map1_lookup np.of_int _ _ _ Hg).
Qed.

End cusum_fit_proofs.
(** ** The growth of the boundary *)

Section boundary_growth.
#[local] Open Scope R_scope.

Lemma G_deriv c t : 1 < t -> derivable_pt_lim (G c) t (G' c t).
Proof.
intros Ht.
pose proof (derivable_pt_lim_id t) as Hid.
pose proof (derivable_pt_lim_const 1 t) as Hone.
pose proof (derivable_pt_lim_minus _ _ _ _ _ Hid Hone) as Hm1.
pose proof (derivable_pt_lim_mult _ _ _ _ _ Hid Hm1) as Hpoly.
assert (Hln : derivable_pt_lim ln t (/ t)) by (apply derivable_pt_lim_ln; lra).
assert (Hln1 : derivable_pt_lim ln ((id - fct_cte 1)%F t) (/ (t - 1))).
{ apply derivable_pt_lim_ln. unfold minus_fct, id, fct_cte. lra. }
pose proof (derivable_pt_lim_comp _ _ _ _ _ Hm1 Hln1) as Hcomp.
pose proof (derivable_pt_lim_minus _ _ _ _ _ Hln Hcomp) as Hlog.
pose proof (derivable_pt_lim_plus _ _ _ _ _ (derivable_pt_lim_const (c * c) t) Hlog) as Hsum.
pose proof (derivable_pt_lim_mult _ _ _ _ _ Hpoly Hsum) as Hall.
exact Hall.
Qed.

Lemma ln_quot x y : 0 < x -> 0 < y -> ln (x / y) = ln x - ln y.
Proof.
intros Hx Hy. unfold Rdiv.
rewrite ln_mult by (try apply Rinv_0_lt_compat; assumption).
rewrite ln_Rinv by assumption. ring.
Qed.

Lemma ln_ratio_lower t : 1 < t -> / t <= ln t - ln (t - 1).
Proof.
intros Ht.
assert (Hinv : 0 < / t) by (apply Rinv_0_lt_compat; lra).
assert (Hinv1 : / t < 1).
{ rewrite <- Rinv_1. apply Rinv_lt_contravar; lra. }
assert (Hq : (t - 1) / t = 1 + - / t) by (field; lra).
pose proof (exp_ineq1 (- / t) ltac:(lra)) as Hexp.
assert (H : ln ((t - 1) / t) < - / t).
{ rewrite Hq. rewrite <- (ln_exp (- / t)) at 2. apply ln_increasing; lra. }
rewrite ln_quot in H by lra. lra.
Qed.

Lemma G'_nonneg c t : 1 < t -> 0 <= G' c t.
Proof.
intros Ht. unfold G'.
pose proof (ln_ratio_lower t Ht) as HL.
set (L := ln t - ln (t - 1)) in *.
assert (Hc : 0 <= c * c) by nra.
assert (E : t * (t - 1) * (0 + (/ t - / (t - 1) * (1 - 0))) = -1).
{ field. lra. }
rewrite E.
assert (Ht' : 0 < / t) by (apply Rinv_0_lt_compat; lra).
assert (H1 : (2 * t - 1) * / t <= (2 * t - 1) * L) by (apply Rmult_le_compat_l; lra).
assert (H2 : (2 * t - 1) * / t = 2 - / t) by (field; lra).
assert (H3 : / t < 1). { rewrite <- Rinv_1. apply Rinv_lt_contravar; lra. }
nra.
Qed.

Lemma G_increasing c x y : 1 < x -> x <= y -> G c x <= G c y.
Proof.
intros Hx [Hlt | ->]; [| lra].
destruct (MVT_cor2 (G c) (G' c) x y Hlt) as (z & Hz & Hxz).
{ intros t Ht. apply G_deriv. lra. }
pose proof (G'_nonneg c z ltac:(lra)).
assert (0 <= G' c z * (y - x)) by (apply Rmult_le_pos; lra).
lra.
Qed.

Lemma boundary_real critval (n histsize : Z) :
  (0 < histsize < n)%Z ->
  cusum_boundary (T := R) critval n histsize
  = sqrt (G critval (IZR n / IZR histsize)).
Proof.
  intros [Hh Hn]. unfold cusum_boundary, G. simpl.
  assert (H0 : 0 < IZR histsize) by (apply IZR_lt; lia).
  assert (H1 : 1 < IZR n / IZR histsize).
  { apply (Rmult_lt_reg_r (IZR histsize)); [exact H0|].
    unfold Rdiv. rewrite Rmult_assoc, Rinv_l by lra.
    rewrite Rmult_1_l, Rmult_1_r. apply IZR_lt. lia. }
  rewrite ln_quot by lra. reflexivity.
Qed.

(** The formula over the real numbers: with [critval] and [histsize]
    fixed, [sqrt(x*(x-1)*(critval^2 + ln(x/(x-1))))], [x = n/histsize], does
    not decrease as [n] grows beyond a positive [histsize].  This is the
    growth the formula is chosen for; it says nothing of the rounding of
    binary64 nor of the [uint16] count. *)
Lemma boundary_formula_nondecreasing critval (histsize n m : Z) :
  (0 < histsize)%Z -> (histsize < n)%Z -> (n <= m)%Z ->
  cusum_boundary (T := R) critval n histsize
  <= cusum_boundary (T := R) critval m histsize.
Proof.
  intros Hh Hn Hm. rewrite !boundary_real by lia.
  assert (H0 : 0 < IZR histsize) by (apply IZR_lt; lia).
  assert (H1 : 1 < IZR n / IZR histsize).
  { apply (Rmult_lt_reg_r (IZR histsize)); [exact H0|].
    unfold Rdiv. rewrite Rmult_assoc, Rinv_l by lra.
    rewrite Rmult_1_l, Rmult_1_r. apply IZR_lt. lia. }
  apply sqrt_le_1_alt, G_increasing; [exact H1|].
  unfold Rdiv. apply Rmult_le_compat_r.
  - left. by apply Rinv_0_lt_compat.
  - by apply IZR_le.
Qed.

End boundary_growth.

(** ** The default break detector *)

Lemma digits2_pos_iter_xO (m : positive) (d : positive) :
  Zpos (digits2_pos (Pos.iter xO m d)) = Zpos (digits2_pos m) + Zpos d.
Proof.
  induction d as [|d IH] using Pos.peano_ind.
  - simpl. lia.
  - rewrite Pos.iter_succ. simpl. rewrite Pos2Z.inj_succ in *. lia.
Qed.

Lemma iter_xO_value (m d : positive) : Zpos (Pos.iter xO m d) = Zpos m * 2 ^ Zpos d.
Proof.
  induction d as [|d IH] using Pos.peano_ind.
  - simpl. lia.
  - rewrite Pos.iter_succ, Pos2Z.inj_succ, Z.pow_succ_r by lia.
    rewrite Pos2Z.inj_xO, IH. lia.
Qed.

Lemma binary_round_aux_exact (s : bool) (mz : positive) (ez : Z) :
  fexp prec emax (Zpos (digits2_pos mz) + ez) = ez -> ez <= emax - prec ->
  binary_round_aux prec emax s (Zpos mz) ez loc_Exact = S754_finite s mz ez.
Proof.
  intros Hf He. unfold binary_round_aux, shr_fexp. cbn [Zdigits2].
  rewrite Hf, Z.sub_diag. cbn [shr shr_record_of_loc shr_m loc_of_shr_record round_nearest_even Zdigits2].
  rewrite Hf, Z.sub_diag. cbn [shr shr_record_of_loc shr_m].
  destruct (Z.leb_spec ez (emax - prec)); [reflexivity | lia].
Qed.

Lemma canon_fexp (m : positive) :
  Zpos (digits2_pos m) <= 53 ->
  fexp prec emax (Zpos (digits2_pos (fst (canon m))) + snd (canon m)) = snd (canon m)
  /\ snd (canon m) <= 0 /\ -52 <= snd (canon m)
  /\ Zpos (fst (canon m)) = Zpos m * 2 ^ (- snd (canon m)).
Proof.
  intros Hd. unfold canon.
  pose proof (Pos2Z.is_pos (digits2_pos m)) as Hpos.
  destruct (53 - Zpos (digits2_pos m)) as [|d|d] eqn:Ed; try lia; cbn [fst snd].
  - unfold fexp, emin, prec, emax. repeat split; try lia.
  - rewrite digits2_pos_iter_xO, iter_xO_value.
    unfold fexp, emin, prec, emax. repeat split; try lia.
Qed.

Lemma binary_round_small (s : bool) (m : positive) :
  Zpos (digits2_pos m) <= 53 ->
  binary_round prec emax s m 0 = S754_finite s (fst (canon m)) (snd (canon m)).
Proof.
  intros Hd. destruct (canon_fexp m Hd) as (Hf & Hle & Hge & _).
  unfold binary_round.
  assert (Hfexp : fexp prec emax (Zpos (digits2_pos m) + 0) = Zpos (digits2_pos m) - 53).
  { unfold fexp, emin, prec, emax. lia. }
  rewrite Hfexp.
  assert (Hal : shl_align m 0 (Zpos (digits2_pos m) - 53) = canon m).
  { unfold shl_align, canon.
    replace (Z.pos (digits2_pos m) - 53 - 0) with (- (53 - Zpos (digits2_pos m))) by lia.
    destruct (53 - Zpos (digits2_pos m)) as [|d|d] eqn:Ed; try lia; cbn [Z.opp].
    - reflexivity.
    - f_equal. lia. }
  rewrite Hal. destruct (canon m) as [mz ez]. cbn [fst snd] in *.
  apply binary_round_aux_exact; [exact Hf | unfold emax, prec; lia].
Qed.

Lemma digits2_pos_bound (m : positive) (k : Z) :
  0 <= k -> Zpos m < 2 ^ k -> Zpos (digits2_pos m) <= k.
Proof.
  revert k. induction m as [m IH|m IH|]; intros k Hk Hm; cbn [digits2_pos].
  - rewrite Pos2Z.inj_succ. destruct (Z.eq_dec k 0) as [->|Hne]; [simpl in Hm; lia|].
    replace k with (Z.succ (k - 1)) in Hm by lia. rewrite Z.pow_succ_r in Hm by lia.
    specialize (IH (k - 1)). lia.
  - rewrite Pos2Z.inj_succ. destruct (Z.eq_dec k 0) as [->|Hne]; [simpl in Hm; lia|].
    replace k with (Z.succ (k - 1)) in Hm by lia. rewrite Z.pow_succ_r in Hm by lia.
    specialize (IH (k - 1)). lia.
  - destruct (Z.eq_dec k 0) as [->|Hne]; [simpl in Hm; lia | lia].
Qed.

Lemma trunc_of_Z (k : Z) : - 2 ^ 53 < k < 2 ^ 53 -> np.trunc (np.of_Z k) = Some k.
Proof.
  intros Hk. unfold np.of_Z, np.trunc, binary_normalize.
  destruct k as [|m|m].
  - reflexivity.
  - assert (Hd : Zpos (digits2_pos m) <= 53) by (apply digits2_pos_bound; lia).
    rewrite (binary_round_small false m Hd).
    destruct (canon_fexp m Hd) as (Hf & Hle & Hge & Hv).
    rewrite Prim2SF_SF2Prim.
    + cbn [np.signed]. destruct (Z.leb_spec 0 (snd (canon m))) as [H0|H0].
      * replace (snd (canon m)) with 0 in * by lia. simpl in Hv. f_equal. lia.
      * rewrite Hv. f_equal. apply Z.quot_mul. lia.
    + unfold SpecFloat.valid_binary, SpecFloat.bounded, SpecFloat.canonical_mantissa.
      rewrite Hf, Z.eqb_refl. simpl. apply Z.leb_le. unfold emax, prec. lia.
  - assert (Hd : Zpos (digits2_pos m) <= 53) by (apply digits2_pos_bound; lia).
    rewrite (binary_round_small true m Hd).
    destruct (canon_fexp m Hd) as (Hf & Hle & Hge & Hv).
    rewrite Prim2SF_SF2Prim.
    + cbn [np.signed]. rewrite <- !Pos2Z.opp_pos.
      destruct (Z.leb_spec 0 (snd (canon m))) as [H0|H0].
      * replace (snd (canon m)) with 0 in * by lia. simpl in Hv. f_equal. lia.
      * rewrite Hv, Z.quot_opp_l by lia. f_equal. f_equal. apply Z.quot_mul. lia.
    + unfold SpecFloat.valid_binary, SpecFloat.bounded, SpecFloat.canonical_mantissa.
      rewrite Hf, Z.eqb_refl. simpl. apply Z.leb_le. unfold emax, prec. lia.
Qed.

Lemma astype_uint8_of_Z (k : Z) :
  - 2 ^ 31 <= k < 2 ^ 31 -> np.astype_uint8 (np.of_Z k) = k mod 256.
Proof.
  intros Hk. unfold np.astype_uint8, np.astype_unsigned.
  rewrite trunc_of_Z by lia.
  destruct (Z.leb_spec (- 2 ^ 31) k); [|lia].
  destruct (Z.ltb_spec k (2 ^ 31)); [|lia]. reflexivity.
Qed.

Lemma floor_divide_exact (p b : float) (k : Z) :
  exact_floor_quotient p b = Some k -> - 2 ^ 31 <= k < 2 ^ 31 ->
  np.astype_uint8 (np.floor_divide p b) = k mod 256.
Proof.
  unfold exact_floor_quotient, np.floor_divide. intros Hq Hk.
  destruct (Prim2SF p) as [sp| |  |sp mp ep] eqn:Ep; try discriminate;
    destruct (Prim2SF b) as [sb| | |sb mb eb] eqn:Eb; try discriminate.
  - injection Hq as <-.
    unfold np.astype_uint8, np.astype_unsigned, np.trunc.
    rewrite div_spec, Ep, Eb. reflexivity.
  - injection Hq as <-. by apply astype_uint8_of_Z.
Qed.

(** What the default break detector computes: for a finite process value
    and a finite boundary value other than zero, the floor of the exact
    quotient [process / boundary] reduced modulo 256 (the conversion to
    [uint8], for a floor within the 32-bit range). *)
Lemma default_break_is_floor_quotient_mod_256
  (self : BaseNrt) (is_break : grid Z) (p : nat) (pr bd : float) (k : Z) :
  BaseNrt_detect_break self = Ok is_break ->
  process self !! p = Some pr ->
  as_float64 (boundary self) !! p = Some bd ->
  exact_floor_quotient pr bd = Some k ->
  - 2 ^ 31 <= k < 2 ^ 31 ->
  is_break !! p = Some (k mod 256) /\
  (truth (k mod 256) = true <-> k mod 256 <> 0).
Proof.
  intros Hd Hpr Hbd Hq Hk. unfold BaseNrt_detect_break in Hd.
  apply bind_Ok in Hd as (q & Hq2 & [= <-]).
  apply map2_Ok in Hq2 as [_ ->].
  split.
  - unfold lookup, grid_lookup in *. simpl.
    rewrite list_lookup_fmap, lookup_zip_with, Hpr. simpl. rewrite Hbd. simpl.
    f_equal. by apply floor_divide_exact.
  - unfold truth, truthy_uint8. rewrite negb_true_iff. apply Z.eqb_neq.
Qed.


(** C4: the default break detector does not flag every pixel whose
    truncated quotient [process / boundary] is not zero.  The quotient is
    converted to [uint8], which keeps its low byte: where the quotient is a
    multiple of 256 other than zero (and the same integer whether rounded
    toward zero or down, as it is when it is positive or exact), the
    detector yields 0 and the pixel is not flagged. *)
Theorem default_break_misses_multiples_of_256
  (self : BaseNrt) (is_break : grid Z) (p : nat) (pr bd : float) (q : Z) :
  BaseNrt_detect_break self = Ok is_break ->
  process self !! p = Some pr ->
  as_float64 (boundary self) !! p = Some bd ->
  spec_truncated_quotient pr bd = Some q ->
  exact_floor_quotient pr bd = Some q ->
  q <> 0 -> q mod 256 = 0 -> - 2 ^ 31 <= q < 2 ^ 31 ->
  is_break !! p = Some 0 /\ truth (0 : Z) = false.
Proof.
  intros Hd Hpr Hbd _ Hq _ Hmod Hk.
  destruct (default_break_is_floor_quotient_mod_256 self is_break p pr bd q
              Hd Hpr Hbd Hq Hk) as [Hb _].
  rewrite Hmod in Hb. split; [exact Hb | reflexivity].
Qed.
(** ** Sequences of monitoring steps *)

Section monitor_run_proofs.
Variable np_log : float -> float.
Variable float_pow : float -> float -> float.
Variable build_regressors : list Z -> bool -> Z -> grid float.
Variable inner : np.dot_kernel.

Abbreviation wf := (wf_CuSum build_regressors).
Abbreviation CuSum_monitor :=
  (CuSum_monitor np_log float_pow build_regressors inner).
Abbreviation CuSum_monitor_all :=
  (CuSum_monitor_all np_log float_pow build_regressors inner).

(** The attributes a monitoring step does not assign. *)
Lemma monitor_keeps_attributes self array date self' :
  CuSum_monitor self array date = Ok self' ->
  trend (base self') = trend (base self) /\
  harmonic_order (base self') = harmonic_order (base self) /\
  x (base self') = x (base self) /\ y (base self') = y (base self) /\
  beta (base self') = beta (base self) /\
  sensitivity self' = sensitivity self /\ critval self' = critval self /\
  sigma self' = sigma self /\ histsize self' = histsize self.
Proof.
  unfold CuSum_monitor, monitor.
  cbn [super with_super _update_process _detect_break _detect_extreme_outliers
       break_cell break_truthy CuSum_class].
  intros H.
  apply bind_Ok in H as (y_pred & _ & H).
  apply bind_Ok in H as (residuals & _ & H).
  apply bind_Ok in H as (is_valid & _ & H).
  apply bind_Ok in H as (self1 & Hupd & H).
  apply bind_Ok in H as (is_break & _ & H).
  apply bind_Ok in H as (confirmed & _ & H).
  apply bind_Ok in H as (mask' & _ & H).
  injection H as <-.
  unfold CuSum_update_process in Hupd.
  apply bind_Ok in Hupd as (n' & _ & Hupd).
  apply bind_Ok in Hupd as (bnd & _ & Hupd).
  apply bind_Ok in Hupd as (boundary' & _ & Hupd).
  apply bind_Ok in Hupd as (scale & _ & Hupd).
  apply bind_Ok in Hupd as (rn & _ & Hupd).
  apply bind_Ok in Hupd as (updated & _ & Hupd).
  apply bind_Ok in Hupd as (process' & _ & Hupd).
  injection Hupd as <-. simpl. by repeat split.
Qed.


(** X1: monitoring any sequence of acquisitions of the grid's shape never
    raises, returns an instance that is well formed again, and leaves the
    fitted model as it was: the coefficients, [sigma], [histsize], the
    critical value, the sensitivity, the regression settings and the
    coordinates. *)
Theorem monitor_never_changes_model sh acquisitions : forall self,
  wf sh self ->
  Forall (fun a : grid float * Z => has_shape sh a.1) acquisitions ->
  exists self',
    CuSum_monitor_all self acquisitions = Ok self' /\
    wf sh self' /\
    trend (base self') = trend (base self) /\
    harmonic_order (base self') = harmonic_order (base self) /\
    x (base self') = x (base self) /\ y (base self') = y (base self) /\
    beta (base self') = beta (base self) /\
    sensitivity self' = sensitivity self /\ critval self' = critval self /\
    sigma self' = sigma self /\ histsize self' = histsize self.
Proof.
  induction acquisitions as [|[array date] rest IH]; intros self W Hacq.
  - exists self. simpl. split; [reflexivity|]. split; [exact W|].
    by repeat split.
  - apply Forall_cons in Hacq as [Harr Hrest]. simpl in Harr.
    destruct (monitor_pixelwise np_log float_pow build_regressors inner sh self
                array date W Harr)
      as (y_pred & self1 & _ & _ & Hmon & W1 & _ & _).
    destruct (monitor_keeps_attributes _ _ _ _ Hmon)
      as (E1 & E2 & E3 & E4 & E5 & E6 & E7 & E8 & E9).
    destruct (IH self1 W1 Hrest)
      as (self' & Hall & W' & F1 & F2 & F3 & F4 & F5 & F6 & F7 & F8 & F9).
    exists self'. simpl.
    change (monitor build_regressors inner self array date)
      with (CuSum_monitor self array date).
    rewrite Hmon. simpl. split; [exact Hall|]. split; [exact W'|].
    repeat split; congruence.
Qed.

(** One step at one pixel, as the scalar kernel gives it. *)
Lemma monitor_step_at sh self array date (p : nat) :
  wf sh self -> has_shape sh array -> (p < np.size sh)%nat ->
  exists self' px obs pred,
    CuSum_monitor self array date = Ok self' /\ wf sh self' /\
    pixel_at self p = Some px /\ array !! p = Some obs /\
    is_uint16 (px_n px) /\
    pixel_at self' p
    = Some (CuSum_pixel_step np_log float_pow (critval self) px obs pred).
Proof.
  intros W Harr Hp.
  destruct (monitor_pixelwise np_log float_pow build_regressors inner sh self
              array date W Harr)
    as (y_pred & self' & _ & Hy & Hmon & W' & _ & Hpix).
  destruct (pixel_at_is_Some build_regressors sh self p W Hp) as [px Hpx].
  destruct (has_shape_lookup sh y_pred p Hy Hp) as [pred Hpred].
  destruct (has_shape_lookup sh array p Harr Hp) as [obs Hobs].
  exists self', px, obs, pred.
  split; [exact Hmon|]. split; [exact W'|]. split; [exact Hpx|].
  split; [exact Hobs|]. split; [|by apply Hpix].
  destruct (pixel_at_fields _ _ _ Hpx) as (_ & _ & _ & _ & _ & Fn).
  exact (wf_n_lookup build_regressors sh self p _ W Fn).
Qed.

(** The mask code a step leaves at a pixel. *)
Lemma CuSum_pixel_step_mask cv px obs pred :
  px_mask (CuSum_pixel_step np_log float_pow cv px obs pred) = px_mask px \/
  px_mask px = 1 /\
  px_mask (CuSum_pixel_step np_log float_pow cv px obs pred) = 3.
Proof.
  unfold CuSum_pixel_step. cbn [px_mask].
  destruct (1 =? px_mask px) eqn:E; [|by left].
  apply Z.eqb_eq in E.
  destruct (np.isfinite obs); [|by left]. cbn [andb].
  destruct (np.greater _ _); [right; by split | by left].
Qed.

(** X2: over any sequence of monitoring steps the mask of a pixel either
    keeps its code or goes from 1 (monitored) to 3 (confirmed break); no
    other code is ever written and no code other than 1 is ever replaced. *)
Theorem mask_only_moves_from_1_to_3 sh acquisitions : forall self (p : nat) (m : Z),
  wf sh self ->
  Forall (fun a : grid float * Z => has_shape sh a.1) acquisitions ->
  mask (base self) !! p = Some m ->
  exists self',
    CuSum_monitor_all self acquisitions = Ok self' /\
    (mask (base self') !! p = Some m \/
     m = 1 /\ mask (base self') !! p = Some 3).
Proof.
  induction acquisitions as [|[array date] rest IH]; intros self p m W Hacq Hm.
  - exists self. simpl. auto.
  - apply Forall_cons in Hacq as [Harr Hrest]. simpl in Harr.
    pose proof (has_shape_lookup_lt sh _ p m (wf_mask _ _ _ W) Hm) as Hp.
    destruct (monitor_step_at sh self array date p W Harr Hp)
      as (self1 & px & obs & pred & Hmon & W1 & Hpx & Hobs & Hn & Hpx1).
    destruct (pixel_at_fields _ _ _ Hpx) as (Fm & _).
    destruct (pixel_at_fields _ _ _ Hpx1) as (Fm1 & _).
    rewrite Hm in Fm. injection Fm as Fm.
    simpl. change (monitor build_regressors inner self array date)
      with (CuSum_monitor self array date).
    rewrite Hmon. simpl.
    destruct (CuSum_pixel_step_mask (critval self) px obs pred) as [E|[E1 E3]];
      rewrite <- Fm in *.
    + rewrite E in Fm1. exact (IH self1 p m W1 Hrest Fm1).
    + rewrite E3 in Fm1.
      destruct (IH self1 p 3 W1 Hrest Fm1) as (self' & Hall & [H|[H _]]);
        [|discriminate].
      exists self'. split; [exact Hall|]. right. by split.
Qed.

(** X3: a pixel whose mask code is not 1 (not monitored, unstable history,
    or any other code) is frozen: over any sequence of monitoring steps
    its mask, process, boundary, [sigma], [histsize] and [n] keep their
    values, whatever is observed there. *)
Theorem unmonitored_pixel_is_frozen sh acquisitions : forall self (p : nat) (m : Z),
  wf sh self ->
  Forall (fun a : grid float * Z => has_shape sh a.1) acquisitions ->
  mask (base self) !! p = Some m -> m <> 1 ->
  exists self',
    CuSum_monitor_all self acquisitions = Ok self' /\
    pixel_at self' p = pixel_at self p.
Proof.
  induction acquisitions as [|[array date] rest IH]; intros self p m W Hacq Hm Hne.
  - exists self. simpl. auto.
  - apply Forall_cons in Hacq as [Harr Hrest]. simpl in Harr.
    pose proof (has_shape_lookup_lt sh _ p m (wf_mask _ _ _ W) Hm) as Hp.
    destruct (monitor_step_at sh self array date p W Harr Hp)
      as (self1 & px & obs & pred & Hmon & W1 & Hpx & Hobs & Hn & Hpx1).
    destruct (pixel_at_fields _ _ _ Hpx) as (Fm & _).
    rewrite Hm in Fm. injection Fm as Fm.
    rewrite CuSum_pixel_step_invalid in Hpx1; [|exact Hn|].
    2:{ rewrite <- Fm. apply andb_false_intro1, Z.eqb_neq. congruence. }
    destruct (pixel_at_fields _ _ _ Hpx1) as (Fm1 & _). rewrite <- Fm in Fm1.
    destruct (IH self1 p m W1 Hrest Fm1 Hne) as (self' & Hall & Hpx').
    exists self'. simpl.
    change (monitor build_regressors inner self array date)
      with (CuSum_monitor self array date).
    rewrite Hmon. simpl. split; [exact Hall | congruence].
Qed.

(** X4: what a monitoring step does at a valid pixel (mask code 1 and a
    finite observation): the count [n] goes up by one modulo [2^16], the
    residual (the observation minus the prediction of [predict] at that
    pixel) divided by [sigma * sqrt(histsize)] (a [float32] product) is
    added to the process, and the boundary is recomputed from the new
    count.  The prediction is the inner product as the BLAS computes it,
    and [critval**2] and [np.log] in the boundary are those of the C
    library: the equations hold for whatever these three return. *)
Theorem valid_pixel_is_updated sh self array date (p : nat)
  (obs pr sg : float) (h ni : Z) :
  wf sh self -> has_shape sh array ->
  mask (base self) !! p = Some 1 ->
  array !! p = Some obs -> np.isfinite obs = true ->
  process (base self) !! p = Some pr -> sigma self !! p = Some sg ->
  histsize self !! p = Some h -> n self !! p = Some ni ->
  exists y_pred pred self',
    predict build_regressors inner (base self) date = Ok y_pred /\
    y_pred !! p = Some pred /\
    CuSum_monitor self array date = Ok self' /\
    n self' !! p = Some ((ni + 1) mod 65536) /\
    process (base self') !! p
    = Some (pr + (obs - pred) / np.mul32 sg (np.sqrt32 (np.of_int h)))%float /\
    as_float64 (boundary (base self')) !! p
    = Some (cusum_boundary (H := Arith_float64 np_log float_pow) (critval self)
              ((ni + 1) mod 65536) h).
Proof.
  intros W Harr Hm Hobs Hfin Hpr Hsg Hh Hn.
  destruct (monitor_pixelwise np_log float_pow build_regressors inner sh self
              array date W Harr)
    as (y_pred & self' & Hpred & Hy & Hmon & W' & _ & Hpix).
  pose proof (has_shape_lookup_lt sh _ p 1 (wf_mask _ _ _ W) Hm) as Hp.
  destruct (pixel_at_is_Some build_regressors sh self p W Hp) as [px Hpx].
  destruct (has_shape_lookup sh y_pred p Hy Hp) as [pred Hpr'].
  exists y_pred, pred, self'. split; [exact Hpred|]. split; [exact Hpr'|].
  split; [exact Hmon|].
  pose proof (Hpix p px obs pred Hpx Hobs Hpr') as Hpx'.
  destruct (pixel_at_fields _ _ _ Hpx) as (Fm & Fpr & _ & Fsg & Fh & Fn).
  destruct (pixel_at_fields _ _ _ Hpx') as (_ & Fpr' & Fbd' & _ & _ & Fn').
  rewrite Hm in Fm. rewrite Hpr in Fpr. rewrite Hsg in Fsg.
  rewrite Hh in Fh. rewrite Hn in Fn.
  injection Fm as Fm. injection Fpr as Fpr. injection Fsg as Fsg.
  injection Fh as Fh. injection Fn as Fn.
  rewrite Fn', Fpr', Fbd'. unfold CuSum_pixel_step. simpl.
  rewrite <- Fm, <- Fpr, <- Fsg, <- Fh, <- Fn, Hfin. simpl.
  by repeat split.
Qed.

End monitor_run_proofs.

(** ** Pixels do not interact *)

Section independence_proofs.
Variable np_log : float -> float.
Variable float_pow : float -> float -> float.
Variable build_regressors : list Z -> bool -> Z -> grid float.
Variable inner : np.dot_kernel.

Abbreviation wf := (wf_CuSum build_regressors).
Abbreviation CuSum_monitor :=
  (CuSum_monitor np_log float_pow build_regressors inner).

Lemma column_local (p : nat) (b1 b2 : list (list float)) :
  Forall2 (fun f1 f2 : list float => f1 !! p = f2 !! p) b1 b2 ->
  np.column b1 p = np.column b2 p.
Proof.
  unfold np.column. induction 1 as [|f1 f2 b1 b2 Hf Hb IH]; [reflexivity|].
  cbn [omap list_omap]. rewrite Hf, IH. reflexivity.
Qed.

Lemma predict_local sh self1 self2 date (p : nat) :
  wf sh self1 -> wf sh self2 ->
  trend (base self1) = trend (base self2) ->
  harmonic_order (base self1) = harmonic_order (base self2) ->
  Forall2 (fun f1 f2 : list float => f1 !! p = f2 !! p)
          (np.frames (beta (base self1))) (np.frames (beta (base self2))) ->
  exists y1 y2,
    predict build_regressors inner (base self1) date = Ok y1 /\
    predict build_regressors inner (base self2) date = Ok y2 /\
    has_shape sh y1 /\ has_shape sh y2 /\ y1 !! p = y2 !! p.
Proof.
  intros W1 W2 Et Eh Hb.
  destruct (predict_Ok build_regressors inner sh self1 date W1) as (y1 & H1 & S1).
  destruct (predict_Ok build_regressors inner sh self2 date W2) as (y2 & H2 & S2).
  exists y1, y2. repeat (split; [assumption|]).
  pose proof (wf_regressors _ _ _ W1 date) as R1.
  pose proof (wf_regressors _ _ _ W2 date) as R2.
  unfold predict, _regressors in *. rewrite <- Et, <- Eh in *.
  set (X := build_regressors [date] (trend (base self1))
              (harmonic_order (base self1))) in *.
  rewrite (wf_beta_shape _ _ _ W1) in H1. rewrite (wf_beta_shape _ _ _ W2) in H2.
  unfold np.dot in H1, H2.
  rewrite decide_True in H1 by (by rewrite R1).
  rewrite decide_True in H2 by (by rewrite R2).
  cbn [mbind result_bind np.cells] in H1, H2. unfold np.reshape in H1, H2.
  destruct (decide _) in H1; [|discriminate].
  destruct (decide _) in H2; [|discriminate].
  injection H1 as <-. injection H2 as <-.
  unfold lookup, grid_lookup. cbn [np.cells]. rewrite R1.
  rewrite R1 in R2. injection R2 as R2.
  cbn [fst snd np.chunks imap mjoin list_join]. rewrite !app_nil_r.
  rewrite !list_lookup_fmap.
  destruct (seq 0 (np.size sh) !! p) as [j|] eqn:Hj; [|reflexivity].
  apply lookup_seq in Hj as [-> _]. cbn [fmap option_fmap option_map Nat.add].
  by rewrite (column_local p _ _ Hb).
Qed.

(** X5: pixels are independent.  Two instances that agree at a pixel (its
    state and its regression coefficients) and on the regression settings
    and the critical value, monitored with two acquisitions that agree at
    that pixel, agree at that pixel afterwards, whatever the rest of the
    grids holds. *)
Theorem pixels_are_independent sh self1 self2 array1 array2 date (p : nat) :
  wf sh self1 -> wf sh self2 -> has_shape sh array1 -> has_shape sh array2 ->
  trend (base self1) = trend (base self2) ->
  harmonic_order (base self1) = harmonic_order (base self2) ->
  critval self1 = critval self2 ->
  Forall2 (fun f1 f2 : list float => f1 !! p = f2 !! p)
          (np.frames (beta (base self1))) (np.frames (beta (base self2))) ->
  pixel_at self1 p = pixel_at self2 p ->
  array1 !! p = array2 !! p ->
  exists self1' self2',
    CuSum_monitor self1 array1 date = Ok self1' /\
    CuSum_monitor self2 array2 date = Ok self2' /\
    pixel_at self1' p = pixel_at self2' p.
Proof.
  intros W1 W2 A1 A2 Et Eh Ec Hb Hpx Harr.
  destruct (monitor_pixelwise np_log float_pow build_regressors inner sh self1
              array1 date W1 A1)
    as (y1 & self1' & P1 & Y1 & M1 & W1' & _ & Hpix1).
  destruct (monitor_pixelwise np_log float_pow build_regressors inner sh self2
              array2 date W2 A2)
    as (y2 & self2' & P2 & Y2 & M2 & W2' & _ & Hpix2).
  exists self1', self2'. split; [exact M1|]. split; [exact M2|].
  destruct (predict_local sh self1 self2 date p W1 W2 Et Eh Hb)
    as (y1' & y2' & P1' & P2' & _ & _ & Hy).
  rewrite P1 in P1'. injection P1' as <-.
  rewrite P2 in P2'. injection P2' as <-.
  destruct (decide (p < np.size sh)%nat) as [Hp|Hp].
  - destruct (pixel_at_is_Some build_regressors sh self1 p W1 Hp) as [px Hpx1].
    destruct (has_shape_lookup sh y1 p Y1 Hp) as [pred Hpred].
    destruct (has_shape_lookup sh array1 p A1 Hp) as [obs Hobs].
    rewrite (Hpix1 p px obs pred Hpx1 Hobs Hpred).
    rewrite (Hpix2 p px obs pred); try congruence.
  - assert (Hnone : forall self, wf sh self -> pixel_at self p = None).
    { intros self W. unfold pixel_at.
      destruct (wf_mask _ _ _ W) as [_ L].
      assert (Hm : mask (base self) !! p = None).
      { unfold lookup, grid_lookup. apply lookup_ge_None_2. rewrite L.
        apply Nat.nlt_ge, Hp. }
      by rewrite Hm. }
    by rewrite !Hnone.
Qed.

End independence_proofs.

(** ** What the fit leaves in the arrays *)

Lemma scatter_length {A} (m : list bool) (frame vals : list A) :
  length (np.scatter m frame vals) = length frame.
Proof.
  revert frame vals. induction m as [|b m IH]; intros [|x0 frame] vals;
    simpl; try reflexivity.
  destruct b; [destruct vals|]; simpl; by rewrite IH.
Qed.

Lemma scatter_lookup_false {A} (m : list bool) (frame vals : list A) (p : nat) :
  m !! p = Some false -> np.scatter m frame vals !! p = frame !! p.
Proof.
  revert frame vals p. induction m as [|b m IH]; intros [|x0 frame] vals [|p] Hp;
    simpl in *; try done.
  - destruct b; [discriminate | reflexivity].
  - destruct b; [destruct vals|]; simpl; by apply IH.
Qed.

Lemma assign_masked_zeros (k : nat) sh (m : grid bool) (v : grid float) c :
  np.assign_masked (np.zeros k sh) m v = Ok c ->
  np.cshape c = sh /\ length (np.frames c) = k /\ np.wf_cube c /\
  forall (p : nat), m !! p = Some false -> (p < np.size sh)%nat ->
    Forall (fun frame : list float => frame !! p = Some 0%float) (np.frames c).
Proof.
  unfold np.assign_masked. simpl.
  destruct (decide (sh = np.shape m)); [|discriminate].
  destruct (decide _); [|discriminate]. intros [= <-]. simpl.
  rewrite length_replicate.
  set (vs := np.chunks k (np.count_true (np.cells m)) (np.cells v)).
  assert (Hl : length vs = k) by apply chunks_length.
  split; [reflexivity|]. split; [by rewrite length_zip_with, length_replicate, Hl; lia|].
  split.
  - unfold np.wf_cube. simpl. apply Forall_forall. intros f Hf.
    apply list_elem_of_lookup in Hf as [i Hi].
    apply lookup_zip_with_Some in Hi as (fr & vl & -> & Hfr & _).
    apply lookup_replicate in Hfr as [-> _].
    by rewrite scatter_length, length_replicate.
  - intros p Hp Hlt. apply Forall_forall. intros f Hf.
    apply list_elem_of_lookup in Hf as [i Hi].
    apply lookup_zip_with_Some in Hi as (fr & vl & -> & Hfr & _).
    apply lookup_replicate in Hfr as [-> _].
    rewrite scatter_lookup_false by exact Hp.
    apply lookup_replicate. by split.
Qed.

Lemma where_Ok_lookup {A} (c : grid bool) (a b g : grid A) (p : nat) (v : A) :
  np.where_ c a b = Ok g -> g !! p = Some v ->
  exists (ci : bool) (x y : A),
    c !! p = Some ci /\ a !! p = Some x /\ b !! p = Some y /\
    v = if ci then x else y.
Proof.
  unfold np.where_. intros H Hv. apply bind_Ok in H as (ab & Hab & H).
  apply map2_Ok in H as [_ ->]. apply map2_Ok in Hab as [_ ->].
  unfold lookup, grid_lookup in *. simpl in Hv.
  apply lookup_zip_with_Some in Hv as (ci & xy & -> & Hc & Hxy).
  apply lookup_zip_with_Some in Hxy as (x & y & -> & Hx & Hy).
  exists ci, x, y. by repeat split.
Qed.

Lemma full_like_lookup_Some {A B} (a : grid A) (v w : B) (p : nat) :
  np.full_like a v !! p = Some w -> w = v.
Proof.
  unfold lookup, grid_lookup. simpl. intros H.
  by apply lookup_replicate in H as [-> _].
Qed.

Lemma mark_unstable_lookup sh (mask mask' : grid Z) is_stable (p : nat) (m' : Z) :
  mark_unstable sh mask is_stable = Ok mask' -> mask' !! p = Some m' ->
  m' = 2 \/ mask !! p = Some m'.
Proof.
  unfold mark_unstable. intros H Hm. apply bind_Ok in H as (s2d & _ & H).
  destruct (where_Ok_lookup _ _ _ _ p m' H Hm) as (ci & x0 & y0 & _ & Hx & Hy & ->).
  apply full_like_lookup_Some in Hx. destruct ci; [by left | by right].
Qed.

Lemma mark_unstable_has_shape sh (mask mask' : grid Z) is_stable :
  has_shape sh mask -> mark_unstable sh mask is_stable = Ok mask' ->
  has_shape sh mask'.
Proof.
  unfold mark_unstable. intros Hm H. apply bind_Ok in H as (s2d & Hr & H).
  unfold np.reshape in Hr. destruct (decide _) as [L|]; [|discriminate].
  injection Hr as <-.
  destruct (where_has_shape sh (np.map1 negb (np.Grid sh is_stable))
              (np.full_like mask 2) mask) as (g & Hg & Sg & _).
  - split; simpl; [reflexivity | by rewrite length_fmap].
  - by apply full_like_has_shape.
  - exact Hm.
  - congruence.
Qed.

Section fit_result_proofs.

Variable shewhart : grid float -> grid float -> kwargs_t -> grid float.
Variable ccdc_rirls :
  grid float -> grid float -> grid float -> grid float -> kwargs_t -> grid float.
Variable ols : grid float -> grid float -> fit_out.
Variable rirls : grid float -> grid float -> kwargs_t -> fit_out.
Variable roc_stable_fit :
  grid float -> grid float -> list Z -> value -> float -> stable_fit_out.
Variable ccdc_stable_fit :
  grid float -> grid float -> list Z -> kwargs_t -> stable_fit_out.
Variable _cusum_rec_test_crit : value -> float.

Abbreviation fit_method :=
  (_fit_method ols rirls roc_stable_fit ccdc_stable_fit _cusum_rec_test_crit).
Abbreviation fit :=
  (_fit shewhart ccdc_rirls ols rirls roc_stable_fit ccdc_stable_fit
        _cusum_rec_test_crit).

(** The mask [_fit] starts from. *)
Lemma fit_Ok_inv self_mask trend X da method screen_outliers kwargs mask' beta residuals :
  outcome (fit self_mask trend X da method screen_outliers kwargs)
  = Ok (mask', beta, residuals) ->
  exists mask0 X' y_flat' kwargs' beta_flat residuals_flat,
    match self_mask with
    | Some m => mask0 = m
    | None => ones_like_first (np.cube_map np.float32 (values da)) = Ok mask0
    end /\
    np.cshape (values da) = np.shape mask0 /\
    outcome (fit_method trend X' y_flat' da mask0 method kwargs')
    = Ok (mask', (beta_flat, residuals_flat)) /\
    np.assign_masked (np.zeros (np.shape X).2 (np.cshape (values da)))
      (np.map1 (Z.eqb 1) mask0) (np.map1 np.float32 beta_flat) = Ok beta /\
    np.assign_masked (np.zeros (length (np.frames (values da)))
                               (np.cshape (values da)))
      (np.map1 (Z.eqb 1) mask0) (np.map1 np.float32 residuals_flat)
    = Ok residuals.
Proof.
  unfold _fit. intros H.
  apply py_bind_Ok in H as (mask0 & Hmask & H).
  apply py_bind_Ok in H as (y_flat & Hsel & H).
  apply py_bind_Ok in H as ([y_flat' kwargs'] & Hscreen & H).
  apply py_bind_Ok in H as ([mask1 [beta_flat residuals_flat]] & Hmethod & H).
  apply py_bind_Ok in H as (beta0 & Hbeta & H).
  apply py_bind_Ok in H as (res0 & Hres & H).
  injection H as <- <- <-.
  exists mask0, (np.map1 np.float32 X), y_flat', kwargs', beta_flat, residuals_flat.
  split; [destruct self_mask; simpl in Hmask; [by injection Hmask | exact Hmask]|].
  split.
  { simpl in Hsel. unfold np.select in Hsel.
    destruct (decide _) as [E|]; [exact E | discriminate]. }
  split; [exact Hmethod|]. simpl in Hbeta, Hres.
  rewrite length_fmap in Hres. by split.
Qed.

Lemma fit_method_mask trend X y_flat da mask method kwargs mask' out :
  outcome (fit_method trend X y_flat da mask method kwargs) = Ok (mask', out) ->
  ((method = "ROC" \/ method = "CCDC-stable") /\
   exists is_stable,
     mark_unstable (np.cshape (values da)) mask is_stable = Ok mask') \/
  (method <> "ROC" /\ method <> "CCDC-stable" /\ mask' = mask).
Proof.
  unfold _fit_method.
  destruct (String.eqb_spec method "ROC") as [->|N1].
  { intros H. left. apply py_bind_Ok in H as (alpha & _ & H). simpl in H.
    destruct (roc_stable_fit _ _ _ _ _) as [[bf rf] is_stable].
    apply py_bind_Ok in H as (m1 & Hm & H). injection H as <- _.
    split; [by left | by exists is_stable]. }
  destruct (String.eqb_spec method "CCDC-stable") as [->|N2].
  { destruct (negb trend); [discriminate|]. intros H. left. simpl in H.
    destruct (ccdc_stable_fit _ _ _ _) as [[bf rf] is_stable].
    apply py_bind_Ok in H as (m1 & Hm & H). injection H as <- _.
    split; [by right | by exists is_stable]. }
  destruct (String.eqb method "OLS"); [intros [= <- _]; by right|].
  destruct (String.eqb method "LASSO"); [discriminate|].
  destruct (String.eqb method "RIRLS"); [intros [= <- _]; by right | discriminate].
Qed.


Lemma fit_shapes
  self_mask trend X da method screen_outliers kwargs mask' beta residuals :
  outcome (fit self_mask trend X da method screen_outliers kwargs)
  = Ok (mask', beta, residuals) ->
  (np.cshape beta = np.cshape (values da) /\
   length (np.frames beta) = (np.shape X).2 /\ np.wf_cube beta) /\
  (np.cshape residuals = np.cshape (values da) /\
   length (np.frames residuals) = length (np.frames (values da)) /\
   np.wf_cube residuals).
Proof.
  intros H.
  destruct (fit_Ok_inv _ _ _ _ _ _ _ _ _ _ H)
    as (mask0 & X' & y' & kw' & bf & rf & _ & _ & _ & Hb & Hr).
  apply assign_masked_zeros in Hb as (B1 & B2 & B3 & _).
  apply assign_masked_zeros in Hr as (R1 & R2 & R3 & _).
  by repeat split.
Qed.

Lemma fit_zero_outside
  mask trend X da method screen_outliers kwargs mask' beta residuals
  (p : nat) (m : Z) :
  outcome (fit (Some mask) trend X da method screen_outliers kwargs)
  = Ok (mask', beta, residuals) ->
  mask !! p = Some m -> m <> 1 -> (p < np.size (np.cshape (values da)))%nat ->
  Forall (fun frame : list float => frame !! p = Some 0%float) (np.frames beta) /\
  Forall (fun frame : list float => frame !! p = Some 0%float)
         (np.frames residuals).
Proof.
  intros H Hm Hne Hp.
  destruct (fit_Ok_inv _ _ _ _ _ _ _ _ _ _ H)
    as (mask0 & X' & y' & kw' & bf & rf & -> & _ & _ & Hb & Hr).
  assert (Hfalse : np.map1 (Z.eqb 1) mask !! p = Some false).
  { rewrite (map1_lookup _ _ _ _ Hm). f_equal. apply Z.eqb_neq. congruence. }
  apply assign_masked_zeros in Hb as (_ & _ & _ & Hb).
  apply assign_masked_zeros in Hr as (_ & _ & _ & Hr).
  split; auto.
Qed.

Lemma fit_mask_has_shape
  self_mask trend X da method screen_outliers kwargs mask' beta residuals :
  outcome (fit self_mask trend X da method screen_outliers kwargs)
  = Ok (mask', beta, residuals) ->
  np.wf_cube (values da) ->
  match self_mask with
  | Some m => has_shape (np.cshape (values da)) m
  | None => True
  end ->
  has_shape (np.cshape (values da)) mask'.
Proof.
  intros H Wda Hmask.
  destruct (fit_Ok_inv _ _ _ _ _ _ _ _ _ _ H)
    as (mask0 & X' & y' & kw' & bf & rf & Hmask0 & _ & Hmethod & _ & _).
  assert (H0 : has_shape (np.cshape (values da)) mask0).
  { destruct self_mask as [m|]; [by subst|].
    unfold ones_like_first in Hmask0. simpl in Hmask0.
    unfold np.wf_cube in Wda.
    destruct (np.frames (values da)) as [|frame rest]; [discriminate|].
    simpl in Hmask0. injection Hmask0 as <-.
    apply Forall_cons in Wda as [L _].
    split; simpl; [reflexivity|]. by rewrite length_replicate, length_fmap. }
  destruct (fit_method_mask _ _ _ _ _ _ _ _ _ Hmethod)
    as [[_ [is_stable Hmark]] | (_ & _ & ->)]; [|exact H0].
  by eapply mark_unstable_has_shape.
Qed.

(** X6: a successful [_fit] returns arrays over the whole grid, whatever
    the mask: one frame of coefficients per column of the design matrix and
    one frame of residuals per acquisition, every frame with one cell per
    pixel of the grid. *)
Theorem fit_returns_full_grid
  self_mask trend X da method screen_outliers kwargs mask' beta residuals :
  outcome (fit self_mask trend X da method screen_outliers kwargs)
  = Ok (mask', beta, residuals) ->
  (np.cshape beta = np.cshape (values da) /\
   length (np.frames beta) = (np.shape X).2 /\ np.wf_cube beta) /\
  (np.cshape residuals = np.cshape (values da) /\
   length (np.frames residuals) = length (np.frames (values da)) /\
   np.wf_cube residuals).
Proof.
  intros H.
  destruct (fit_Ok_inv _ _ _ _ _ _ _ _ _ _ H)
    as (mask0 & X' & y' & kw' & bf & rf & _ & _ & _ & Hb & Hr).
  destruct (assign_masked_zeros _ _ _ _ _ Hb) as (B1 & B2 & B3 & _).
  destruct (assign_masked_zeros _ _ _ _ _ Hr) as (R1 & R2 & R3 & _).
  split; [split; [exact B1 | split; [exact B2 | exact B3]]|].
  split; [exact R1 | split; [exact R2 | exact R3]].
Qed.

(** X7: at a pixel the mask excludes from the fit (mask code other than 1)
    every coefficient and every residual [_fit] returns is exactly [0.0]. *)
Theorem fit_is_zero_outside_mask
  mask trend X da method screen_outliers kwargs mask' beta residuals
  (p : nat) (m : Z) :
  outcome (fit (Some mask) trend X da method screen_outliers kwargs)
  = Ok (mask', beta, residuals) ->
  mask !! p = Some m -> m <> 1 -> (p < np.size (np.cshape (values da)))%nat ->
  Forall (fun frame : list float => frame !! p = Some 0%float) (np.frames beta) /\
  Forall (fun frame : list float => frame !! p = Some 0%float)
         (np.frames residuals).
Proof.
  intros H Hm Hne Hp.
  destruct (fit_Ok_inv _ _ _ _ _ _ _ _ _ _ H)
    as (mask0 & X' & y' & kw' & bf & rf & -> & _ & _ & Hb & Hr).
  assert (Hfalse : np.map1 (Z.eqb 1) mask !! p = Some false).
  { rewrite (map1_lookup _ _ _ _ Hm). f_equal. apply Z.eqb_neq. congruence. }
  destruct (assign_masked_zeros _ _ _ _ _ Hb) as (_ & _ & _ & Zb).
  destruct (assign_masked_zeros _ _ _ _ _ Hr) as (_ & _ & _ & Zr).
  split; [exact (Zb p Hfalse Hp) | exact (Zr p Hfalse Hp)].
Qed.

(** X8: the only change [_fit] makes to the mask is to write code 2
    (unstable history), and only the stability-aware methods write it:
    every cell of the mask it leaves is 2 or the cell it started from (1
    when no mask was set), and with 'OLS' and 'RIRLS' the mask is the one
    it started from. *)
Theorem fit_writes_only_code_2
  self_mask trend X da method screen_outliers kwargs mask' beta residuals :
  outcome (fit self_mask trend X da method screen_outliers kwargs)
  = Ok (mask', beta, residuals) ->
  (forall (p : nat) (m' : Z), mask' !! p = Some m' ->
     m' = 2 \/ match self_mask with
               | Some mask => mask !! p = Some m'
               | None => m' = 1
               end) /\
  (method <> "ROC" -> method <> "CCDC-stable" ->
   match self_mask with
   | Some mask => mask' = mask
   | None => ones_like_first (np.cube_map np.float32 (values da)) = Ok mask'
   end).
Proof.
  intros H.
  destruct (fit_Ok_inv _ _ _ _ _ _ _ _ _ _ H)
    as (mask0 & X' & y' & kw' & bf & rf & Hmask0 & _ & Hmethod & _ & _).
  assert (Hstart : forall (p : nat) (m' : Z), mask0 !! p = Some m' ->
            match self_mask with
            | Some mask => mask !! p = Some m'
            | None => m' = 1
            end).
  { intros p m' Hp. destruct self_mask as [mask|]; [by subst|].
    unfold ones_like_first in Hmask0.
    destruct (np.frames _) as [|frame ?]; [discriminate|].
    injection Hmask0 as <-. unfold lookup, grid_lookup in Hp. simpl in Hp.
    by apply lookup_replicate in Hp as [-> _]. }
  destruct (fit_method_mask _ _ _ _ _ _ _ _ _ Hmethod)
    as [[Hst [is_stable Hmark]] | (N1 & N2 & ->)].
  - split.
    + intros p m' Hp.
      destruct (mark_unstable_lookup _ _ _ _ _ _ Hmark Hp) as [->|H0];
        [by left | right; by apply Hstart].
    + intros N1 N2. by destruct Hst.
  - split; [intros p m' Hp; right; by apply Hstart|].
    intros _ _. destruct self_mask; [by subst | exact Hmask0].
Qed.

End fit_result_proofs.

(** ** The instance [CuSum.fit] leaves *)

Lemma mapM_Ok {A B} (f : A -> result B) (l : list A) (l' : list B) :
  mapM f l = Ok l' -> Forall2 (fun a b => f a = Ok b) l l'.
Proof.
  revert l'. induction l as [|a l IH]; intros l' H; simpl in H.
  - injection H as <-. constructor.
  - apply bind_Ok in H as (b & Hb & H). apply bind_Ok in H as (k & Hk & H).
    injection H as <-. constructor; [exact Hb | by apply IH].
Qed.

Lemma foldl_zip_with_length {A B} (f : A -> B -> A) (k : nat)
  (frames : list (list B)) (acc : list A) :
  length acc = k -> Forall (fun frame => length frame = k) frames ->
  length (foldl (fun acc frame => zip_with f acc frame) acc frames) = k.
Proof.
  intros Hacc Hf. revert acc Hacc.
  induction Hf as [|frame frames Hfr _ IH]; intros acc Hacc; simpl; [exact Hacc|].
  apply IH. rewrite length_zip_with. lia.
Qed.

(** The count of the values that are not NaN, at one pixel. *)
Lemma count_lookup (frames : list (list float)) (acc : list Z) (p : nat) (c : Z) :
  foldl (fun acc frame =>
           zip_with (fun c r => c + Z.b2z (negb (np.isnan r))) acc frame)
        acc frames !! p = Some c ->
  exists a, acc !! p = Some a /\ a <= c <= a + Z.of_nat (length frames) /\
    (Forall (fun frame : list float => frame !! p = Some 0%float) frames ->
     c = a + Z.of_nat (length frames)).
Proof.
  revert acc. induction frames as [|frame frames IH]; intros acc H; simpl in H.
  - exists c. split; [exact H|]. simpl. split; [lia | intros _; lia].
  - destruct (IH _ H) as (a' & Ha' & Hb & He).
    apply lookup_zip_with_Some in Ha' as (a & r & -> & Ha & Hr).
    exists a. split; [exact Ha|]. cbn [length].
    split; [destruct (negb (np.isnan r)); simpl in *; lia|].
    intros HF. apply Forall_cons in HF as [H0 HF]. rewrite (He HF).
    rewrite Hr in H0. injection H0 as ->. simpl. lia.
Qed.

Section cusum_fit_result_proofs.

Variable build_regressors : list Z -> bool -> Z -> grid float.
Variable shewhart : grid float -> grid float -> kwargs_t -> grid float.
Variable ccdc_rirls :
  grid float -> grid float -> grid float -> grid float -> kwargs_t -> grid float.
Variable ols : grid float -> grid float -> fit_out.
Variable rirls : grid float -> grid float -> kwargs_t -> fit_out.
Variable roc_stable_fit :
  grid float -> grid float -> list Z -> value -> float -> stable_fit_out.
Variable ccdc_stable_fit :
  grid float -> grid float -> list Z -> kwargs_t -> stable_fit_out.
Variable _cusum_rec_test_crit : value -> float.
Variable _cusum_ols_test_crit : float -> float.
Variable np_nanstd : cube float -> nat -> grid float.

Abbreviation fit :=
  (_fit shewhart ccdc_rirls ols rirls roc_stable_fit ccdc_stable_fit
        _cusum_rec_test_crit).
Abbreviation cusum_fit :=
  (CuSum_fit build_regressors shewhart ccdc_rirls ols rirls roc_stable_fit
             ccdc_stable_fit _cusum_rec_test_crit _cusum_ols_test_crit
             np_nanstd).

Abbreviation design self da :=
  (build_regressors (time da) (init_trend self) (init_harmonic_order self)).

Lemma cusum_fit_Ok_inv self da method alpha screen_outliers kwargs fitted :
  outcome (cusum_fit self da method alpha screen_outliers kwargs) = Ok fitted ->
  exists mask beta residuals scale residuals_ process,
    outcome (fit (init_mask self) (init_trend self) (design self da) da method screen_outliers
                 (<["alpha" := alpha]> kwargs)) = Ok (mask, beta, residuals) /\
    np.map2 (fun s h => np.mul32 s (np.sqrt32 (np.of_int h)))
            (np_nanstd residuals (np.shape (design self da)).2)
            (np.map1 np.wrap16 (count_not_nan residuals)) = Ok scale /\
    mapM (fun frame =>
            np.cells <$> np.map2 np.div32
                           (np.Grid (np.cshape residuals) frame) scale)
         (np.frames residuals) = Ok residuals_ /\
    nancumsum_last (np.cshape residuals) residuals_ = Ok process /\
    fitted = mkCuSum
          (mkBaseNrt mask (init_trend self) (init_harmonic_order self)
                     (da_x da) (da_y da) beta process
                     (BoundaryU16 (np.full_like
                        (np.map1 np.wrap16 (count_not_nan residuals))
                        (np.astype_uint16 nan))))
          (init_sensitivity self)
          (_cusum_ols_test_crit (init_sensitivity self))
          (np_nanstd residuals (np.shape (design self da)).2)
          (np.map1 np.wrap16 (count_not_nan residuals))
          (np.map1 np.wrap16 (count_not_nan residuals)).
Proof.
  unfold CuSum_fit. intros H.
  apply py_bind_Ok in H as ([[mask beta] residuals] & Hfit & H).
  apply py_bind_Ok in H as (scale & Hscale & H).
  apply py_bind_Ok in H as (residuals_ & Hres & H).
  apply py_bind_Ok in H as (process & Hproc & H).
  injection H as <-.
  exists mask, beta, residuals, scale, residuals_, process. by repeat split.
Qed.

(** X9: [CuSum.fit] on a history with no acquisition raises: where nothing
    raised before, the last frame of the cumulated residuals,
    [np.nancumsum(...)[-1]], does not exist. *)
Theorem fit_on_empty_history_raises self da method alpha screen_outliers kwargs :
  np.frames (values da) = [] ->
  exists e,
    outcome (cusum_fit self da method alpha screen_outliers kwargs) = Raise e.
Proof.
  intros Hempty.
  destruct (outcome (cusum_fit self da method alpha screen_outliers kwargs))
    as [fitted|e] eqn:H; [|by exists e].
  exfalso.
  destruct (cusum_fit_Ok_inv _ _ _ _ _ _ _ H)
    as (mask & beta & residuals & scale & residuals_ & process
        & Hfit & _ & Hmap & Hproc & _).
  destruct (fit_shapes _ _ _ _ _ _ _ _ _ _ _ _ _ _ _ _ _ Hfit)
    as (_ & _ & L & _).
  rewrite Hempty in L. destruct (np.frames residuals); [|discriminate].
  simpl in Hmap. injection Hmap as <-. discriminate.
Qed.


Lemma count_not_nan_has_shape (residuals : cube float) :
  np.wf_cube residuals ->
  has_shape (np.cshape residuals) (count_not_nan residuals).
Proof.
  intros W. split; simpl; [reflexivity|].
  apply foldl_zip_with_length; [apply length_replicate | exact W].
Qed.

Lemma histsize_lookup (residuals : cube float) (p : nat) (h : Z) :
  np.map1 np.wrap16 (count_not_nan residuals) !! p = Some h ->
  0 <= h <= Z.of_nat (length (np.frames residuals)) /\
  (Forall (fun frame : list float => frame !! p = Some 0%float)
          (np.frames residuals) ->
   h = Z.of_nat (length (np.frames residuals)) mod 65536).
Proof.
  unfold lookup, grid_lookup. simpl. rewrite list_lookup_fmap.
  destruct (foldl _ _ _ !! p) as [c|] eqn:Hc; [|discriminate].
  intros [= <-]. destruct (count_lookup _ _ _ _ Hc) as (a & Ha & Hb & He).
  apply lookup_replicate in Ha as [-> _]. unfold np.wrap16. split.
  - pose proof (Z.mod_pos_bound c 65536 eq_refl).
    pose proof (Z.mod_le c 65536). lia.
  - intros HF. by rewrite (He HF).
Qed.

(** X10: the observation counts [CuSum.fit] leaves.  [n] starts as
    [histsize], and the count of a pixel is at most the number of
    acquisitions of the history. *)
Theorem fit_counts_at_most_history
  self da method alpha screen_outliers kwargs fitted :
  outcome (cusum_fit self da method alpha screen_outliers kwargs) = Ok fitted ->
  n fitted = histsize fitted /\
  forall (p : nat) (h : Z), histsize fitted !! p = Some h ->
    0 <= h <= Z.of_nat (length (np.frames (values da))).
Proof.
  intros H.
  destruct (cusum_fit_Ok_inv _ _ _ _ _ _ _ H)
    as (mask & beta & residuals & scale & residuals_ & process
        & Hfit & _ & _ & _ & ->).
  split; [reflexivity|]. simpl. intros p h Hh.
  destruct (fit_shapes _ _ _ _ _ _ _ _ _ _ _ _ _ _ _ _ _ Hfit)
    as (_ & _ & L & _).
  rewrite <- L. by destruct (histsize_lookup _ _ _ Hh).
Qed.

(** X11: a pixel the mask excludes from the fit is counted as observed at
    every acquisition: its residuals are the zeros [_fit] leaves there, not
    NaN, so its [histsize] (and [n]) is the number of acquisitions of the
    history (modulo [2^16]), whatever the data hold at that pixel. *)
Theorem excluded_pixel_counts_whole_history
  self da method alpha screen_outliers kwargs fitted mask (p : nat) (m : Z) :
  outcome (cusum_fit self da method alpha screen_outliers kwargs) = Ok fitted ->
  init_mask self = Some mask ->
  mask !! p = Some m -> m <> 1 -> (p < np.size (np.cshape (values da)))%nat ->
  histsize fitted !! p
  = Some (Z.of_nat (length (np.frames (values da))) mod 65536).
Proof.
  intros H Hmask Hm Hne Hp.
  destruct (cusum_fit_Ok_inv _ _ _ _ _ _ _ H)
    as (mask' & beta & residuals & scale & residuals_ & process
        & Hfit & _ & _ & _ & ->).
  simpl. rewrite Hmask in Hfit.
  destruct (fit_shapes _ _ _ _ _ _ _ _ _ _ _ _ _ _ _ _ _ Hfit)
    as (_ & E & L & W).
  destruct (fit_zero_outside _ _ _ _ _ _ _ _ _ _ _ _ _ _ _ _ _ _ _ Hfit Hm Hne Hp)
    as [_ Hz].
  destruct (has_shape_lookup (np.cshape (values da))
              (np.map1 np.wrap16 (count_not_nan residuals)) p) as [h Hh].
  { apply map1_has_shape. rewrite <- E. by apply count_not_nan_has_shape. }
  { exact Hp. }
  destruct (histsize_lookup _ _ _ Hh) as [_ He].
  rewrite Hh, <- L. f_equal. by apply He.
Qed.

Section fitted_instance.
Variable np_log : float -> float.
Variable float_pow : float -> float -> float.
Variable inner : np.dot_kernel.
Variable ncols : bool -> Z -> nat.

(** The design matrix has one row per date and a number of columns that
    the regression settings fix, and [np.nanstd(a, axis=0)] has the shape
    of a frame of [a]. *)
Hypothesis regressors_shape : forall dates trend harmonic_order,
  np.shape (build_regressors dates trend harmonic_order)
  = (length dates, ncols trend harmonic_order).
Hypothesis nanstd_shape : forall c ddof, has_shape (np.cshape c) (np_nanstd c ddof).

Lemma cusum_fit_wf self da method alpha screen_outliers kwargs fitted :
  np.wf_cube (values da) ->
  match init_mask self with
  | Some m => has_shape (np.cshape (values da)) m
  | None => True
  end ->
  outcome (cusum_fit self da method alpha screen_outliers kwargs) = Ok fitted ->
  wf_CuSum build_regressors (np.cshape (values da)) fitted.
Proof.
  intros Wda Hmask H.
  destruct (cusum_fit_Ok_inv _ _ _ _ _ _ _ H)
    as (mask & beta & residuals & scale & residuals_ & process
        & Hfit & Hscale & Hmap & Hproc & ->).
  destruct (fit_shapes _ _ _ _ _ _ _ _ _ _ _ _ _ _ _ _ _ Hfit)
    as ((Eb & Lb & Wb) & (Er & Lr & Wr)).
  pose proof (fit_mask_has_shape _ _ _ _ _ _ _ _ _ _ _ _ _ _ _ _ _
                Hfit Wda Hmask) as Hm.
  pose proof (count_not_nan_has_shape residuals Wr) as Hc. rewrite Er in Hc.
  pose proof (map1_has_shape np.wrap16 _ _ Hc) as Hh.
  pose proof (nanstd_shape residuals (np.shape (design self da)).2) as Hs.
  rewrite Er in Hs.
  constructor; simpl; try assumption.
  - apply map2_Ok in Hscale as [_ ->].
    apply mapM_Ok in Hmap.
    unfold nancumsum_last in Hproc.
    destruct residuals_ as [|first rest]; [discriminate|].
    injection Hproc as <-. rewrite Er. split; simpl; [reflexivity|].
    assert (HF : Forall (fun frame : list float =>
                          length frame = np.size (np.cshape (values da)))
                        (first :: rest)).
    { apply Forall_forall. intros r Hr.
      apply list_elem_of_lookup in Hr as [i Hi].
      destruct (Forall2_lookup_r _ _ _ _ _ Hmap Hi) as (frame & Hframe & Hdiv).
      simpl in Hdiv. unfold np.map2 in Hdiv. simpl in Hdiv.
      destruct (decide _); [|discriminate]. simpl in Hdiv.
      injection Hdiv as <-. rewrite !length_zip_with.
      destruct Hs as [_ Ls]. destruct Hh as [_ Lh].
      unfold np.wf_cube in Wr. rewrite Forall_lookup in Wr.
      specialize (Wr _ _ Hframe). simpl in Wr. rewrite Er in Wr.
      simpl in Lh. lia. }
    apply Forall_cons in HF as [L1 HF].
    apply foldl_zip_with_length; [by rewrite length_fmap | exact HF].
  - by apply map1_has_shape, full_like_has_shape.
  - intros date. unfold _regressors. simpl.
    by rewrite regressors_shape, Lb, regressors_shape.
  - apply Forall_forall. intros z Hz. apply list_elem_of_fmap in Hz as (c & -> & _).
    unfold is_uint16, np.wrap16. apply Z.mod_pos_bound. lia.
Qed.

(** X12: fitting and monitoring compose.  On a history whose frames all
    cover the grid (and with a mask, if one was set, of the grid's shape) a
    successful [CuSum.fit] leaves an instance every array of which has the
    shape of the grid, and [monitor] on any acquisition of that shape
    returns, with an instance of the same kind. *)
Theorem fitted_instance_can_be_monitored
  self da method alpha screen_outliers kwargs fitted :
  np.wf_cube (values da) ->
  match init_mask self with
  | Some m => has_shape (np.cshape (values da)) m
  | None => True
  end ->
  outcome (cusum_fit self da method alpha screen_outliers kwargs) = Ok fitted ->
  wf_CuSum build_regressors (np.cshape (values da)) fitted /\
  forall array date, has_shape (np.cshape (values da)) array ->
    exists self',
      CuSum_monitor np_log float_pow build_regressors inner fitted array date
      = Ok self' /\
      wf_CuSum build_regressors (np.cshape (values da)) self'.
Proof.
  intros Wda Hmask H.
  pose proof (cusum_fit_wf _ _ _ _ _ _ _ Wda Hmask H) as W.
  split; [exact W|]. intros array date Harr.
  destruct (monitor_pixelwise np_log float_pow build_regressors inner _ fitted
              array date W Harr)
    as (y_pred & self' & _ & _ & Hmon & W' & _).
  by exists self'.
Qed.

End fitted_instance.

End cusum_fit_result_proofs.

(** ** The default break detector where the quotient is not finite *)

Lemma not_finite_Prim2SF (v : float) :
  np.isfinite v = false ->
  match Prim2SF v with
  | S754_nan | S754_infinity _ => True
  | _ => False
  end.
Proof.
  unfold np.isfinite, is_finite, is_nan, is_infinity.
  rewrite !FloatAxioms.eqb_spec, abs_spec.
  change (Prim2SF infinity) with (S754_infinity false).
  destruct (Prim2SF v) as [s|s| |s m e]; simpl; try done.
  unfold SFeqb. simpl. rewrite Z.compare_refl.
  change (PosDef.Pos.compare_cont Eq m m) with (m ?= m)%positive.
  rewrite Pos.compare_refl. by destruct s.
Qed.

Lemma isnan_Prim2SF (v : float) : np.isnan v = true -> Prim2SF v = S754_nan.
Proof.
  unfold np.isnan, is_nan. rewrite FloatAxioms.eqb_spec.
  destruct (Prim2SF v) as [s|s| |s m e]; simpl; try done;
    try (by destruct s).
  unfold SFeqb. simpl. rewrite Z.compare_refl.
  change (PosDef.Pos.compare_cont Eq m m) with (m ?= m)%positive.
  rewrite Pos.compare_refl. by destruct s.
Qed.

Lemma div_by_zero_trunc (a b : float) :
  (b =? 0)%float = true -> np.trunc (a / b) = None.
Proof.
  rewrite FloatAxioms.eqb_spec. unfold np.trunc. rewrite div_spec.
  change (Prim2SF 0) with (S754_zero false). unfold SF64div.
  destruct (Prim2SF a) as [sa|sa| |sa ma ea], (Prim2SF b) as [sb|sb| |sb mb eb];
    simpl; try done; by destruct sb.
Qed.

Lemma floor_divide_undefined (pr bd : float) :
  np.isfinite pr = false \/ np.isnan bd = true \/ (bd =? 0)%float = true ->
  np.astype_uint8 (np.floor_divide pr bd) = 0.
Proof.
  intros H. unfold np.astype_uint8, np.astype_unsigned.
  assert (Ht : np.trunc (np.floor_divide pr bd) = None); [|by rewrite Ht].
  destruct H as [H|[H|H]].
  - apply not_finite_Prim2SF in H. unfold np.floor_divide.
    destruct (Prim2SF pr) as [sa|sa| |sa ma ea] eqn:Ea; try done.
    destruct (Prim2SF bd) as [sb|sb| |sb mb eb] eqn:Eb; try done.
    unfold np.trunc. rewrite div_spec, Ea, Eb. reflexivity.
  - apply isnan_Prim2SF in H. unfold np.floor_divide. rewrite H.
    by destruct (Prim2SF pr).
  - pose proof (div_by_zero_trunc pr bd H) as Hz.
    revert H. rewrite FloatAxioms.eqb_spec.
    change (Prim2SF 0) with (S754_zero false). intros H.
    unfold np.floor_divide.
    destruct (Prim2SF bd) as [sb|sb| |sb mb eb] eqn:Eb;
      try (exfalso; revert H; clear; by destruct sb).
    + by destruct (Prim2SF pr).
    + discriminate.
Qed.

(** X13: the default break detector never flags a pixel whose quotient
    [process / boundary] is not a finite number: a process that is NaN or
    infinite, a boundary that is NaN, or a boundary that is zero.  The
    floor division gives NaN or an infinity there, which the conversion to
    [uint8] turns into 0. *)
Theorem default_break_ignores_undefined_quotient
  (self : BaseNrt) (is_break : grid Z) (p : nat) (pr bd : float) :
  BaseNrt_detect_break self = Ok is_break ->
  process self !! p = Some pr ->
  as_float64 (boundary self) !! p = Some bd ->
  np.isfinite pr = false \/ np.isnan bd = true \/ (bd =? 0)%float = true ->
  is_break !! p = Some 0 /\ truth (0 : Z) = false.
Proof.
  intros H Hpr Hbd Hq. unfold BaseNrt_detect_break in H.
  apply bind_Ok in H as (q & Hdiv & H). injection H as <-.
  apply map2_Ok in Hdiv as [_ ->]. split; [|reflexivity].
  unfold lookup, grid_lookup in *. simpl.
  rewrite list_lookup_fmap, lookup_zip_with, Hpr. simpl. rewrite Hbd. simpl.
  f_equal. by apply floor_divide_undefined.
Qed.

(** ** Symmetries of the statistics *)

Lemma abs_opp (v : float) : PrimFloat.abs (- v) = PrimFloat.abs v.
Proof.
  apply Prim2SF_inj. rewrite !abs_spec, opp_spec.
  by destruct (Prim2SF v).
Qed.

Lemma binary_round_aux_opp p em (s : bool) m e l :
  binary_round_aux p em (negb s) m e l = SFopp (binary_round_aux p em s m e l).
Proof.
  unfold binary_round_aux.
  destruct (shr_fexp p em m e l) as [mrs e'].
  destruct (shr_fexp p em _ e' loc_Exact) as [mrs' e''].
  destruct (shr_m mrs'); try done.
  by destruct (_ <=? _).
Qed.

Lemma div_opp_l (a b : float) : (- a / b)%float = (- (a / b))%float.
Proof.
  apply Prim2SF_inj. rewrite opp_spec, !div_spec, opp_spec. unfold SF64div.
  destruct (Prim2SF a) as [sa|sa| |sa ma ea], (Prim2SF b) as [sb|sb| |sb mb eb];
    simpl; try reflexivity; try (by destruct sa, sb).
  destruct (SFdiv_core_binary prec emax (Z.pos ma) ea (Z.pos mb) eb) as [[mz ez] lz].
  rewrite <- binary_round_aux_opp. by destruct sa, sb.
Qed.

Lemma square_opp (q : float) : np.square (- q) = np.square q.
Proof.
  unfold np.square. apply Prim2SF_inj. rewrite !mul_spec, opp_spec. unfold SF64mul.
  destruct (Prim2SF q) as [s|s| |s m e]; simpl; try reflexivity;
    by destruct s.
Qed.


Lemma pos_opp_not_nonneg (v : float) :
  (0 <? v)%float = true -> (0 <=? v)%float = true /\ (0 <=? - v)%float = false.
Proof.
  rewrite FloatAxioms.ltb_spec, !FloatAxioms.leb_spec, opp_spec.
  change (Prim2SF 0) with (S754_zero false).
  destruct (Prim2SF v) as [s|s| |s m e]; simpl; try done; by destruct s.
Qed.

(** X16: [erfcc] of a negative argument is the reflection of its value at
    the positive one: [erfcc(-v) = 2 - erfcc(v)] for every [v > 0], exactly
    in [float64], whatever [np.exp] returns. *)
Theorem erfcc_reflection np_exp (v : float) :
  (0 <? v)%float = true ->
  stats.erfcc np_exp (- v) = (2 - stats.erfcc np_exp v)%float.
Proof.
  intros Hv. destruct (pos_opp_not_nonneg v Hv) as [H1 H2].
  unfold stats.erfcc. by rewrite abs_opp, H1, H2.
Qed.

(** ** The transform of the report *)

Lemma item_short (l : list float) (i : nat) :
  (length l <= i)%nat -> exists msg, np.item l i = Raise (IndexError msg).
Proof.
  intros H. unfold np.item. rewrite lookup_ge_None_2 by exact H. by eexists.
Qed.

Lemma item_Ok (l : list float) (i : nat) :
  (i < length l)%nat -> exists v, np.item l i = Ok v.
Proof.
  intros H. unfold np.item.
  destruct (lookup_lt_is_Some_2 l i H) as [v ->]. by eexists.
Qed.

(** X17: with both coordinate arrays set, [transform] needs two
    coordinates on each axis to measure the pixel size: when [x] or [y]
    holds fewer than two values (a grid of one column or of one row) it
    raises [IndexError]. *)
Theorem transform_needs_two_coordinates (x y : list float) :
  (length x < 2)%nat \/ (length y < 2)%nat ->
  exists msg, outcome (transform (Some x) (Some y)) = Raise (IndexError msg).
Proof.
  intros H. unfold transform.
  destruct (decide (length y < 2)%nat) as [Hy|Hy].
  - destruct (decide (length y < 1)%nat) as [Hy0|Hy0].
    + destruct (item_short y 0) as [msg E]; [lia|]. exists msg.
      apply py_bind_Raise_l. simpl. exact E.
    + destruct (item_Ok y 0) as [v0 E0]; [lia|].
      rewrite (py_bind_outcome _ _ v0) by exact E0.
      destruct (item_short y 1) as [msg E]; [lia|]. exists msg.
      apply py_bind_Raise_l. simpl. exact E.
  - destruct H as [Hx|Hx]; [|contradiction].
    destruct (item_Ok y 0) as [v0 E0]; [lia|].
    destruct (item_Ok y 1) as [v1 E1]; [lia|].
    rewrite (py_bind_outcome _ _ v0) by exact E0.
    rewrite (py_bind_outcome _ _ v1) by exact E1.
    destruct (decide (length x < 1)%nat) as [Hx0|Hx0].
    + destruct (item_short x 0) as [msg E]; [lia|]. exists msg.
      apply py_bind_Raise_l. simpl. exact E.
    + destruct (item_Ok x 0) as [w0 F0]; [lia|].
      rewrite (py_bind_outcome _ _ w0) by exact F0.
      destruct (item_short x 1) as [msg E]; [lia|]. exists msg.
      apply py_bind_Raise_l. simpl. exact E.
Qed.

Lemma abs_not_negative (v : float) : (PrimFloat.abs v <? 0)%float = false.
Proof.
  rewrite FloatAxioms.ltb_spec, abs_spec.
  change (Prim2SF 0) with (S754_zero false).
  by destruct (Prim2SF v) as [s|s| |s m e].
Qed.

Lemma opp_abs_not_positive (v : float) : (0 <? - PrimFloat.abs v)%float = false.
Proof.
  rewrite FloatAxioms.ltb_spec, opp_spec, abs_spec.
  change (Prim2SF 0) with (S754_zero false).
  by destruct (Prim2SF v) as [s|s| |s m e].
Qed.

(** X18: the transform [transform] builds from the coordinates is never
    rotated or sheared ([b = d = 0]), its pixel width [a] is never negative
    and its row step [e] is never positive, whatever the order in which the
    coordinates are stored. *)
Theorem transform_is_north_up (x y : list float) (aff : Affine) :
  outcome (transform (Some x) (Some y)) = Ok aff ->
  aff_b aff = 0%float /\ aff_d aff = 0%float /\
  (aff_a aff <? 0)%float = false /\ (0 <? aff_e aff)%float = false.
Proof.
  unfold transform. intros H.
  apply py_bind_Ok in H as (y0 & _ & H).
  apply py_bind_Ok in H as (y1 & _ & H).
  apply py_bind_Ok in H as (x0 & _ & H).
  apply py_bind_Ok in H as (x1 & _ & H).
  apply py_bind_Ok in H as (y_max & _ & H).
  apply py_bind_Ok in H as (x_min & _ & H).
  injection H as <-. simpl.
  split; [reflexivity|]. split; [reflexivity|].
  split; [apply abs_not_negative | apply opp_abs_not_positive].
Qed.


(** ** The theorems on the small instance *)

Lemma example_instance_wf :
  wf_CuSum example.regressors example.sh example.instance.
Proof.
  constructor; try (split; reflexivity); try reflexivity.
  - repeat constructor.
  - repeat constructor; unfold is_uint16; simpl; lia.
Qed.

Lemma example_long_run_wf :
  wf_CuSum example.regressors example.sh example.long_run.
Proof.
  constructor; try (split; reflexivity); try reflexivity.
  - repeat constructor.
  - repeat constructor; unfold is_uint16; simpl; lia.
Qed.

Lemma example_acquisitions_shape :
  Forall (fun a : grid float * Z => has_shape example.sh a.1)
         [(example.acquisition1, 0); (example.acquisition2, 86400000000000)].
Proof. repeat constructor. Qed.

(** C1 on the instance. *)
Lemma break_iff_process_exceeds_boundary_example :
  exists self' is_break,
    CuSum_monitor example.log example.pow example.regressors example.inner
                  example.instance example.acquisition1 0 = Ok self' /\
    CuSum_detect_break self' = Ok is_break /\
    has_shape example.sh is_break /\
    forall (p : nat), (p < np.size example.sh)%nat ->
      exists (m : Z) (obs pr bd : float),
        mask (base example.instance) !! p = Some m /\
        example.acquisition1 !! p = Some obs /\
        process (base self') !! p = Some pr /\
        as_float64 (boundary (base self')) !! p = Some bd /\
        is_break !! p = Some (np.greater (PrimFloat.abs pr) bd) /\
        (np.greater (PrimFloat.abs pr) bd = true
         <-> (bd ?= PrimFloat.abs pr)%float = FLt) /\
        mask (base self') !! p
        = Some (if (1 =? m) && np.isfinite obs
                   && np.greater (PrimFloat.abs pr) bd
                then 3 else m).
Proof.
  apply (break_iff_process_exceeds_boundary example.log example.pow
           example.regressors example.inner example.sh example.instance
           example.acquisition1 0).
  - exact example_instance_wf.
  - split; reflexivity.
Defined.

(** C2 on the instance: the third pixel has mask code 3. *)
Lemma confirmed_break_is_terminal_example :
  exists self',
    CuSum_monitor_all example.log example.pow example.regressors example.inner example.instance
      [(example.acquisition1, 0); (example.acquisition2, 86400000000000)]
    = Ok self' /\
    mask (base self') !! 2%nat = Some 3 /\
    pixel_at self' 2 = pixel_at example.instance 2 /\
    beta (base self') = beta (base example.instance).
Proof.
  apply (confirmed_break_is_terminal example.log example.pow example.regressors
           example.inner example.sh
           [(example.acquisition1, 0); (example.acquisition2, 86400000000000)]
           example.instance 2%nat).
  - exact example_instance_wf.
  - exact example_acquisitions_shape.
  - reflexivity.
Defined.

(** C6 on the instance. *)
Lemma update_process_frame_example :
  exists self',
    CuSum_monitor example.log example.pow example.regressors example.inner example.instance
                  example.acquisition2 0 = Ok self' /\
    forall (p : nat) (m : Z) (obs : float),
      mask (base example.instance) !! p = Some m ->
      example.acquisition2 !! p = Some obs ->
      m <> 1 \/ np.isfinite obs = false ->
      process (base self') !! p = process (base example.instance) !! p /\
      as_float64 (boundary (base self')) !! p
      = as_float64 (boundary (base example.instance)) !! p /\
      n self' !! p = n example.instance !! p.
Proof.
  apply (update_process_frame example.log example.pow example.regressors
           example.inner example.sh
           example.instance example.acquisition2 0).
  - exact example_instance_wf.
  - split; reflexivity.
Defined.


(** C3 on the instance: the fit succeeds and leaves a boundary of zeros. *)
Lemma fit_boundary_is_zero_not_nan_example :
  exists fitted g,
    outcome (example.cusum_fit (mkCuSum_init None true 0 0.05%float) "ROC"
               (VFloat 0.05%float) None ∅) = Ok fitted /\
    boundary (base fitted) = BoundaryU16 g /\
    np.cells g = [0; 0].
Proof.
  pose proof (fit_boundary_is_zero_not_nan example.regressors example.shewhart
                example.ccdc_rirls example.ols example.rirls
                example.roc_stable_fit example.ccdc_stable_fit
                example.rec_test_crit example.ols_test_crit example.nanstd
                (mkCuSum_init None true 0 0.05%float) example.history "ROC"
                (VFloat 0.05%float) None ∅) as H.
  eexists. edestruct H as (g & Hb & _ & _ & _).
  - vm_compute. reflexivity.
  - exists g. split; [reflexivity|]. split; [exact Hb|].
    simpl in Hb. injection Hb as <-. reflexivity.
Defined.

(** The default detector against the "truncated quotient" reading, on two
    more pixels.  The process value [-256] over the boundary [1] has quotient
    [-256], which is not zero, and is not flagged: the conversion to [uint8]
    keeps [0].  The process value [-0.5] has truncated quotient [0] and is
    flagged, the floor being [-1]. *)
Lemma default_break_is_not_truncated_quotient :
  (np.isfinite (-256)%float = true /\ (1 =? 0)%float = false /\
   BaseNrt_detect_break (example.base_pixel (-256) 1)
   = Ok (np.Grid (1%nat, 1%nat) [0]) /\
   truth (0 : Z) = false /\
   spec_truncated_quotient (-256) 1 = Some (-256)) /\
  (np.isfinite (-0.5)%float = true /\
   BaseNrt_detect_break (example.base_pixel (-0.5) 1)
   = Ok (np.Grid (1%nat, 1%nat) [255]) /\
   truth (255 : Z) = true /\
   spec_truncated_quotient (-0.5) 1 = Some 0).
Proof. repeat split; reflexivity. Qed.

(** C4 on the one-pixel instance, with a process of 256 times the
    boundary: the quotient is 256 and the pixel is not flagged. *)
Lemma default_break_misses_multiples_of_256_example :
  BaseNrt_detect_break (example.base_pixel 256 1)
  = Ok (np.Grid (1%nat, 1%nat) [0]) /\
  spec_truncated_quotient 256 1 = Some 256 /\
  np.Grid (1%nat, 1%nat) [0] !! 0%nat = Some 0 /\ truth (0 : Z) = false.
Proof.
  split; [reflexivity|]. split; [reflexivity|].
  apply (default_break_misses_multiples_of_256 (example.base_pixel 256 1)
           (np.Grid (1%nat, 1%nat) [0]) 0 256%float 1%float 256);
    try reflexivity; lia.
Defined.

(** C7: two configurations the statement covers and the code treats otherwise.
    An empty screening name is neither 'Shewhart' nor 'CCDC_RIRLS' and
    raises nothing: the fit goes on without screening.  'LASSO' with an
    unknown screening name raises the [ValueError] of the screening, which
    is checked first, not [NotImplementedError]. *)
Lemma fit_accepts_empty_screening_name :
  (EmptyString <> "Shewhart" /\ EmptyString <> "CCDC_RIRLS" /\
   is_ok (outcome (example.fit None true "OLS" (Some EmptyString) ∅)) = true) /\
  outcome (example.fit None true "LASSO" (Some "bogus") ∅)
  = Raise (ValueError "Unknown screen_outliers").
Proof. split; [split; [|split]|]; try discriminate; by vm_compute. Qed.

(** C7 (as amended) on the instance: 'LASSO' raises
    [NotImplementedError]. *)
Lemma invalid_configuration_raises_example :
  invalid_config true "LASSO" None ∅ /\
  outcome (example.fit None true "LASSO" None ∅)
  = Raise (NotImplementedError "Method not yet implemented").
Proof.
  assert (H : invalid_config true "LASSO" None ∅) by (by apply invalid_lasso).
  split; [exact H|].
  destruct (invalid_configuration_raises example.shewhart example.ccdc_rirls
              example.ols example.rirls example.roc_stable_fit
              example.ccdc_stable_fit example.rec_test_crit
              true "LASSO" None ∅ H None
              (example.regressors (time example.history) true 0)
              example.history) as [_ Hclass].
  edestruct Hclass as (_ & _ & _ & Hmethod);
    [vm_compute; reflexivity | vm_compute; reflexivity |].
  edestruct Hmethod as [Hlasso _]; [reflexivity|].
  exact (Hlasso eq_refl).
Defined.


(** C10 on the instance: with the second pixel out of the mask, the fit
    fails on the reshape of the stability flags. *)
Lemma stable_fit_requires_full_mask_example :
  outcome (example.fit (Some (np.Grid (1%nat, 2%nat) [1; 0])) true "ROC" None ∅)
  = Raise (ValueError "cannot reshape array").
Proof.
  destruct (stable_fit_requires_full_mask example.shewhart example.ccdc_rirls
              example.ols example.rirls example.roc_stable_fit
              example.ccdc_stable_fit example.rec_test_crit
              ltac:(intros; apply length_replicate)
              ltac:(intros; apply length_replicate)
              ltac:(reflexivity) ltac:(reflexivity)
              true (example.regressors (time example.history) true 0)
              example.history "ROC" None ∅
              (np.Grid (1%nat, 2%nat) [1; 0])
              ltac:(split; reflexivity) ltac:(left; reflexivity)) as [_ H].
  destruct H as [_ H].
  - exists 1%nat, 0. split; [reflexivity | lia].
  - apply H; [reflexivity | discriminate].
Defined.
(** ** Further theorems on the small instance *)

(** X1 on the instance. *)
Lemma monitor_never_changes_model_example :
  exists self',
    CuSum_monitor_all example.log example.pow example.regressors example.inner example.instance
      [(example.acquisition1, 0); (example.acquisition2, 86400000000000)]
    = Ok self' /\
    wf_CuSum example.regressors example.sh self' /\
    trend (base self') = trend (base example.instance) /\
    harmonic_order (base self') = harmonic_order (base example.instance) /\
    x (base self') = x (base example.instance) /\
    y (base self') = y (base example.instance) /\
    beta (base self') = beta (base example.instance) /\
    sensitivity self' = sensitivity example.instance /\
    critval self' = critval example.instance /\
    sigma self' = sigma example.instance /\
    histsize self' = histsize example.instance.
Proof.
  apply (monitor_never_changes_model example.log example.pow example.regressors
           example.inner example.sh
           [(example.acquisition1, 0); (example.acquisition2, 86400000000000)]
           example.instance).
  - exact example_instance_wf.
  - exact example_acquisitions_shape.
Defined.

(** X2 on the instance: the first pixel is monitored. *)
Lemma mask_only_moves_from_1_to_3_example :
  exists self',
    CuSum_monitor_all example.log example.pow example.regressors example.inner example.instance
      [(example.acquisition1, 0); (example.acquisition2, 86400000000000)]
    = Ok self' /\
    (mask (base self') !! 0%nat = Some 1 \/
     1 = 1 /\ mask (base self') !! 0%nat = Some 3).
Proof.
  apply (mask_only_moves_from_1_to_3 example.log example.pow example.regressors
           example.inner example.sh
           [(example.acquisition1, 0); (example.acquisition2, 86400000000000)]
           example.instance 0%nat 1).
  - exact example_instance_wf.
  - exact example_acquisitions_shape.
  - reflexivity.
Defined.

(** X3 on the instance: the second pixel has mask code 0. *)
Lemma unmonitored_pixel_is_frozen_example :
  exists self',
    CuSum_monitor_all example.log example.pow example.regressors example.inner example.instance
      [(example.acquisition1, 0); (example.acquisition2, 86400000000000)]
    = Ok self' /\
    pixel_at self' 1 = pixel_at example.instance 1.
Proof.
  apply (unmonitored_pixel_is_frozen example.log example.pow example.regressors
           example.inner example.sh
           [(example.acquisition1, 0); (example.acquisition2, 86400000000000)]
           example.instance 1%nat 0).
  - exact example_instance_wf.
  - exact example_acquisitions_shape.
  - reflexivity.
  - lia.
Defined.

(** X4 on the instance: the first pixel, observed at 100. *)
Lemma valid_pixel_is_updated_example :
  exists y_pred pred self',
    predict example.regressors example.inner (base example.instance) 0
    = Ok y_pred /\
    y_pred !! 0%nat = Some pred /\
    CuSum_monitor example.log example.pow example.regressors example.inner example.instance
                  example.acquisition1 0 = Ok self' /\
    n self' !! 0%nat = Some ((10 + 1) mod 65536) /\
    process (base self') !! 0%nat
    = Some (0.125 + (100 - pred) / np.mul32 0.5 (np.sqrt32 (np.of_int 10)))%float /\
    as_float64 (boundary (base self')) !! 0%nat
    = Some (cusum_boundary (H := Arith_float64 example.log example.pow)
              (critval example.instance) ((10 + 1) mod 65536) 10).
Proof.
  apply (valid_pixel_is_updated example.log example.pow example.regressors
           example.inner example.sh
           example.instance example.acquisition1 0 0%nat
           100%float 0.125%float 0.5%float 10 10); try reflexivity.
  - exact example_instance_wf.
  - split; reflexivity.
Defined.

(** X5 on the instance, monitored with two acquisitions that agree at the
    first pixel. *)
Lemma pixels_are_independent_example :
  exists self1' self2',
    CuSum_monitor example.log example.pow example.regressors example.inner example.instance
                  example.acquisition1 0 = Ok self1' /\
    CuSum_monitor example.log example.pow example.regressors example.inner example.instance
                  example.acquisition3 0 = Ok self2' /\
    pixel_at self1' 0 = pixel_at self2' 0.
Proof.
  apply (pixels_are_independent example.log example.pow example.regressors
           example.inner example.sh
           example.instance example.instance example.acquisition1
           example.acquisition3 0 0%nat); try reflexivity.
  - exact example_instance_wf.
  - exact example_instance_wf.
  - split; reflexivity.
  - split; reflexivity.
  - repeat constructor.
Defined.

(** X6 on the history of three acquisitions, with two regressors. *)
Lemma fit_returns_full_grid_example :
  exists mask' beta residuals,
    outcome (example.fit None true "OLS" None ∅) = Ok (mask', beta, residuals) /\
    length (np.frames beta) = 2%nat /\
    length (np.frames residuals) = 3%nat.
Proof.
  pose proof (fit_returns_full_grid example.shewhart example.ccdc_rirls
                example.ols example.rirls example.roc_stable_fit
                example.ccdc_stable_fit example.rec_test_crit None true
                (example.regressors (time example.history) true 0)
                example.history "OLS" None ∅) as H.
  eexists _, _, _. split; [vm_compute; reflexivity|].
  edestruct H as ((_ & Lb & _) & (_ & Lr & _)); [vm_compute; reflexivity|].
  split; [exact Lb | exact Lr].
Defined.

(** X7 on the history, the second pixel masked out. *)
Lemma fit_is_zero_outside_mask_example :
  exists mask' beta residuals,
    outcome (example.fit (Some example.partial_mask) true "OLS" None ∅)
    = Ok (mask', beta, residuals) /\
    Forall (fun frame : list float => frame !! 1%nat = Some 0%float)
           (np.frames beta) /\
    Forall (fun frame : list float => frame !! 1%nat = Some 0%float)
           (np.frames residuals).
Proof.
  pose proof (fit_is_zero_outside_mask example.shewhart example.ccdc_rirls
                example.ols example.rirls example.roc_stable_fit
                example.ccdc_stable_fit example.rec_test_crit
                example.partial_mask true
                (example.regressors (time example.history) true 0)
                example.history "OLS" None ∅) as H.
  eexists _, _, _. split; [vm_compute; reflexivity|].
  eapply (H _ _ _ 1%nat 0); [vm_compute; reflexivity | reflexivity | lia |].
  simpl. unfold np.size. simpl. lia.
Defined.

(** X8 on the history, fitted with 'ROC' and no mask. *)
Lemma fit_writes_only_code_2_example :
  exists mask' beta residuals,
    outcome (example.fit None true "ROC" None ∅) = Ok (mask', beta, residuals) /\
    forall (p : nat) (m' : Z), mask' !! p = Some m' -> m' = 2 \/ m' = 1.
Proof.
  pose proof (fit_writes_only_code_2 example.shewhart example.ccdc_rirls
                example.ols example.rirls example.roc_stable_fit
                example.ccdc_stable_fit example.rec_test_crit None true
                (example.regressors (time example.history) true 0)
                example.history "ROC" None ∅) as H.
  eexists _, _, _. split; [vm_compute; reflexivity|].
  edestruct H as [Hcells _]; [vm_compute; reflexivity|]. exact Hcells.
Defined.

(** X9 on a history with no acquisition. *)
Lemma fit_on_empty_history_raises_example :
  exists e,
    outcome (CuSum_fit example.regressors example.shewhart example.ccdc_rirls
               example.ols example.rirls example.roc_stable_fit
               example.ccdc_stable_fit example.rec_test_crit
               example.ols_test_crit example.nanstd
               (mkCuSum_init None true 0 0.05%float) example.empty_history
               "OLS" (VFloat 0.05%float) None ∅) = Raise e.
Proof.
  apply (fit_on_empty_history_raises example.regressors example.shewhart
           example.ccdc_rirls example.ols example.rirls example.roc_stable_fit
           example.ccdc_stable_fit example.rec_test_crit example.ols_test_crit
           example.nanstd (mkCuSum_init None true 0 0.05%float)
           example.empty_history "OLS" (VFloat 0.05%float) None ∅).
  reflexivity.
Defined.

(** X10 on the history of three acquisitions. *)
Lemma fit_counts_at_most_history_example :
  exists fitted,
    outcome (example.cusum_fit (mkCuSum_init None true 0 0.05%float) "OLS"
               (VFloat 0.05%float) None ∅) = Ok fitted /\
    n fitted = histsize fitted /\
    forall (p : nat) (h : Z), histsize fitted !! p = Some h -> 0 <= h <= 3.
Proof.
  pose proof (fit_counts_at_most_history example.regressors example.shewhart
                example.ccdc_rirls example.ols example.rirls
                example.roc_stable_fit example.ccdc_stable_fit
                example.rec_test_crit example.ols_test_crit example.nanstd
                (mkCuSum_init None true 0 0.05%float) example.history "OLS"
                (VFloat 0.05%float) None ∅) as H.
  eexists. split; [vm_compute; reflexivity|].
  apply H. vm_compute. reflexivity.
Defined.

(** X11 on the history, the second pixel masked out: its count is 3
    although one of its three values is NaN. *)
Lemma excluded_pixel_counts_whole_history_example :
  exists fitted,
    outcome (example.cusum_fit
               (mkCuSum_init (Some example.partial_mask) true 0 0.05%float)
               "OLS" (VFloat 0.05%float) None ∅) = Ok fitted /\
    histsize fitted !! 1%nat = Some (3 mod 65536).
Proof.
  pose proof (excluded_pixel_counts_whole_history example.regressors
                example.shewhart example.ccdc_rirls example.ols example.rirls
                example.roc_stable_fit example.ccdc_stable_fit
                example.rec_test_crit example.ols_test_crit example.nanstd
                (mkCuSum_init (Some example.partial_mask) true 0 0.05%float)
                example.history "OLS" (VFloat 0.05%float) None ∅) as H.
  eexists. split; [vm_compute; reflexivity|].
  apply (H _ example.partial_mask 1%nat 0);
    [vm_compute; reflexivity | reflexivity | reflexivity | lia |].
  simpl. unfold np.size. simpl. lia.
Defined.

(** X12 on the history: the fitted instance is monitored with an
    acquisition of the grid of the history. *)
Lemma fitted_instance_can_be_monitored_example :
  exists fitted self',
    outcome (example.cusum_fit (mkCuSum_init None true 0 0.05%float) "ROC"
               (VFloat 0.05%float) None ∅) = Ok fitted /\
    CuSum_monitor example.log example.pow example.regressors example.inner fitted
                  (np.Grid (1%nat, 2%nat) [3; 4]%float) 259200000000000
    = Ok self'.
Proof.
  pose proof (fitted_instance_can_be_monitored example.regressors
                example.shewhart example.ccdc_rirls example.ols example.rirls
                example.roc_stable_fit example.ccdc_stable_fit
                example.rec_test_crit example.ols_test_crit example.nanstd
                example.log example.pow example.inner (fun _ _ => 2%nat)
                ltac:(reflexivity)
                ltac:(intros; split; [reflexivity | apply length_replicate])
                (mkCuSum_init None true 0 0.05%float) example.history "ROC"
                (VFloat 0.05%float) None ∅) as H.
  eexists.
  edestruct H as [_ Hmon]; [| exact I | vm_compute; reflexivity |].
  - repeat constructor.
  - destruct (Hmon (np.Grid (1%nat, 2%nat) [3; 4]%float) 259200000000000)
      as (self' & Hself' & _); [split; reflexivity|].
    exists self'. split; [vm_compute; reflexivity | exact Hself'].
Defined.

(** X13 on the one-pixel instance, with a boundary of zero. *)
Lemma default_break_ignores_undefined_quotient_example :
  np.Grid (1%nat, 1%nat) [0] !! 0%nat = Some 0 /\ truth (0 : Z) = false.
Proof.
  apply (default_break_ignores_undefined_quotient (example.base_pixel 1 0)
           (np.Grid (1%nat, 1%nat) [0]) 0 1%float 0%float); try reflexivity.
  right. right. reflexivity.
Defined.

(** X14 at [r = 5] with the default tuning constant. *)
Lemma bisquare_zero_beyond_c_example :
  stats.bisquare_cell stats.bisquare_c 5 = 0%float.
Proof.
  apply (bisquare_zero_beyond_c 5%float stats.bisquare_c); reflexivity.
Defined.

(** X16 at [v = 1]. *)
Lemma erfcc_reflection_example :
  stats.erfcc example.exp (-1) = (2 - stats.erfcc example.exp 1)%float.
Proof. apply (erfcc_reflection example.exp 1%float). reflexivity. Defined.

(** X17 on a grid of one column. *)
Lemma transform_needs_two_coordinates_example :
  exists msg,
    outcome (transform (Some [0%float]) (Some [0; 1]%float))
    = Raise (IndexError msg).
Proof.
  apply (transform_needs_two_coordinates [0%float] [0; 1]%float).
  left. simpl. lia.
Defined.

(** X18 on a grid of three columns and two rows, the rows stored from
    south to north. *)
Lemma transform_is_north_up_example :
  exists aff,
    outcome (transform (Some [0; 1; 2]%float) (Some [0; 1]%float)) = Ok aff /\
    aff_b aff = 0%float /\ aff_d aff = 0%float /\
    (aff_a aff <? 0)%float = false /\ (0 <? aff_e aff)%float = false.
Proof.
  eexists. split; [vm_compute; reflexivity|].
  apply (transform_is_north_up [0; 1; 2]%float [0; 1]%float).
  vm_compute. reflexivity.
Defined.
